(** * Orthomosaic generation service: the job orchestration pipeline

    A shallow embedding of [main.processar_projeto] and of the handlers of
    [handlers.py] it drives.  Every call that leaves the Python process (the
    Supabase client, the object store, the WebODM node, the local file
    system, the webhook endpoint) is recorded in a trace and answered by an
    environment that sees the whole trace so far, so the same call may be
    answered differently each time it is made.

    Conventions.
    - Python text is [string] (bytes; file names and identifiers are ASCII).
    - A Python exception is [Raise msg], where [msg] is [str(e)].
    - [config.logger] calls at WARNING and ERROR level are recorded as [Log]
      events; INFO lines and the [traceback.format_exc()] dumps that repeat
      an ERROR line are left out.
    - Values interpolated into a log line that the model does not hold as
      text (counts, HTTP status codes, object reprs) are left out of it.
    - A [float] is the exact fraction it denotes. *)

From Stdlib Require Import ZArith Ascii String List Bool Lia.
From stdpp Require Import base option list gmap strings.

Local Open Scope string_scope.
Local Open Scope Z_scope.

(** ** Python values held by the preset and by ledger records *)

Record PyFloat := MkFloat { f_num : Z; f_den : positive }.

Inductive PyVal :=
| PStr (s : string)
| PInt (n : Z)
| PFloat (x : PyFloat)
| PBool (b : bool)
| PList (l : list string).

(** ** The few [str] and [os.path] functions the handlers use *)

Definition lower_ascii (c : ascii) : ascii :=
  let n := N_of_ascii c in
  if ((65 <=? n) && (n <=? 90))%N then ascii_of_N (n + 32) else c.

(** [str.lower()] *)
Fixpoint lower (s : string) : string :=
  match s with
  | EmptyString => EmptyString
  | String c r => String (lower_ascii c) (lower r)
  end.

Fixpoint rfind_from (c : ascii) (s : string) (i acc : Z) : Z :=
  match s with
  | EmptyString => acc
  | String a r => rfind_from c r (i + 1) (if Ascii.eqb a c then i else acc)
  end.

(** [str.rfind(c)] for a one-character needle: the last index, or -1 *)
Definition rfind (c : ascii) (s : string) : Z := rfind_from c s 0 (-1).

(** [p[i:j]] for [0 <= i] *)
Definition slice (p : string) (i j : Z) : string :=
  String.substring (Z.to_nat i) (Z.to_nat (j - i)) p.

Definition str_len (p : string) : Z := Z.of_nat (String.length p).

(** [str.startswith] and [str.endswith] *)
Definition startswith (s pre : string) : bool := String.prefix pre s.

Definition endswith (s suf : string) : bool :=
  (str_len suf <=? str_len s) &&
  String.eqb (slice s (str_len s - str_len suf) (str_len s)) suf.

(** the loop of [genericpath._splitext] that skips leading dots: is there a
    character other than the dot in [p[lo:hi]]? *)
Definition has_non_dot (p : string) (lo hi : Z) : bool :=
  existsb (fun c => negb (Ascii.eqb c "."%char))
          (list_ascii_of_string (slice p lo hi)).

(** [os.path.splitext] (posixpath) *)
Definition splitext (p : string) : string * string :=
  let sepIndex := rfind "/"%char p in
  let dotIndex := rfind "."%char p in
  if (sepIndex <? dotIndex) && has_non_dot p (sepIndex + 1) dotIndex
  then (slice p 0 dotIndex, slice p dotIndex (str_len p))
  else (p, EmptyString).

(** [os.path.join(a, b)] (posixpath) *)
Definition path_join (a b : string) : string :=
  if startswith b "/" then b
  else if (String.eqb a EmptyString) || endswith a "/" then a ++ b
  else a ++ "/" ++ b.

Fixpoint rstrip_rev (l : list ascii) : list ascii :=
  match l with
  | c :: r => if Ascii.eqb c "/"%char then rstrip_rev r else l
  | [] => []
  end.

(** [os.path.dirname] (posixpath) *)
Definition dirname (p : string) : string :=
  let i := rfind "/"%char p + 1 in
  let head := slice p 0 i in
  let stripped := rev (rstrip_rev (rev (list_ascii_of_string head))) in
  match stripped with
  | [] => head                      (* empty, or nothing but slashes *)
  | _ => string_of_list_ascii stripped
  end.

(** [x in s] for two strings: [x] occurs in [s] *)
Fixpoint contains (s x : string) : bool :=
  String.prefix x s ||
  match s with
  | EmptyString => false
  | String _ r => contains r x
  end.

(** [x in l] for a list of strings *)
Definition str_in (x : string) (l : list string) : bool :=
  existsb (String.eqb x) l.

(** Python truthiness of [str | None] *)
Definition truthy (o : option string) : bool :=
  match o with
  | Some s => negb (String.eqb s EmptyString)
  | None => false
  end.

(** ** Events, calls and the trace *)

Inductive Nivel := WARNING | ERROR.

(** [pyodm.types.TaskStatus] *)
Inductive TaskStatus := QUEUED | RUNNING | FAILED | COMPLETED | CANCELED.

Definition status_name (st : TaskStatus) : string :=
  match st with
  | QUEUED => "QUEUED" | RUNNING => "RUNNING" | FAILED => "FAILED"
  | COMPLETED => "COMPLETED" | CANCELED => "CANCELED"
  end.

Definition terminal (st : TaskStatus) : bool :=
  match st with
  | COMPLETED | CANCELED | FAILED => true
  | _ => false
  end.

(** the [pyodm] task handle *)
Record Task := MkTask { uuid : string }.

(** the JSON body of the webhook *)
Record Payload := MkPayload {
  p_id_projeto : string;
  p_status : string;
  p_timestamp : string;
  p_url_ortomosaico : option string;
  p_mensagem : option string
}.

(** an object descriptor of a storage listing: [file['name']] *)
Record FileDesc := MkFile { name : string }.

Inductive IOEvent :=
| Log (n : Nivel) (msg : string)
| CreateClient
| TableUpdate (id : string) (data : gmap string PyVal)
| TableSelectUrl (id_projeto : string)
| Makedirs (path : string)
| StorageList (bucket path : string)
| StorageDownload (bucket path : string)
| OpenWrite (path : string)
| OpenRead (path : string)
| StorageUpload (bucket path : string) (ctype : option string)
| GetPublicUrl (bucket path : string)
| PathExists (path : string)
| Listdir (path : string)
| IsFile (path : string)
| NewNode
| CreateTask (imagens : list string) (opcoes : gmap string PyVal)
| TaskInfo (task : string)
| Sleep (secs : Z)
| DownloadAssets (task dir : string)
| Copy2 (src dst : string)
| Now
| WriteMetadata (path : string) (params : list (string * PyVal))
| Remove (path : string)
| HttpPost (url : string) (body : Payload)
| Rmtree (path : string).

(** how a call ended *)
Inductive Outcome (A : Type) :=
| Returns (a : A)
| Throws (msg : string).
Arguments Returns {A} a.
Arguments Throws {A} msg.

(** a finished call of a handler from [processar_projeto], with its
    arguments and how it ended *)
Inductive Chamada :=
| C_baixar_imagens (id_projeto : string) (r : Outcome (string * Z))
| C_atualizar (id_registro : string) (id_wl status_orto url : option string)
              (r : Outcome bool)
| C_webhook (id_projeto status : string) (url mensagem : option string)
            (r : Outcome bool)
| C_processar_webodm (dir id_projeto : string) (r : Outcome (option Task * bool))
| C_aguardar (t : Task) (r : Outcome (string * bool))
| C_baixar_resultados (t : Task) (id_projeto : string)
                      (r : Outcome (option string * bool))
| C_gerar_metadados (id_projeto dir caminho : string) (t : Task) (num : Z)
                    (r : Outcome (option string))
| C_enviar_ortomosaico (id_projeto caminho : string)
                       (r : Outcome (option string * bool))
| C_enviar_metadados (id_projeto caminho : string) (r : Outcome bool)
| C_limpar (id_projeto : string) (r : Outcome bool).

Inductive Item :=
| IO (e : IOEvent)
| Call (c : Chamada).

(** ** The process state and the environment *)

Record State := MkState {
  trace : list Item;
  (** [config.ortomosaico_preset]: one dict object shared by the process *)
  ortomosaico_preset : gmap string PyVal;
  (** table [requisicoes], by primary key [id] *)
  requisicoes : gmap string (gmap string PyVal)
}.

Inductive InfoRes :=
| InfoOk (st : TaskStatus)
| InfoConnError (msg : string)      (* NodeConnectionError *)
| InfoError (msg : string).         (* any other exception *)

Record Env := MkEnv {
  (* config.py *)
  WEBHOOK_URL : option string;
  TEMP_DIR : string;
  (* float(str): Python's parser of float literals, not modelled *)
  float_of_str : string -> option PyFloat;
  (* the answers of the outside world, given the trace up to and including
     the request *)
  o_create_client : list Item -> Outcome unit;
  o_table_update : list Item -> Outcome unit;
  o_table_select : list Item -> Outcome (option string);
  o_makedirs : list Item -> Outcome unit;
  o_storage_list : list Item -> Outcome (list FileDesc);
  o_storage_download : list Item -> Outcome unit;
  o_open_write : list Item -> Outcome unit;
  o_open_read : list Item -> Outcome unit;
  o_storage_upload : list Item -> Outcome unit;
  o_get_public_url : list Item -> Outcome string;
  o_exists : list Item -> bool;
  o_listdir : list Item -> Outcome (list string);
  o_isfile : list Item -> bool;
  o_new_node : list Item -> Outcome unit;
  o_create_task : list Item -> Outcome string;
  o_task_info : list Item -> InfoRes;
  o_download_assets : list Item -> Outcome unit;
  o_copy2 : list Item -> Outcome unit;
  o_now : list Item -> string;
  o_write_metadata : list Item -> Outcome unit;
  o_remove : list Item -> Outcome unit;
  o_http_post : list Item -> Outcome Z;
  o_rmtree : list Item -> Outcome unit
}.

(** ** The monad: state, exceptions, and running out of fuel *)

Inductive Res (A : Type) :=
| Ok (a : A)
| Raise (msg : string)
| Diverge.
Arguments Ok {A} a.
Arguments Raise {A} msg.
Arguments Diverge {A}.

Definition M (A : Type) : Type := State -> Res A * State.

Definition ret {A} (a : A) : M A := fun s => (Ok a, s).

Definition bind {A B} (m : M A) (k : A -> M B) : M B := fun s =>
  match m s with
  | (Ok a, s') => k a s'
  | (Raise e, s') => (Raise e, s')
  | (Diverge, s') => (Diverge, s')
  end.

Notation "'do' x <- m ; k" := (bind m (fun x => k))
  (at level 10, x binder, m at level 100, k at level 200,
   format "'[v' 'do'  x  <-  m ; '/' k ']'").

(** [try: m except Exception as e: h e] *)
Definition try_except {A} (m : M A) (h : string -> M A) : M A := fun s =>
  match m s with
  | (Raise e, s') => h e s'
  | r => r
  end.

(** [raise] *)
Definition raise {A} (e : string) : M A := fun s => (Raise e, s).

Definition registrar (i : Item) (s : State) : State :=
  MkState (trace s ++ [i]) (ortomosaico_preset s) (requisicoes s).

(** an external call that may fail: record the request, ask the environment *)
Definition ext {A} (e : IOEvent) (o : list Item -> Outcome A) : M A := fun s =>
  let s' := registrar (IO e) s in
  match o (trace s') with
  | Returns a => (Ok a, s')
  | Throws msg => (Raise msg, s')
  end.

(** an external query that cannot fail *)
Definition ask {A} (e : IOEvent) (o : list Item -> A) : M A := fun s =>
  let s' := registrar (IO e) s in (Ok (o (trace s')), s').

Definition emit (e : IOEvent) : M unit := fun s => (Ok tt, registrar (IO e) s).

Definition log (n : Nivel) (msg : string) : M unit := emit (Log n msg).

(** record a handler call made by the driver, with how it ended *)
Definition chamar {A} (c : Outcome A -> Chamada) (m : M A) : M A := fun s =>
  match m s with
  | (Ok a, s') => (Ok a, registrar (Call (c (Returns a))) s')
  | (Raise e, s') => (Raise e, registrar (Call (c (Throws e))) s')
  | (Diverge, s') => (Diverge, s')
  end.

Definition get_preset : M (gmap string PyVal) := fun s =>
  (Ok (ortomosaico_preset s), s).

Definition set_preset (k : string) (v : PyVal) : M unit := fun s =>
  (Ok tt, MkState (trace s) (<[k := v]> (ortomosaico_preset s)) (requisicoes s)).

Definition set_requisicoes (f : gmap string (gmap string PyVal) ->
                                gmap string (gmap string PyVal)) : M unit := fun s =>
  (Ok tt, MkState (trace s) (ortomosaico_preset s) (f (requisicoes s))).

Section Handlers.

Context (env : Env).

(** ** config.py *)

Definition get_project_temp_dir (id_projeto : string) : M string :=
  let project_dir := path_join (TEMP_DIR env) id_projeto in
  do _ <- ext (Makedirs project_dir) (o_makedirs env);
  ret project_dir.

(** ** handlers.py: the ledger *)

Definition get_supabase_client : M unit :=
  try_except (ext CreateClient (o_create_client env))
    (fun e => do _ <- log ERROR ("Erro ao criar cliente Supabase: " ++ e); raise e).

(** the [data] dict built by [atualizar_registro_requisicao] *)
Definition update_data (id_wl status_orto url_ortomosaico : option string)
  : gmap string PyVal :=
  let data : gmap string PyVal := ∅ in
  let data := match id_wl with
              | Some v => <["id_wl" := PStr v]> data | None => data end in
  let data := match status_orto with
              | Some v => <["status_orto" := PStr v]> data | None => data end in
  let data := match url_ortomosaico with
              | Some v => <["url_ortomosaico" := PStr v]> data | None => data end in
  data.

(** [update(data).eq("id", id).execute()]: the request may fail; when it does
    not, the columns of [data] are set on the record whose key is [id], if
    there is one *)
Definition table_update (id_registro : string) (data : gmap string PyVal) : M unit :=
  do _ <- ext (TableUpdate id_registro data) (o_table_update env);
  set_requisicoes (alter (fun rec => data ∪ rec) id_registro).

(** [if data:] *)
Definition dict_truthy (d : gmap string PyVal) : bool :=
  negb (bool_decide (d = ∅)).

Definition atualizar_registro_requisicao
  (id_registro : string) (id_wl status_orto url_ortomosaico : option string) : M bool :=
  try_except
    (do _ <- get_supabase_client;
     let data := update_data id_wl status_orto url_ortomosaico in
     if dict_truthy data then
       do _ <- table_update id_registro data;
       ret true
     else
       do _ <- log WARNING "Nenhum dado fornecido para atualização.";
       ret false)
    (fun e =>
       do _ <- log ERROR ("Erro ao atualizar registro na tabela requisicoes: " ++ e);
       ret false).


(** ** handlers.py: the input images *)

Definition default_extensions : list string :=
  [".jpg"; ".jpeg"; ".tif"; ".tiff"; ".png"].

(** [x in v] *)
Definition py_in (x : string) (v : PyVal) : M bool :=
  match v with
  | PList l => ret (str_in x l)
  | PStr s => ret (contains s x)
  | _ => raise "argument of this type is not iterable"
  end.

(** [[file for file in response
      if os.path.splitext(file['name'])[1].lower() in supported_extensions]] *)
Fixpoint valid_files (supported : PyVal) (response : list FileDesc)
  : M (list FileDesc) :=
  match response with
  | [] => ret []
  | file :: rest =>
      do b <- py_in (lower (splitext (name file)).2) supported;
      do vs <- valid_files supported rest;
      ret (if b then file :: vs else vs)
  end.

(** the download loop, from the running [contador] *)
Fixpoint baixar_cada (id_projeto temp_dir : string) (files : list FileDesc)
  (contador : Z) : M Z :=
  match files with
  | [] => ret contador
  | file :: rest =>
      let file_path := id_projeto ++ "/" ++ name file in
      let local_path := path_join temp_dir (name file) in
      do contador <- try_except
        (do _ <- ext (StorageDownload "uploads" file_path) (o_storage_download env);
         do _ <- ext (OpenWrite local_path) (o_open_write env);
         ret (contador + 1))
        (fun e =>
           do _ <- log ERROR ("Erro ao baixar arquivo " ++ file_path ++ ": " ++ e);
           ret contador);
      baixar_cada id_projeto temp_dir rest contador
  end.

Definition baixar_imagens_projeto (id_projeto : string) : M (string * Z) :=
  try_except
    (do _ <- get_supabase_client;
     do temp_dir <- get_project_temp_dir id_projeto;
     do response <- ext (StorageList "uploads" id_projeto) (o_storage_list env);
     match response with
     | [] =>
         do _ <- log ERROR ("Nenhuma imagem encontrada para o projeto " ++ id_projeto);
         ret (temp_dir, 0)
     | _ =>
         do opcoes <- get_preset;
         let supported_extensions :=
           default (PList default_extensions)
                   (opcoes !! "SUPPORTED_IMAGE_EXTENSIONS") in
         do files <- valid_files supported_extensions response;
         do contador <- baixar_cada id_projeto temp_dir files 0;
         ret (temp_dir, contador)
     end)
    (fun e =>
       do _ <- log ERROR ("Erro ao baixar imagens do projeto " ++ id_projeto ++ ": " ++ e);
       do temp_dir <- get_project_temp_dir id_projeto;
       ret (temp_dir, 0)).

(** ** handlers.py: publishing to the bucket *)

Definition enviar_ortomosaico_para_bucket (id_projeto caminho_ortomosaico : string)
  : M (option string * bool) :=
  try_except
    (do _ <- get_supabase_client;
     do existe <- ask (PathExists caminho_ortomosaico) (o_exists env);
     if negb existe then
       do _ <- log ERROR ("Arquivo de ortomosaico não encontrado: " ++ caminho_ortomosaico);
       ret (None, false)
     else
       (* Verifica se a pasta existe no bucket, se não, cria *)
       do _ <- try_except
             (do _ <- ext (GetPublicUrl "Ortomosaicos" (id_projeto ++ "/"))
                      (o_get_public_url env);
              ret tt)
             (fun _ =>
                try_except
                  (let temp_file := path_join (TEMP_DIR env) "temp.txt" in
                   do _ <- ext (OpenWrite temp_file) (o_open_write env);
                   do _ <- ext (StorageUpload "Ortomosaicos" (id_projeto ++ "/.folder") None)
                           (o_storage_upload env);
                   ext (Remove temp_file) (o_remove env))
                  (fun e => log WARNING ("Erro ao criar pasta no bucket: " ++ e)));
       let nome_arquivo := "odm_ortophoto.tif" in
       let caminho_bucket := id_projeto ++ "/" ++ nome_arquivo in
       do _ <- ext (OpenRead caminho_ortomosaico) (o_open_read env);
       do _ <- ext (StorageUpload "Ortomosaicos" caminho_bucket (Some "image/tiff"))
               (o_storage_upload env);
       do url <- ext (GetPublicUrl "Ortomosaicos" caminho_bucket) (o_get_public_url env);
       ret (Some url, true))
    (fun e =>
       do _ <- log ERROR ("Erro ao enviar ortomosaico para o bucket: " ++ e);
       ret (None, false)).

Definition enviar_metadados_para_bucket (id_projeto caminho_metadados : string)
  : M bool :=
  try_except
    (do _ <- get_supabase_client;
     do existe <- ask (PathExists caminho_metadados) (o_exists env);
     if negb existe then
       do _ <- log ERROR ("Arquivo de metadados não encontrado: " ++ caminho_metadados);
       ret false
     else
       let nome_arquivo := "metadados.txt" in
       let caminho_bucket := id_projeto ++ "/" ++ nome_arquivo in
       do _ <- ext (OpenRead caminho_metadados) (o_open_read env);
       do _ <- ext (StorageUpload "Ortomosaicos" caminho_bucket (Some "text/plain"))
               (o_storage_upload env);
       ret true)
    (fun e =>
       do _ <- log ERROR ("Erro ao enviar arquivo de metadados para o bucket: " ++ e);
       ret false).

(** ** handlers.py: the remote job *)

(** [float(n)] for an int ([PyLong_AsDouble]): the int itself up to 53
    bits; beyond, the nearest number with a mantissa of 53 bits, a tie going
    to the even mantissa; OverflowError when that number reaches 2^1024 *)
Definition float_de_int (n : Z) : Outcome PyFloat :=
  let a := Z.abs n in
  let e := Z.log2 a - 52 in
  if e <=? 0 then Returns (MkFloat n 1)
  else
    let q := Z.shiftr a e in
    let r := Z.land a (Z.ones e) in
    let half := Z.shiftl 1 (e - 1) in
    let q := if (half <? r) || ((r =? half) && Z.odd q) then q + 1 else q in
    let m := Z.shiftl q e in
    if Z.shiftl 1 1024 <=? m then Throws "int too large to convert to float"
    else Returns (MkFloat (Z.sgn n * m) 1).

Definition hex_digit (n : N) : ascii :=
  ascii_of_N (if (n <? 10)%N then 48 + n else 87 + n).

(** one character of [repr(s)], inside quotes [aspa] *)
Definition repr_char (aspa c : ascii) : string :=
  let n := N_of_ascii c in
  let barra := "092"%char in
  if Ascii.eqb c barra || Ascii.eqb c aspa then String barra (String c EmptyString)
  else if (n =? 9)%N then String barra "t"
  else if (n =? 10)%N then String barra "n"
  else if (n =? 13)%N then String barra "r"
  else if (n <? 32)%N || (n =? 127)%N
       then String barra (String "x" (String (hex_digit (n / 16))
                                        (String (hex_digit (n mod 16)) EmptyString)))
  else String c EmptyString.

(** [repr(s)] of a [str] of ASCII text: in single quotes, unless [s] holds
    a single quote and no double quote *)
Definition repr_str (s : string) : string :=
  let simples := "'"%char in
  let duplas := "034"%char in
  let aspa :=
    if contains s (String simples EmptyString)
       && negb (contains s (String duplas EmptyString))
    then duplas else simples in
  String aspa
    (String.concat EmptyString (List.map (repr_char aspa) (list_ascii_of_string s))
     ++ String aspa EmptyString).

(** [float(v)], or the message of the exception it raises *)
Definition float_de (v : PyVal) : Outcome PyFloat :=
  match v with
  | PInt n => float_de_int n
  | PFloat x => Returns x
  | PBool b => Returns (MkFloat (if b then 1 else 0) 1)
  | PStr s => match float_of_str env s with
              | Some x => Returns x
              | None => Throws ("could not convert string to float: " ++ repr_str s)
              end
  | PList _ =>
      Throws "float() argument must be a string or a real number, not 'list'"
  end.

Definition py_float (v : PyVal) : M PyFloat :=
  match float_de v with
  | Returns x => ret x
  | Throws e => raise e
  end.

(** the loop over [os.listdir(caminho_imagens)] *)
Fixpoint listar_imagens (caminho_imagens : string) (arquivos : list string)
  : M (list string) :=
  match arquivos with
  | [] => ret []
  | arquivo :: rest =>
      let caminho_completo := path_join caminho_imagens arquivo in
      do e_arquivo <- ask (IsFile caminho_completo) (o_isfile env);
      do imagens <- listar_imagens caminho_imagens rest;
      ret (if e_arquivo &&
               existsb (fun ext => endswith (lower arquivo) ext) default_extensions
            then caminho_completo :: imagens else imagens)
  end.

Definition processar_imagens_webodm (caminho_imagens id_projeto : string)
  : M (option Task * bool) :=
  try_except
    (do _ <- ext NewNode (o_new_node env);
     do arquivos <- ext (Listdir caminho_imagens) (o_listdir env);
     do imagens <- listar_imagens caminho_imagens arquivos;
     match imagens with
     | [] =>
         do _ <- log ERROR ("Nenhuma imagem válida encontrada em " ++ caminho_imagens);
         ret (None, false)
     | _ =>
         (* opcoes = config.ortomosaico_preset: the same dict, not a copy *)
         do _ <- set_preset "name" (PStr ("Projeto_" ++ id_projeto));
         do opcoes <- get_preset;
         do res <- py_float (default (PInt 5) (opcoes !! "orthophoto-resolution"));
         do _ <- set_preset "orthophoto-resolution" (PFloat res);
         do opcoes <- get_preset;
         do _ <- set_preset "dsm" (default (PBool false) (opcoes !! "dsm"));
         do opcoes <- get_preset;
         do _ <- set_preset "dtm" (default (PBool false) (opcoes !! "dtm"));
         do _ <- set_preset "gcp" (PBool false);
         do _ <- set_preset "projection" (PStr "EPSG:4326");
         do opcoes <- get_preset;
         do id <- ext (CreateTask imagens opcoes) (o_create_task env);
         ret (Some (MkTask id), true)
     end)
    (fun e =>
       do _ <- log ERROR ("Erro ao processar imagens no WebODM: " ++ e);
       ret (None, false)).

(** [task.info()] *)
Definition task_info (t : Task) : M TaskStatus :=
  do r <- ask (TaskInfo (uuid t)) (o_task_info env);
  match r with
  | InfoOk st => ret st
  | InfoConnError e => raise e
  | InfoError e => raise e
  end.

Definition diverge {A} : M A := fun s => (Diverge, s).

(** [pyodm.Task.wait_for_completion], the library loop that
    [aguardar_processamento] calls.  It is not part of the repository; this
    follows the library: [max_retries] is the number of attempts made to get a
    status after a connection error, the counter restarts at every status
    received, and the loop is left only on a terminal status or by an
    exception.  One unit of [fuel] is one turn of the [while True]. *)
Fixpoint wait_for_completion (fuel : nat) (t : Task)
  (interval max_retries retry_timeout retry : Z) : M unit :=
  match fuel with
  | O => diverge
  | S fuel =>
      do r <- ask (TaskInfo (uuid t)) (o_task_info env);
      match r with
      | InfoConnError e =>
          if retry <? max_retries then
            do _ <- emit (Sleep ((retry + 1) * retry_timeout));
            wait_for_completion fuel t interval max_retries retry_timeout (retry + 1)
          else raise e
      | InfoError e => raise e
      | InfoOk st =>
          if terminal st then
            match st with
            | COMPLETED => ret ()
            | _ => raise ("TaskStatus." ++ status_name st)
            end
          else
            do _ <- emit (Sleep interval);
            wait_for_completion fuel t interval max_retries retry_timeout 0
      end
  end.

Definition aguardar_processamento (fuel : nat) (t : Task) : M (string * bool) :=
  try_except
    ((* Configura o tempo máximo de espera (18 horas = 64800 segundos) *)
     let max_timeout := 64800 in
     do _ <- wait_for_completion fuel t 30 (max_timeout / 30) 5 0;
     do info <- task_info t;
     let status := status_name info in
     ret (status, String.eqb status "COMPLETED"))
    (fun e =>
       do _ <- log ERROR ("Erro ao aguardar processamento: " ++ e);
       ret ("FAILED", false)).

Definition baixar_resultados (t : Task) (id_projeto : string)
  : M (option string * bool) :=
  try_except
    (do temp_dir <- get_project_temp_dir id_projeto;
     let dir_resultados := path_join temp_dir "resultados" in
     do _ <- ext (Makedirs dir_resultados) (o_makedirs env);
     do _ <- ext (DownloadAssets (uuid t) dir_resultados) (o_download_assets env);
     let caminho_ortomosaico_original :=
       path_join (path_join dir_resultados "odm_orthophoto") "odm_orthophoto.tif" in
     do existe <- ask (PathExists caminho_ortomosaico_original) (o_exists env);
     if negb existe then
       do _ <- log ERROR ("Ortomosaico não encontrado em " ++ caminho_ortomosaico_original);
       ret (None, false)
     else
       let caminho_ortomosaico_final := path_join dir_resultados "odm_orthophoto.tif" in
       do _ <- ext (Copy2 caminho_ortomosaico_original caminho_ortomosaico_final)
               (o_copy2 env);
       ret (Some caminho_ortomosaico_final, true))
    (fun e =>
       do _ <- log ERROR ("Erro ao baixar resultados: " ++ e);
       ret (None, false)).


(** ** handlers.py: the metadata file *)

(** [isinstance(valor, (str, int, float, bool))] *)
Definition escalar (v : PyVal) : bool :=
  match v with
  | PList _ => false
  | _ => true
  end.

Fixpoint inserir (kv : string * PyVal) (l : list (string * PyVal))
  : list (string * PyVal) :=
  match l with
  | [] => [kv]
  | kv' :: r => if String.leb kv.1 kv'.1 then kv :: l else kv' :: inserir kv r
  end.

(** [sorted(opcoes.items())]: the keys of a dict are distinct, so the items
    are ordered by key *)
Definition sorted_items (opcoes : gmap string PyVal) : list (string * PyVal) :=
  foldr inserir [] (map_to_list opcoes).

(** the lines written under PARÂMETROS DE PROCESSAMENTO, as (param, valor) *)
Definition parametros (opcoes : gmap string PyVal) : list (string * PyVal) :=
  List.filter (fun kv => escalar kv.2 && negb (startswith kv.1 "_"))
              (sorted_items opcoes).

(** Of the text written, the model keeps the parameter lines; the other
    lines are fixed text, request attributes and host identifiers. *)
Definition gerar_metadados (id_projeto dir_imagens caminho_ortomosaico : string)
  (t : Task) (opcoes : gmap string PyVal) (num_imagens : Z)
  (dados_requisicao : option (gmap string PyVal)) : M (option string) :=
  try_except
    (let dir_resultados := dirname caminho_ortomosaico in
     do info <- task_info t;
     let caminho_metadados := path_join dir_resultados "metadados.txt" in
     do _ <- ext (WriteMetadata caminho_metadados (parametros opcoes))
             (o_write_metadata env);
     ret (Some caminho_metadados))
    (fun e =>
       do _ <- log ERROR ("Erro ao gerar metadados: " ++ e);
       ret None).

(** ** handlers.py: the webhook *)

Definition enviar_webhook (id_projeto status : string)
  (url_ortomosaico mensagem : option string) : M bool :=
  try_except
    (if negb (truthy (WEBHOOK_URL env)) then
       do _ <- log WARNING "URL de webhook não configurada. Notificação não enviada.";
       ret false
     else
       do timestamp <- ask Now (o_now env);
       do url_ortomosaico <-
         (if String.eqb status "sucesso" && negb (truthy url_ortomosaico) then
            try_except
              (do _ <- get_supabase_client;
               do r <- ext (TableSelectUrl id_projeto) (o_table_select env);
               ret (if truthy r then r else url_ortomosaico))
              (fun e =>
                 do _ <- log WARNING
                           ("Não foi possível obter URL do ortomosaico do banco: " ++ e);
                 ret url_ortomosaico)
          else ret url_ortomosaico);
       let payload :=
         MkPayload id_projeto status timestamp
                   (if truthy url_ortomosaico then url_ortomosaico else None)
                   (if truthy mensagem then mensagem else None) in
       do code <- ext (HttpPost (default EmptyString (WEBHOOK_URL env)) payload)
                    (o_http_post env);
       if (200 <=? code) && (code <? 300) then ret true
       else
         do _ <- log ERROR "Erro ao enviar webhook.";
         ret false)
    (fun e =>
       do _ <- log ERROR ("Erro ao enviar webhook: " ++ e);
       ret false).

(** ** handlers.py: cleanup *)

Definition limpar_arquivos_temporarios (id_projeto : string) : M bool :=
  try_except
    (do dir_projeto <- get_project_temp_dir id_projeto;
     do existe <- ask (PathExists dir_projeto) (o_exists env);
     if existe then
       do _ <- ext (Rmtree dir_projeto) (o_rmtree env);
       ret true
     else
       do _ <- log WARNING ("Diretório temporário não encontrado: " ++ dir_projeto);
       ret false)
    (fun e =>
       do _ <- log ERROR ("Erro ao remover arquivos temporários: " ++ e);
       ret false).

(** ** main.py: the calls of the driver, each recorded in the trace *)

Definition h_baixar_imagens (id_projeto : string) :=
  chamar (C_baixar_imagens id_projeto) (baixar_imagens_projeto id_projeto).

Definition h_atualizar (id_registro : string) (id_wl status_orto url : option string) :=
  chamar (C_atualizar id_registro id_wl status_orto url)
         (atualizar_registro_requisicao id_registro id_wl status_orto url).

Definition h_webhook (id_projeto status : string) (url mensagem : option string) :=
  chamar (C_webhook id_projeto status url mensagem)
         (enviar_webhook id_projeto status url mensagem).

Definition h_processar_webodm (dir id_projeto : string) :=
  chamar (C_processar_webodm dir id_projeto) (processar_imagens_webodm dir id_projeto).

Definition h_aguardar (fuel : nat) (t : Task) :=
  chamar (C_aguardar t) (aguardar_processamento fuel t).

Definition h_baixar_resultados (t : Task) (id_projeto : string) :=
  chamar (C_baixar_resultados t id_projeto) (baixar_resultados t id_projeto).

Definition h_gerar_metadados (id_projeto dir caminho : string) (t : Task)
  (num : Z) (dados : option (gmap string PyVal)) :=
  chamar (C_gerar_metadados id_projeto dir caminho t num)
         (do opcoes <- get_preset;
          gerar_metadados id_projeto dir caminho t opcoes num dados).

Definition h_enviar_ortomosaico (id_projeto caminho : string) :=
  chamar (C_enviar_ortomosaico id_projeto caminho)
         (enviar_ortomosaico_para_bucket id_projeto caminho).

Definition h_enviar_metadados (id_projeto caminho : string) :=
  chamar (C_enviar_metadados id_projeto caminho)
         (enviar_metadados_para_bucket id_projeto caminho).

Definition h_limpar (id_projeto : string) :=
  chamar (C_limpar id_projeto) (limpar_arquivos_temporarios id_projeto).

(** ** main.py: [processar_projeto] *)

Definition processar_projeto (fuel : nat) (id_projeto registro_id : string)
  (dados_requisicao : option (gmap string PyVal)) : M bool :=
  try_except
    ((* 1. Baixar imagens do bucket *)
     do '(dir_imagens, num_imagens) <- h_baixar_imagens id_projeto;
     if num_imagens =? 0 then
       do _ <- log ERROR ("Nenhuma imagem encontrada para o projeto " ++ id_projeto);
       do _ <- h_atualizar registro_id None (Some "Erro: Nenhuma imagem encontrada") None;
       do _ <- h_webhook id_projeto "erro" None (Some "Nenhuma imagem encontrada");
       ret false
     else
     (* 2. Processar imagens no WebODM *)
     do '(task, success) <- h_processar_webodm dir_imagens id_projeto;
     match (if success then task else None) with
     | None =>
       do _ <- log ERROR ("Falha ao iniciar processamento no WebODM para o projeto "
                          ++ id_projeto);
       do _ <- h_atualizar registro_id None
                 (Some "Erro: Falha ao iniciar processamento") None;
       do _ <- h_webhook id_projeto "erro" None
                 (Some "Falha ao iniciar processamento no WebODM");
       do _ <- h_limpar id_projeto;
       ret false
     | Some task =>
     (* Atualiza o registro com o ID da tarefa do WebODM *)
     do _ <- h_atualizar registro_id (Some (uuid task)) None None;
     (* 3. Aguardar a conclusão do processamento *)
     do '(status, success) <- h_aguardar fuel task;
     if negb success then
       do _ <- log ERROR ("Processamento falhou para o projeto " ++ id_projeto
                          ++ ". Status: " ++ status);
       do _ <- h_atualizar registro_id None (Some ("Erro: " ++ status)) None;
       do _ <- h_webhook id_projeto "erro" None
                 (Some ("Processamento falhou: " ++ status));
       do _ <- h_limpar id_projeto;
       ret false
     else
     (* 4. Baixar resultados *)
     do '(caminho_ortomosaico, success) <- h_baixar_resultados task id_projeto;
     match (if success && truthy caminho_ortomosaico
            then caminho_ortomosaico else None) with
     | None =>
       do _ <- log ERROR ("Falha ao baixar resultados para o projeto " ++ id_projeto);
       do _ <- h_atualizar registro_id None
                 (Some "Erro: Falha ao baixar resultados") None;
       do _ <- h_webhook id_projeto "erro" None (Some "Falha ao baixar resultados");
       do _ <- h_limpar id_projeto;
       ret false
     | Some caminho_ortomosaico =>
     (* 5. Gerar apenas o arquivo de metadados TXT *)
     do caminho_metadados <-
       h_gerar_metadados id_projeto dir_imagens caminho_ortomosaico task
                         num_imagens dados_requisicao;
     do _ <- (if negb (truthy caminho_metadados) then
                log WARNING ("Falha ao gerar metadados para o projeto " ++ id_projeto)
              else ret tt);
     (* 6. Enviar ortomosaico para o bucket *)
     do '(url_ortomosaico, success) <-
       h_enviar_ortomosaico id_projeto caminho_ortomosaico;
     if negb success || negb (truthy url_ortomosaico) then
       do _ <- log ERROR ("Falha ao enviar ortomosaico para o bucket para o projeto "
                          ++ id_projeto);
       do _ <- h_atualizar registro_id None
                 (Some "Erro: Falha ao enviar ortomosaico") None;
       do _ <- h_webhook id_projeto "erro" None
                 (Some "Falha ao enviar ortomosaico para o bucket");
       do _ <- h_limpar id_projeto;
       ret false
     else
     (* 7. Enviar metadados para o bucket (apenas o TXT) *)
     do _ <- (if truthy caminho_metadados then
                do _ <- h_enviar_metadados id_projeto (default EmptyString caminho_metadados);
                ret tt
              else ret tt);
     (* 8. Atualizar registro na tabela requisicoes com a URL do ortomosaico *)
     do success_db <- h_atualizar registro_id None (Some "Sucesso") url_ortomosaico;
     if negb success_db then
       do _ <- log ERROR ("Falha ao atualizar registro na tabela para o projeto "
                          ++ id_projeto);
       do _ <- h_webhook id_projeto "erro" None
                 (Some "Falha ao atualizar registro no banco de dados");
       do _ <- h_limpar id_projeto;
       ret false
     else
     (* 9. Enviar webhook de sucesso APENAS APÓS atualização da tabela *)
     do _ <- h_webhook id_projeto "sucesso" url_ortomosaico None;
     (* 10. Limpar arquivos temporários *)
     do _ <- h_limpar id_projeto;
     ret true
     end end)
    (fun e =>
       do _ <- log ERROR ("Erro durante o processamento do projeto " ++ id_projeto
                          ++ ": " ++ e);
       (* Atualiza o registro com o erro *)
       do _ <- h_atualizar registro_id None (Some ("Erro: " ++ e)) None;
       (* Envia webhook de erro *)
       do _ <- h_webhook id_projeto "erro" None (Some e);
       (* Limpa arquivos temporários *)
       do _ <- h_limpar id_projeto;
       ret false).

End Handlers.

(** * Reasoning about runs *)

Local Open Scope list_scope.

(** the part of the trace added between two states *)
Definition novos (s s' : State) : list Item :=
  drop (length (trace s)) (trace s').

(** the handler calls of a trace, in order *)
Fixpoint chamadas (t : list Item) : list Chamada :=
  match t with
  | [] => []
  | Call c :: r => c :: chamadas r
  | IO _ :: r => chamadas r
  end.

(** the external events of a trace, in order *)
Fixpoint eventos (t : list Item) : list IOEvent :=
  match t with
  | [] => []
  | IO e :: r => e :: eventos r
  | Call _ :: r => eventos r
  end.

#[global] Instance PyFloat_eq_dec : EqDecision PyFloat.
Proof. solve_decision. Defined.

#[global] Instance PyVal_eq_dec : EqDecision PyVal.
Proof. solve_decision. Defined.

Definition is_log (e : IOEvent) : bool :=
  match e with
  | Log _ _ => true
  | _ => false
  end.

(** ** Three properties of a computation, each closed under the monad *)

(** [m] adds only external events allowed by [P] to the trace *)
Definition regular {A} (P : IOEvent -> bool) (m : M A) : Prop :=
  forall s, exists evs,
    trace (m s).2 = trace s ++ (IO <$> evs) /\ forallb P evs = true.

(** [m] lets no exception out *)
Definition nao_levanta {A} (m : M A) : Prop :=
  forall s e, (m s).1 <> Raise e.

(** [m] does not run out of fuel *)
Definition termina {A} (m : M A) : Prop :=
  forall s, (m s).1 <> Diverge.

Section Closure.

Context {A B : Type} (P : IOEvent -> bool).

Lemma regular_nil (m : M A) :
  (forall s, trace (m s).2 = trace s) -> regular P m.
Proof.
  intros H s. exists []. rewrite H. simpl. by rewrite app_nil_r.
Qed.

Lemma regular_one (m : M A) e :
  P e = true -> (forall s, trace (m s).2 = trace s ++ [IO e]) -> regular P m.
Proof.
  intros He H s. exists [e]. rewrite H. simpl. by rewrite He.
Qed.

Lemma regular_bind (m : M A) (k : A -> M B) :
  regular P m -> (forall a, regular P (k a)) -> regular P (bind m k).
Proof.
  intros Hm Hk s. unfold bind.
  destruct (Hm s) as (evs1 & E1 & F1).
  destruct (m s) as [[a|e|] s1]; simpl in E1.
  - destruct (Hk a s1) as (evs2 & E2 & F2).
    exists (evs1 ++ evs2). rewrite E2, E1, fmap_app, forallb_app, F1, F2.
    by rewrite app_assoc.
  - by exists evs1.
  - by exists evs1.
Qed.

Lemma regular_try (m : M A) (h : string -> M A) :
  regular P m -> (forall e, regular P (h e)) -> regular P (try_except m h).
Proof.
  intros Hm Hh s. unfold try_except.
  destruct (Hm s) as (evs1 & E1 & F1).
  destruct (m s) as [[a|e|] s1]; simpl in E1.
  - by exists evs1.
  - destruct (Hh e s1) as (evs2 & E2 & F2).
    exists (evs1 ++ evs2). rewrite E2, E1, fmap_app, forallb_app, F1, F2.
    by rewrite app_assoc.
  - by exists evs1.
Qed.

Lemma nao_levanta_bind (m : M A) (k : A -> M B) :
  nao_levanta m -> (forall a, nao_levanta (k a)) -> nao_levanta (bind m k).
Proof.
  intros Hm Hk s e. unfold bind. specialize (Hm s).
  destruct (m s) as [[a|e'|] s1]; simpl in *.
  - apply Hk.
  - by destruct (Hm e').
  - done.
Qed.

Lemma nao_levanta_try (m : M A) (h : string -> M A) :
  (forall e, nao_levanta (h e)) -> nao_levanta (try_except m h).
Proof.
  intros Hh s e. unfold try_except.
  destruct (m s) as [[a|e'|] s1]; simpl; [done| apply Hh | done].
Qed.

Lemma termina_bind (m : M A) (k : A -> M B) :
  termina m -> (forall a, termina (k a)) -> termina (bind m k).
Proof.
  intros Hm Hk s. unfold bind. specialize (Hm s).
  destruct (m s) as [[a|e'|] s1]; simpl in *; [apply Hk | done | done].
Qed.

Lemma termina_try (m : M A) (h : string -> M A) :
  termina m -> (forall e, termina (h e)) -> termina (try_except m h).
Proof.
  intros Hm Hh s. unfold try_except. specialize (Hm s).
  destruct (m s) as [[a|e'|] s1]; simpl in *; [done | apply Hh | done].
Qed.

End Closure.

Lemma regular_weaken {A} (P Q : IOEvent -> bool) (m : M A) :
  (forall e, P e = true -> Q e = true) -> regular P m -> regular Q m.
Proof.
  intros HPQ Hm s. destruct (Hm s) as (evs & E & F). exists evs. split; [done|].
  rewrite forallb_forall in *. auto.
Qed.

Section Primitives.

Context {A : Type} (P : IOEvent -> bool).

Lemma regular_ret (a : A) : regular P (ret a).
Proof. by apply regular_nil. Qed.

Lemma regular_raise e : regular P (raise e : M A).
Proof. by apply regular_nil. Qed.

Lemma regular_diverge : regular P (diverge : M A).
Proof. by apply regular_nil. Qed.

Lemma regular_get_preset : regular P get_preset.
Proof. by apply regular_nil. Qed.

Lemma regular_set_preset k v : regular P (set_preset k v).
Proof. by apply regular_nil. Qed.

Lemma regular_set_requisicoes f : regular P (set_requisicoes f).
Proof. by apply regular_nil. Qed.

Lemma regular_ext e (o : list Item -> Outcome A) :
  P e = true -> regular P (ext e o).
Proof.
  intros He. apply (regular_one P _ e He). intros s. unfold ext.
  by destruct (o _).
Qed.

Lemma regular_ask e (o : list Item -> A) : P e = true -> regular P (ask e o).
Proof. intros He. by apply (regular_one P _ e He). Qed.

Lemma regular_emit e : P e = true -> regular P (emit e).
Proof. intros He. by apply (regular_one P _ e He). Qed.

Lemma regular_log n msg : P (Log n msg) = true -> regular P (log n msg).
Proof. apply regular_emit. Qed.

Lemma nao_levanta_ret (a : A) : nao_levanta (ret a).
Proof. by intros s e. Qed.

Lemma nao_levanta_ask e (o : list Item -> A) : nao_levanta (ask e o).
Proof. by intros s e'. Qed.

Lemma termina_ret (a : A) : termina (ret a).
Proof. by intros s. Qed.

Lemma termina_raise e : termina (raise e : M A).
Proof. by intros s. Qed.

Lemma termina_ext e (o : list Item -> Outcome A) : termina (ext e o).
Proof. intros s. unfold ext. by destruct (o _). Qed.

Lemma termina_ask e (o : list Item -> A) : termina (ask e o).
Proof. by intros s. Qed.

End Primitives.

Lemma nao_levanta_log n msg : nao_levanta (log n msg).
Proof. by intros s e. Qed.

Lemma termina_log n msg : termina (log n msg).
Proof. by intros s. Qed.

Lemma termina_emit e : termina (emit e).
Proof. by intros s. Qed.

Lemma termina_get_preset : termina get_preset.
Proof. by intros s. Qed.

Lemma termina_set_preset k v : termina (set_preset k v).
Proof. by intros s. Qed.

Lemma termina_set_requisicoes f : termina (set_requisicoes f).
Proof. by intros s. Qed.

(** ** What each handler may do to the outside world *)

(** the external events a call of a handler may produce; a log line of the
    driver written before the call counts with it *)
Definition pegada (c : Chamada) (e : IOEvent) : bool :=
  match e with
  | Log _ _ => true
  | _ =>
    match c with
    | C_baixar_imagens _ _ =>
        match e with
        | CreateClient | Makedirs _ | StorageList _ _ | StorageDownload _ _
        | OpenWrite _ => true
        | _ => false
        end
    | C_atualizar _ _ _ _ _ =>
        match e with
        | CreateClient | TableUpdate _ _ => true
        | _ => false
        end
    | C_webhook _ status _ _ _ =>
        match e with
        | Now | CreateClient | TableSelectUrl _ => true
        | HttpPost _ body => String.eqb (p_status body) status
        | _ => false
        end
    | C_processar_webodm _ _ _ =>
        match e with
        | NewNode | Listdir _ | IsFile _ | CreateTask _ _ => true
        | _ => false
        end
    | C_aguardar _ _ =>
        match e with
        | TaskInfo _ | Sleep _ => true
        | _ => false
        end
    | C_baixar_resultados _ _ _ =>
        match e with
        | Makedirs _ | DownloadAssets _ _ | PathExists _ | Copy2 _ _ => true
        | _ => false
        end
    | C_gerar_metadados _ _ _ _ _ _ =>
        match e with
        | TaskInfo _ | WriteMetadata _ _ => true
        | _ => false
        end
    | C_enviar_ortomosaico _ _ _ =>
        match e with
        | CreateClient | PathExists _ | GetPublicUrl _ _ | OpenWrite _
        | StorageUpload _ _ _ | Remove _ | OpenRead _ => true
        | _ => false
        end
    | C_enviar_metadados _ _ _ =>
        match e with
        | CreateClient | PathExists _ | OpenRead _ | StorageUpload _ _ _ => true
        | _ => false
        end
    | C_limpar _ _ =>
        match e with
        | Makedirs _ | PathExists _ | Rmtree _ => true
        | _ => false
        end
    end
  end.

(** the events of the wait itself, which a run that is still waiting leaves
    behind with no finished call after them *)
Definition pegada_espera (e : IOEvent) : bool :=
  match e with
  | Log _ _ | TaskInfo _ | Sleep _ => true
  | _ => false
  end.

Lemma pegada_log c e : is_log e = true -> pegada c e = true.
Proof. by destruct e. Qed.

Section BaseFacts.

Context (env : Env) (P : IOEvent -> bool).

Lemma get_project_temp_dir_regular id :
  (forall p, P (Makedirs p) = true) ->
  regular P (get_project_temp_dir env id).
Proof.
  intros HP. unfold get_project_temp_dir. apply regular_bind.
  - apply regular_ext, HP.
  - intros. apply regular_ret.
Qed.

Lemma get_project_temp_dir_termina id : termina (get_project_temp_dir env id).
Proof.
  unfold get_project_temp_dir. apply termina_bind; [apply termina_ext|].
  intros. apply termina_ret.
Qed.

Lemma get_supabase_client_regular :
  P CreateClient = true -> (forall n m, P (Log n m) = true) ->
  regular P (get_supabase_client env).
Proof.
  intros H1 H2. unfold get_supabase_client. apply regular_try.
  - by apply regular_ext.
  - intros. apply regular_bind; [apply regular_log, H2 | intros; apply regular_raise].
Qed.

Lemma get_supabase_client_termina : termina (get_supabase_client env).
Proof.
  unfold get_supabase_client. apply termina_try; [apply termina_ext|].
  intros. apply termina_bind; [apply termina_log | intros; apply termina_raise].
Qed.

Lemma task_info_regular t :
  (forall u, P (TaskInfo u) = true) -> regular P (task_info env t).
Proof.
  intros HP. unfold task_info. apply regular_bind; [apply regular_ask, HP|].
  intros [ | | ]; first [apply regular_ret | apply regular_raise].
Qed.

Lemma task_info_termina t : termina (task_info env t).
Proof.
  unfold task_info. apply termina_bind; [apply termina_ask|].
  intros [ | | ]; first [apply termina_ret | apply termina_raise].
Qed.

End BaseFacts.

Ltac mstep :=
  lazymatch goal with
  | |- regular _ (bind _ _) => apply regular_bind; [| intros ?]
  | |- regular _ (try_except _ _) => apply regular_try; [| intros ?]
  | |- regular _ (ret _) => apply regular_ret
  | |- regular _ (raise _) => apply regular_raise
  | |- regular _ diverge => apply regular_diverge
  | |- regular _ (ext _ _) => apply regular_ext; reflexivity
  | |- regular _ (ask _ _) => apply regular_ask; reflexivity
  | |- regular _ (log _ _) => apply regular_log; reflexivity
  | |- regular _ (emit _) => apply regular_emit; reflexivity
  | |- regular _ get_preset => apply regular_get_preset
  | |- regular _ (set_preset _ _) => apply regular_set_preset
  | |- regular _ (set_requisicoes _) => apply regular_set_requisicoes
  | |- regular _ (get_supabase_client _) =>
      apply get_supabase_client_regular; [reflexivity | intros; reflexivity]
  | |- regular _ (get_project_temp_dir _ _) =>
      apply get_project_temp_dir_regular; intros; reflexivity
  | |- regular _ (task_info _ _) =>
      apply task_info_regular; intros; reflexivity
  | |- nao_levanta (bind _ _) => apply nao_levanta_bind; [| intros ?]
  | |- nao_levanta (try_except _ _) => apply nao_levanta_try; intros ?
  | |- nao_levanta (ret _) => apply nao_levanta_ret
  | |- nao_levanta (log _ _) => apply nao_levanta_log
  | |- nao_levanta (ask _ _) => apply nao_levanta_ask
  | |- termina (bind _ _) => apply termina_bind; [| intros ?]
  | |- termina (try_except _ _) => apply termina_try; [| intros ?]
  | |- termina (ret _) => apply termina_ret
  | |- termina (raise _) => apply termina_raise
  | |- termina (ext _ _) => apply termina_ext
  | |- termina (ask _ _) => apply termina_ask
  | |- termina (log _ _) => apply termina_log
  | |- termina (emit _) => apply termina_emit
  | |- termina get_preset => apply termina_get_preset
  | |- termina (set_preset _ _) => apply termina_set_preset
  | |- termina (set_requisicoes _) => apply termina_set_requisicoes
  | |- termina (get_supabase_client _) => apply get_supabase_client_termina
  | |- termina (get_project_temp_dir _ _) => apply get_project_temp_dir_termina
  | |- termina (task_info _ _) => apply task_info_termina
  | |- _ _ (if ?b then _ else _) => destruct b
  | |- _ (if ?b then _ else _) => destruct b
  | |- _ _ (match ?x with _ => _ end) => destruct x
  | |- _ (match ?x with _ => _ end) => destruct x
  end.

Ltac msolve := repeat (first [ assumption | mstep ]).

Section HandlerFacts.

Context (env : Env).

(** *** atualizar_registro_requisicao *)

Lemma atualizar_regular id a b u r :
  regular (pegada (C_atualizar id a b u r))
          (atualizar_registro_requisicao env id a b u).
Proof. unfold atualizar_registro_requisicao, table_update. msolve. Qed.

Lemma atualizar_nao_levanta id a b u :
  nao_levanta (atualizar_registro_requisicao env id a b u).
Proof. unfold atualizar_registro_requisicao. msolve. Qed.

Lemma atualizar_termina id a b u :
  termina (atualizar_registro_requisicao env id a b u).
Proof. unfold atualizar_registro_requisicao, table_update. msolve. Qed.

(** *** baixar_imagens_projeto *)

Lemma py_in_regular P x v : regular P (py_in x v).
Proof. unfold py_in. msolve. Qed.

Lemma py_in_termina x v : termina (py_in x v).
Proof. unfold py_in. msolve. Qed.

Lemma valid_files_regular P sup l : regular P (valid_files sup l).
Proof.
  induction l as [|f l IH]; simpl; [apply regular_ret|].
  apply regular_bind; [apply py_in_regular|]. intros. msolve.
Qed.

Lemma valid_files_termina sup l : termina (valid_files sup l).
Proof.
  induction l as [|f l IH]; simpl; [apply termina_ret|].
  apply termina_bind; [apply py_in_termina|]. intros. msolve.
Qed.

Lemma baixar_cada_regular id r dir l n :
  regular (pegada (C_baixar_imagens id r)) (baixar_cada env id dir l n).
Proof.
  revert n. induction l as [|f l IH]; intros n; simpl; [apply regular_ret|].
  apply regular_bind; [msolve | intros; apply IH].
Qed.

Lemma baixar_cada_termina id dir l n : termina (baixar_cada env id dir l n).
Proof.
  revert n. induction l as [|f l IH]; intros n; simpl; [apply termina_ret|].
  apply termina_bind; [msolve | intros; apply IH].
Qed.

Lemma baixar_imagens_regular id r :
  regular (pegada (C_baixar_imagens id r)) (baixar_imagens_projeto env id).
Proof.
  unfold baixar_imagens_projeto.
  repeat first [ apply valid_files_regular | apply baixar_cada_regular | mstep ].
Qed.

Lemma baixar_imagens_termina id : termina (baixar_imagens_projeto env id).
Proof.
  unfold baixar_imagens_projeto.
  repeat first [ apply valid_files_termina | apply baixar_cada_termina | mstep ].
Qed.

(** *** the bucket *)

Lemma enviar_ortomosaico_regular id p r :
  regular (pegada (C_enviar_ortomosaico id p r))
          (enviar_ortomosaico_para_bucket env id p).
Proof. unfold enviar_ortomosaico_para_bucket. msolve. Qed.

Lemma enviar_ortomosaico_nao_levanta id p :
  nao_levanta (enviar_ortomosaico_para_bucket env id p).
Proof. unfold enviar_ortomosaico_para_bucket. msolve. Qed.

Lemma enviar_ortomosaico_termina id p :
  termina (enviar_ortomosaico_para_bucket env id p).
Proof. unfold enviar_ortomosaico_para_bucket. msolve. Qed.

Lemma enviar_metadados_regular id p r :
  regular (pegada (C_enviar_metadados id p r))
          (enviar_metadados_para_bucket env id p).
Proof. unfold enviar_metadados_para_bucket. msolve. Qed.

Lemma enviar_metadados_nao_levanta id p :
  nao_levanta (enviar_metadados_para_bucket env id p).
Proof. unfold enviar_metadados_para_bucket. msolve. Qed.

Lemma enviar_metadados_termina id p :
  termina (enviar_metadados_para_bucket env id p).
Proof. unfold enviar_metadados_para_bucket. msolve. Qed.

(** *** the remote job *)

Lemma py_float_regular P v : regular P (py_float env v).
Proof. unfold py_float. msolve. Qed.

Lemma py_float_termina v : termina (py_float env v).
Proof. unfold py_float. msolve. Qed.

Lemma listar_imagens_regular d id r l :
  regular (pegada (C_processar_webodm d id r)) (listar_imagens env d l).
Proof. induction l as [|f l IH]; simpl; msolve. Qed.

Lemma listar_imagens_termina d l : termina (listar_imagens env d l).
Proof. induction l as [|f l IH]; simpl; msolve. Qed.

Lemma processar_webodm_regular d id r :
  regular (pegada (C_processar_webodm d id r)) (processar_imagens_webodm env d id).
Proof.
  unfold processar_imagens_webodm.
  repeat first [ apply listar_imagens_regular | apply py_float_regular | mstep ].
Qed.

Lemma processar_webodm_nao_levanta d id :
  nao_levanta (processar_imagens_webodm env d id).
Proof. unfold processar_imagens_webodm. msolve. Qed.

Lemma processar_webodm_termina d id :
  termina (processar_imagens_webodm env d id).
Proof.
  unfold processar_imagens_webodm.
  repeat first [ apply listar_imagens_termina | apply py_float_termina | mstep ].
Qed.

Lemma wait_for_completion_regular P fuel t i mr rt retry :
  (forall u, P (TaskInfo u) = true) -> (forall n, P (Sleep n) = true) ->
  regular P (wait_for_completion env fuel t i mr rt retry).
Proof.
  intros H1 H2. revert retry.
  induction fuel as [|fuel IH]; intros retry; simpl; [apply regular_diverge|].
  apply regular_bind; [apply regular_ask, H1|].
  intros [st|e|e].
  - destruct (terminal st).
    + destruct st; first [apply regular_ret | apply regular_raise].
    + apply regular_bind; [apply regular_emit, H2 | intros; apply IH].
  - destruct (retry <? mr); [|apply regular_raise].
    apply regular_bind; [apply regular_emit, H2 | intros; apply IH].
  - apply regular_raise.
Qed.

Lemma aguardar_regular P fuel t :
  (forall u, P (TaskInfo u) = true) -> (forall n, P (Sleep n) = true) ->
  (forall n m, P (Log n m) = true) ->
  regular P (aguardar_processamento env fuel t).
Proof.
  intros H1 H2 H3. unfold aguardar_processamento. apply regular_try.
  - apply regular_bind; [by apply wait_for_completion_regular|].
    intros. apply regular_bind; [by apply task_info_regular|].
    intros. apply regular_ret.
  - intros. apply regular_bind; [apply regular_log, H3 | intros; apply regular_ret].
Qed.

Lemma aguardar_nao_levanta fuel t :
  nao_levanta (aguardar_processamento env fuel t).
Proof. unfold aguardar_processamento. msolve. Qed.

Lemma baixar_resultados_regular t id r :
  regular (pegada (C_baixar_resultados t id r)) (baixar_resultados env t id).
Proof. unfold baixar_resultados. msolve. Qed.

Lemma baixar_resultados_nao_levanta t id :
  nao_levanta (baixar_resultados env t id).
Proof. unfold baixar_resultados. msolve. Qed.

Lemma baixar_resultados_termina t id : termina (baixar_resultados env t id).
Proof. unfold baixar_resultados. msolve. Qed.

(** *** metadata, webhook, cleanup *)

Lemma gerar_metadados_regular id d p t n r opc dados :
  regular (pegada (C_gerar_metadados id d p t n r))
          (gerar_metadados env id d p t opc n dados).
Proof. unfold gerar_metadados. msolve. Qed.

Lemma gerar_metadados_nao_levanta id d p t n opc dados :
  nao_levanta (gerar_metadados env id d p t opc n dados).
Proof. unfold gerar_metadados. msolve. Qed.

Lemma gerar_metadados_termina id d p t n opc dados :
  termina (gerar_metadados env id d p t opc n dados).
Proof. unfold gerar_metadados. msolve. Qed.

Lemma enviar_webhook_regular id st u m r :
  regular (pegada (C_webhook id st u m r)) (enviar_webhook env id st u m).
Proof.
  unfold enviar_webhook.
  repeat first [ apply regular_ext; simpl; apply String.eqb_refl | mstep ].
Qed.

Lemma enviar_webhook_nao_levanta id st u m :
  nao_levanta (enviar_webhook env id st u m).
Proof. unfold enviar_webhook. msolve. Qed.

Lemma enviar_webhook_termina id st u m : termina (enviar_webhook env id st u m).
Proof. unfold enviar_webhook. msolve. Qed.

Lemma limpar_regular id r :
  regular (pegada (C_limpar id r)) (limpar_arquivos_temporarios env id).
Proof. unfold limpar_arquivos_temporarios. msolve. Qed.

Lemma limpar_nao_levanta id : nao_levanta (limpar_arquivos_temporarios env id).
Proof. unfold limpar_arquivos_temporarios. msolve. Qed.

Lemma limpar_termina id : termina (limpar_arquivos_temporarios env id).
Proof. unfold limpar_arquivos_temporarios. msolve. Qed.

End HandlerFacts.

(** ** The shape of a run of [processar_projeto] *)

(** a trace made of finished calls, each preceded by external events its
    handler may produce *)
Inductive Segs : list Item -> list Chamada -> Prop :=
| Segs_nil : Segs [] []
| Segs_snoc t cs evs c :
    Segs t cs -> forallb (pegada c) evs = true ->
    Segs (t ++ (IO <$> evs) ++ [Call c]) (cs ++ [c]).

Section Paths.

Context (id reg : string).

Definition ch_erro (status mensagem : string) (b1 b2 : bool) : list Chamada :=
  [C_atualizar reg None (Some status) None (Returns b1);
   C_webhook id "erro" None (Some mensagem) (Returns b2)].

(** up to the wait: inputs acquired, job submitted, job reference persisted *)
Definition ch_inicio (d : string) (n : Z) (t : Task) (b0 : bool) : list Chamada :=
  [C_baixar_imagens id (Returns (d, n));
   C_processar_webodm d id (Returns (Some t, true));
   C_atualizar reg (Some (uuid t)) None None (Returns b0)].

(** up to the retrieval of the outputs *)
Definition ch_baixou (d : string) (n : Z) (t : Task) (b0 : bool)
  (status p : string) : list Chamada :=
  ch_inicio d n t b0 ++
  [C_aguardar t (Returns (status, true));
   C_baixar_resultados t id (Returns (Some p, true))].

(** publishing the metadata, when there is one *)
Definition ch_meta (cm : option string) (bm : bool) : list Chamada :=
  if truthy cm then [C_enviar_metadados id (default EmptyString cm) (Returns bm)]
  else [].

(** rendering the metadata, publishing the mosaic, then the metadata *)
Definition ch_publicou (d : string) (n : Z) (t : Task) (p : string)
  (cm url : option string) (em : list Chamada) : list Chamada :=
  [C_gerar_metadados id d p t n (Returns cm);
   C_enviar_ortomosaico id p (Returns (url, true))] ++ em.

(** the calls of a run, by the way it ends *)
Inductive Caminho : Res bool -> list Chamada -> Prop :=
| cam_inesperado e b1 b2 b3 :
    Caminho (Ok false)
      (C_baixar_imagens id (Throws e) ::
       ch_erro ("Erro: " +:+ e) e b1 b2 ++ [C_limpar id (Returns b3)])
| cam_sem_imagens d b1 b2 :
    Caminho (Ok false)
      (C_baixar_imagens id (Returns (d, 0)) ::
       ch_erro "Erro: Nenhuma imagem encontrada" "Nenhuma imagem encontrada" b1 b2)
| cam_falha_envio d (n : Z) (task : option Task) (ok : bool) b1 b2 b3 :
    n <> 0 -> (if ok then task else None) = None ->
    Caminho (Ok false)
      ([C_baixar_imagens id (Returns (d, n));
        C_processar_webodm d id (Returns (task, ok))] ++
       ch_erro "Erro: Falha ao iniciar processamento"
               "Falha ao iniciar processamento no WebODM" b1 b2 ++
       [C_limpar id (Returns b3)])
| cam_aguardando d (n : Z) t b0 :
    n <> 0 ->
    Caminho Diverge (ch_inicio d n t b0)
| cam_falha_processamento d (n : Z) t b0 status b1 b2 b3 :
    n <> 0 ->
    Caminho (Ok false)
      (ch_inicio d n t b0 ++ [C_aguardar t (Returns (status, false))] ++
       ch_erro ("Erro: " +:+ status) ("Processamento falhou: " +:+ status) b1 b2 ++
       [C_limpar id (Returns b3)])
| cam_sem_resultado d (n : Z) t b0 status (p : option string) (ok : bool) b1 b2 b3 :
    n <> 0 -> (if ok && truthy p then p else None) = None ->
    Caminho (Ok false)
      (ch_inicio d n t b0 ++
       [C_aguardar t (Returns (status, true));
        C_baixar_resultados t id (Returns (p, ok))] ++
       ch_erro "Erro: Falha ao baixar resultados" "Falha ao baixar resultados" b1 b2 ++
       [C_limpar id (Returns b3)])
| cam_falha_publicacao d (n : Z) t b0 status p cm (url : option string) (ok : bool)
    b1 b2 b3 :
    n <> 0 -> truthy (Some p) = true -> negb ok || negb (truthy url) = true ->
    Caminho (Ok false)
      (ch_baixou d n t b0 status p ++
       [C_gerar_metadados id d p t n (Returns cm);
        C_enviar_ortomosaico id p (Returns (url, ok))] ++
       ch_erro "Erro: Falha ao enviar ortomosaico"
               "Falha ao enviar ortomosaico para o bucket" b1 b2 ++
       [C_limpar id (Returns b3)])
| cam_falha_commit d (n : Z) t b0 status p cm url bm em b2 b3 :
    n <> 0 -> truthy (Some p) = true -> truthy url = true -> em = ch_meta cm bm ->
    Caminho (Ok false)
      (ch_baixou d n t b0 status p ++ ch_publicou d n t p cm url em ++
       [C_atualizar reg None (Some "Sucesso") url (Returns false);
        C_webhook id "erro" None
                  (Some "Falha ao atualizar registro no banco de dados") (Returns b2);
        C_limpar id (Returns b3)])
| cam_sucesso d (n : Z) t b0 status p cm url bm em b2 b3 :
    n <> 0 -> truthy (Some p) = true -> truthy url = true -> em = ch_meta cm bm ->
    Caminho (Ok true)
      (ch_baixou d n t b0 status p ++ ch_publicou d n t p cm url em ++
       [C_atualizar reg None (Some "Sucesso") url (Returns true);
        C_webhook id "sucesso" url None (Returns b2);
        C_limpar id (Returns b3)]).

End Paths.

(** the trace of [s] extends that of [s0] by finished calls [cs], then by
    log lines [pend] of the driver *)
Definition Inv (s0 s : State) (cs : list Chamada) (pend : list IOEvent) : Prop :=
  exists t, trace s = trace s0 ++ t ++ (IO <$> pend) /\ Segs t cs /\
            forallb is_log pend = true.

Lemma Inv_start s0 : Inv s0 s0 [] [].
Proof. exists []. simpl. rewrite app_nil_r. repeat split. constructor. Qed.

Lemma Inv_log s0 s cs pend n m :
  Inv s0 s cs pend -> Inv s0 (registrar (IO (Log n m)) s) cs (pend ++ [Log n m]).
Proof.
  intros (t & E & HS & F). exists t. simpl. rewrite E, fmap_app, forallb_app, F.
  repeat split; [|done]. by rewrite <- !app_assoc.
Qed.

Lemma Inv_call s0 s s' cs pend evs c :
  Inv s0 s cs pend -> trace s' = trace s ++ (IO <$> evs) -> forallb (pegada c) evs = true ->
  Inv s0 (registrar (Call c) s') (cs ++ [c]) [].
Proof.
  intros (t & E & HS & F) E' Fe.
  exists (t ++ (IO <$> (pend ++ evs)) ++ [Call c]). simpl. rewrite app_nil_r.
  repeat split.
  - rewrite E', E, fmap_app. by rewrite <- !app_assoc.
  - constructor; [done|]. rewrite forallb_app, Fe, andb_true_r.
    rewrite forallb_forall in *. intros e He. by apply pegada_log, F.
Qed.

Section Calls.

Context {A : Type} (c : Outcome A -> Chamada) (m : M A).
Context (Hreg : forall r, regular (pegada (c r)) m).

(** a handler that neither raises nor waits *)
Lemma chamar_total s0 s cs pend :
  nao_levanta m -> termina m -> Inv s0 s cs pend ->
  exists a s', chamar c m s = (Ok a, s') /\ Inv s0 s' (cs ++ [c (Returns a)]) [].
Proof.
  intros Hn Ht HI. unfold chamar. specialize (Hn s). specialize (Ht s).
  destruct (Hreg (Throws EmptyString) s) as (evs & E & F).
  destruct (m s) as [[a|e|] s1] eqn:Em; simpl in *.
  - exists a, (registrar (Call (c (Returns a))) s1). split; [done|].
    destruct (Hreg (Returns a) s) as (evs' & E' & F'). rewrite Em in E'.
    by eapply Inv_call.
  - by destruct (Hn e).
  - done.
Qed.

(** a handler that may raise *)
Lemma chamar_levanta s0 s cs pend :
  termina m -> Inv s0 s cs pend ->
  (exists a s', chamar c m s = (Ok a, s') /\ Inv s0 s' (cs ++ [c (Returns a)]) []) \/
  (exists e s', chamar c m s = (Raise e, s') /\ Inv s0 s' (cs ++ [c (Throws e)]) []).
Proof.
  intros Ht HI. unfold chamar. specialize (Ht s).
  destruct (m s) as [[a|e|] s1] eqn:Em; simpl in *.
  - left. exists a, (registrar (Call (c (Returns a))) s1). split; [done|].
    destruct (Hreg (Returns a) s) as (evs' & E' & F'). rewrite Em in E'.
    by eapply Inv_call.
  - right. exists e, (registrar (Call (c (Throws e))) s1). split; [done|].
    destruct (Hreg (Throws e) s) as (evs' & E' & F'). rewrite Em in E'.
    by eapply Inv_call.
  - done.
Qed.

(** a handler that may still be waiting when the fuel runs out *)
Lemma chamar_espera s0 s cs :
  nao_levanta m -> (forall r e, pegada (c r) e = true -> pegada_espera e = true) ->
  Inv s0 s cs [] ->
  (exists a s', chamar c m s = (Ok a, s') /\ Inv s0 s' (cs ++ [c (Returns a)]) []) \/
  (exists s' t evs, chamar c m s = (Diverge, s') /\
     trace s' = trace s0 ++ t ++ (IO <$> evs) /\ Segs t cs /\
     forallb pegada_espera evs = true).
Proof.
  intros Hn Hp HI. unfold chamar. specialize (Hn s).
  destruct (m s) as [[a|e|] s1] eqn:Em; simpl in *.
  - left. exists a, (registrar (Call (c (Returns a))) s1). split; [done|].
    destruct (Hreg (Returns a) s) as (evs' & E' & F'). rewrite Em in E'.
    by eapply Inv_call.
  - by destruct (Hn e).
  - right. destruct (Hreg (Throws EmptyString) s) as (evs & E & F). rewrite Em in E.
    destruct HI as (t & Et & HS & _). simpl in *. rewrite app_nil_r in Et.
    exists s1, t, evs. repeat split; [|done|].
    + rewrite E, Et. by rewrite <- app_assoc.
    + rewrite forallb_forall in *. eauto.
Qed.

End Calls.

Section Shape.

Context (env : Env).

Local Ltac total := apply chamar_total; [ intros | | ].

Lemma h_atualizar_spec s0 s cs pend reg a b u :
  Inv s0 s cs pend ->
  exists r s', h_atualizar env reg a b u s = (Ok r, s') /\
               Inv s0 s' (cs ++ [C_atualizar reg a b u (Returns r)]) [].
Proof.
  total; [apply atualizar_regular | apply atualizar_nao_levanta | apply atualizar_termina].
Qed.

Lemma h_webhook_spec s0 s cs pend id st u m :
  Inv s0 s cs pend ->
  exists r s', h_webhook env id st u m s = (Ok r, s') /\
               Inv s0 s' (cs ++ [C_webhook id st u m (Returns r)]) [].
Proof.
  total; [apply enviar_webhook_regular | apply enviar_webhook_nao_levanta
         | apply enviar_webhook_termina].
Qed.

Lemma h_limpar_spec s0 s cs pend id :
  Inv s0 s cs pend ->
  exists r s', h_limpar env id s = (Ok r, s') /\
               Inv s0 s' (cs ++ [C_limpar id (Returns r)]) [].
Proof.
  total; [apply limpar_regular | apply limpar_nao_levanta | apply limpar_termina].
Qed.

Lemma h_processar_webodm_spec s0 s cs pend d id :
  Inv s0 s cs pend ->
  exists r s', h_processar_webodm env d id s = (Ok r, s') /\
               Inv s0 s' (cs ++ [C_processar_webodm d id (Returns r)]) [].
Proof.
  total; [apply processar_webodm_regular | apply processar_webodm_nao_levanta
         | apply processar_webodm_termina].
Qed.

Lemma h_baixar_resultados_spec s0 s cs pend t id :
  Inv s0 s cs pend ->
  exists r s', h_baixar_resultados env t id s = (Ok r, s') /\
               Inv s0 s' (cs ++ [C_baixar_resultados t id (Returns r)]) [].
Proof.
  total; [apply baixar_resultados_regular | apply baixar_resultados_nao_levanta
         | apply baixar_resultados_termina].
Qed.

Lemma h_gerar_metadados_spec s0 s cs pend id d p t n dados :
  Inv s0 s cs pend ->
  exists r s', h_gerar_metadados env id d p t n dados s = (Ok r, s') /\
               Inv s0 s' (cs ++ [C_gerar_metadados id d p t n (Returns r)]) [].
Proof.
  total.
  - apply regular_bind; [apply regular_get_preset|]. intros.
    apply gerar_metadados_regular.
  - apply nao_levanta_bind; [by intros ? ?|]. intros.
    apply gerar_metadados_nao_levanta.
  - apply termina_bind; [apply termina_get_preset|]. intros.
    apply gerar_metadados_termina.
Qed.

Lemma h_enviar_ortomosaico_spec s0 s cs pend id p :
  Inv s0 s cs pend ->
  exists r s', h_enviar_ortomosaico env id p s = (Ok r, s') /\
               Inv s0 s' (cs ++ [C_enviar_ortomosaico id p (Returns r)]) [].
Proof.
  total; [apply enviar_ortomosaico_regular | apply enviar_ortomosaico_nao_levanta
         | apply enviar_ortomosaico_termina].
Qed.

Lemma h_enviar_metadados_spec s0 s cs pend id p :
  Inv s0 s cs pend ->
  exists r s', h_enviar_metadados env id p s = (Ok r, s') /\
               Inv s0 s' (cs ++ [C_enviar_metadados id p (Returns r)]) [].
Proof.
  total; [apply enviar_metadados_regular | apply enviar_metadados_nao_levanta
         | apply enviar_metadados_termina].
Qed.

Lemma h_baixar_imagens_spec s0 s cs pend id :
  Inv s0 s cs pend ->
  (exists a s', h_baixar_imagens env id s = (Ok a, s') /\
                Inv s0 s' (cs ++ [C_baixar_imagens id (Returns a)]) []) \/
  (exists e s', h_baixar_imagens env id s = (Raise e, s') /\
                Inv s0 s' (cs ++ [C_baixar_imagens id (Throws e)]) []).
Proof.
  apply chamar_levanta; [intros; apply baixar_imagens_regular
                        | apply baixar_imagens_termina].
Qed.

Lemma h_aguardar_spec s0 s cs fuel t :
  Inv s0 s cs [] ->
  (exists a s', h_aguardar env fuel t s = (Ok a, s') /\
                Inv s0 s' (cs ++ [C_aguardar t (Returns a)]) []) \/
  (exists s' tr evs, h_aguardar env fuel t s = (Diverge, s') /\
     trace s' = trace s0 ++ tr ++ (IO <$> evs) /\ Segs tr cs /\
     forallb pegada_espera evs = true).
Proof.
  apply chamar_espera.
  - intros. by apply aguardar_regular.
  - apply aguardar_nao_levanta.
  - intros r e. by destruct e.
Qed.

Lemma chamar_fst {A} (c : Outcome A -> Chamada) (m : M A) s :
  (chamar c m s).1 = (m s).1.
Proof. unfold chamar. by destruct (m s) as [[a|e|] s']. Qed.

(** the first call of a run is the download of the images, with the result
    the download gives on the state the run starts from *)
Definition primeira (id : string) (r : Res (string * Z)) (cs : list Chamada)
  : Prop :=
  match r with
  | Ok a => exists rest, cs = C_baixar_imagens id (Returns a) :: rest
  | Raise e => exists rest, cs = C_baixar_imagens id (Throws e) :: rest
  | Diverge => False
  end.

(** what a run leaves behind: finished calls along one of the paths, and,
    only while the run is still waiting for the job, events of the wait *)
Definition Final (id reg : string) (s0 : State) (x : Res bool * State) : Prop :=
  exists t cs pend,
    trace x.2 = trace s0 ++ t ++ (IO <$> pend) /\ Segs t cs /\
    Caminho id reg x.1 cs /\ (x.1 <> Diverge -> pend = []) /\
    forallb pegada_espera pend = true /\
    primeira id (baixar_imagens_projeto env id s0).1 cs.

Lemma Final_intro id reg s0 s r cs :
  Inv s0 s cs [] -> r <> Diverge -> Caminho id reg r cs ->
  primeira id (baixar_imagens_projeto env id s0).1 cs ->
  Final id reg s0 (r, s).
Proof.
  intros (t & E & HS & _) Hr HC HP. exists t, cs, []. by repeat split.
Qed.

Ltac passo_log :=
  lazymatch goal with
  | HI : Inv _ ?s _ _ |- context [log ?n ?m ?s] =>
      change (log n m s) with (Ok tt, registrar (IO (Log n m)) s);
      apply (Inv_log _ _ _ _ n m) in HI; cbv beta iota
  end.

Ltac passo_total spec :=
  lazymatch goal with
  | HI : Inv _ _ _ _ |- _ =>
      let r := fresh "b" in
      let s' := fresh "s" in
      let E := fresh "E" in
      let HI' := fresh "HI" in
      destruct spec as (r & s' & E & HI'); rewrite E; clear E HI;
      rename HI' into HI; cbv beta iota
  end.

Ltac passo_chamada :=
  lazymatch goal with
  | HI : Inv _ ?s _ _ |- context [h_atualizar ?e ?reg ?a ?b ?u ?s] =>
      passo_total (h_atualizar_spec _ _ _ _ reg a b u HI)
  | HI : Inv _ ?s _ _ |- context [h_webhook ?e ?id ?st ?u ?m ?s] =>
      passo_total (h_webhook_spec _ _ _ _ id st u m HI)
  | HI : Inv _ ?s _ _ |- context [h_limpar ?e ?id ?s] =>
      passo_total (h_limpar_spec _ _ _ _ id HI)
  | HI : Inv _ ?s _ _ |- context [h_processar_webodm ?e ?d ?id ?s] =>
      passo_total (h_processar_webodm_spec _ _ _ _ d id HI)
  | HI : Inv _ ?s _ _ |- context [h_baixar_resultados ?e ?t ?id ?s] =>
      passo_total (h_baixar_resultados_spec _ _ _ _ t id HI)
  | HI : Inv _ ?s _ _ |- context [h_gerar_metadados ?e ?id ?d ?p ?t ?n ?dd ?s] =>
      passo_total (h_gerar_metadados_spec _ _ _ _ id d p t n dd HI)
  | HI : Inv _ ?s _ _ |- context [h_enviar_ortomosaico ?e ?id ?p ?s] =>
      passo_total (h_enviar_ortomosaico_spec _ _ _ _ id p HI)
  | HI : Inv _ ?s _ _ |- context [h_enviar_metadados ?e ?id ?p ?s] =>
      passo_total (h_enviar_metadados_spec _ _ _ _ id p HI)
  end.

Ltac passo_ret :=
  lazymatch goal with
  | HI : Inv _ ?s _ _ |- context [ret tt ?s] =>
      change (ret tt s) with (Ok tt, s); cbv beta iota
  end.

Ltac passos := repeat first [ passo_log | passo_ret | passo_chamada ].

Ltac fim :=
  unfold ret; cbv beta; eapply Final_intro;
  [ eassumption | done | simpl
  | match goal with E0 : _ = _ |- primeira _ _ _ => rewrite E0; simpl; eauto end ].

Lemma processar_projeto_forma fuel id reg dados s :
  Final id reg s (processar_projeto env fuel id reg dados s).
Proof.
  pose proof (Inv_start s) as HI.
  unfold processar_projeto, try_except, bind.
  destruct (h_baixar_imagens_spec _ _ _ _ id HI)
    as [([d n] & s1 & E & HI1) | (e & s1 & E & HI1)];
    pose proof (f_equal fst E) as E0; unfold h_baixar_imagens in E0;
    rewrite chamar_fst in E0; simpl in E0;
    rewrite E; clear E HI; rename HI1 into HI; cbv beta iota.
  2:{ passos. fim. apply cam_inesperado. }
  destruct (Z.eqb_spec n 0) as [->|Hn].
  { passos. fim. apply cam_sem_imagens. }
  passos. destruct b as [task [|]]; [destruct task as [task|] |].
  2,3: passos; fim; by apply cam_falha_envio.
  passos.
  destruct (h_aguardar_spec _ _ _ fuel task HI)
    as [([status ok] & sw & E & HI2) | (sw & tr & evs & E & Etr & HS & F)];
    rewrite E; clear E HI; [rename HI2 into HI|]; cbv beta iota.
  2:{ exists tr, (ch_inicio id reg d n task b), evs. simpl. repeat split; try done.
      - by constructor.
      - rewrite E0. simpl. eauto. }
  destruct ok; cbn [negb].
  2:{ passos. fim. by apply cam_falha_processamento. }
  passos. destruct b0 as [p ok].
  destruct (ok && truthy p) eqn:Ep; [destruct p as [p|]|].
  2,3: passos; fim; apply cam_sem_resultado; [done | by rewrite Ep].
  apply andb_prop in Ep as [-> Ep].
  passos. rename b0 into cm.
  destruct (truthy cm) eqn:Ecm; cbn [negb]; passos.
  all: lazymatch goal with
       | |- context [h_limpar] =>
           match goal with
           | x : (option string * bool)%type |- _ => destruct x as [url [|]]
           end
       end; [destruct (truthy url) eqn:Eurl|]; cbn [negb orb].
  2,3,5,6: passos; fim; apply cam_falha_publicacao; [done | done |]; simpl;
    by rewrite ?Eurl.
  all: passos.
  all: match goal with
       | x : bool |- context [negb ?x] => destruct x
       end; cbn [negb]; passos; fim.
  all: lazymatch goal with
       | |- Caminho _ _ _ [_; _; _; _; _; _; _;
                           C_enviar_metadados ?i ?c (Returns ?bm); _; _; _] =>
           first [ eapply (cam_sucesso _ _ _ _ _ _ _ _ _ _ bm
                             [C_enviar_metadados i c (Returns bm)])
                 | eapply (cam_falha_commit _ _ _ _ _ _ _ _ _ _ bm
                             [C_enviar_metadados i c (Returns bm)]) ]
       | |- _ =>
           first [ eapply (cam_sucesso _ _ _ _ _ _ _ _ _ _ false [])
                 | eapply (cam_falha_commit _ _ _ _ _ _ _ _ _ _ false []) ]
       end; [done | done | done | unfold ch_meta; by rewrite Ecm].
Qed.

End Shape.

(** ** From the shape to the trace of a run *)

Lemma novos_app s s' t : trace s' = trace s ++ t -> novos s s' = t.
Proof. intros E. unfold novos. rewrite E. apply drop_app_length. Qed.

Lemma chamadas_app t1 t2 : chamadas (t1 ++ t2) = chamadas t1 ++ chamadas t2.
Proof.
  induction t1 as [|[e|c] t1 IH]; simpl; [done|done|]. by rewrite IH.
Qed.

Lemma chamadas_IO evs : chamadas (IO <$> evs) = [].
Proof. by induction evs. Qed.

Lemma eventos_IO evs : eventos (IO <$> evs) = evs.
Proof. induction evs as [|e evs IH]; [done|]. simpl. f_equal. exact IH. Qed.

Lemma chamadas_elem c t : c ∈ chamadas t <-> Call c ∈ t.
Proof.
  induction t as [|[e|c'] t IH]; simpl.
  - split; inversion 1.
  - rewrite IH. split; [by constructor|]. by inversion 1.
  - rewrite !elem_of_cons, IH. split; intros [H|H]; auto; left; congruence.
Qed.

Lemma Segs_chamadas t cs : Segs t cs -> chamadas t = cs.
Proof.
  induction 1 as [|t cs evs c _ IH F]; [done|].
  rewrite !chamadas_app, chamadas_IO, IH. done.
Qed.

Lemma seg_split evs c l e t2 :
  (IO <$> evs) ++ [Call c] = l ++ IO e :: t2 -> e ∈ evs /\ chamadas l = [].
Proof.
  revert l. induction evs as [|e' evs IH]; intros l E; simpl in E.
  - destruct l as [|x l]; [discriminate|]. injection E as _ E. by destruct l.
  - destruct l as [|x l]; simpl in E.
    + injection E as -> _. split; [by left|done].
    + injection E as <- E. destruct (IH l E) as [? ?]. split; [by right|done].
Qed.

(** an external event of a segmented trace lies before the finished call
    whose handler produced it, and after all calls finished earlier *)
Lemma Segs_evento t cs t1 e t2 :
  Segs t cs -> t = t1 ++ IO e :: t2 ->
  exists pre c suf, cs = pre ++ c :: suf /\ pegada c e = true /\ chamadas t1 = pre.
Proof.
  intros HS. revert t1 t2. induction HS as [|t cs evs c HS IH F]; intros t1 t2 E.
  { by destruct t1. }
  apply List.app_eq_app in E as [l [[E1 E2] | [E1 E2]]].
  - destruct l as [|i l]; simpl in E2.
    + rewrite app_nil_r in E1. subst t1.
      symmetry in E2. apply (seg_split evs c []) in E2 as [He _].
      exists cs, c, []. repeat split; [|by apply Segs_chamadas].
      rewrite forallb_forall in F. by apply F, list_elem_of_In.
    + injection E2 as <- E2.
      destruct (IH t1 l E1) as (pre & c' & suf & -> & Hp & Hc).
      exists pre, c', (suf ++ [c]). by rewrite <- app_assoc.
  - apply seg_split in E2 as [He Hl].
    exists cs, c, []. repeat split.
    + rewrite forallb_forall in F. by apply F, list_elem_of_In.
    + rewrite E1, chamadas_app, Hl, app_nil_r. by apply Segs_chamadas.
Qed.

(** every way of splitting a list around one of its elements *)
Fixpoint splits {A} (l : list A) : list (list A * A * list A) :=
  match l with
  | [] => []
  | x :: r => ([], x, r) :: List.map (fun '(p, c, s) => (x :: p, c, s)) (splits r)
  end.

Lemma splits_complete {A} (l pre : list A) c suf :
  l = pre ++ c :: suf -> In (pre, c, suf) (splits l).
Proof.
  revert l. induction pre as [|x pre IH]; intros l ->; simpl; [by left|].
  right. apply in_map_iff. exists (pre, c, suf). split; [done|]. by apply IH.
Qed.

Section Run.

Context (env : Env) (fuel : nat) (id reg : string)
        (dados : option (gmap string PyVal)) (s : State).

Let x := processar_projeto env fuel id reg dados s.

(** the calls of a run follow one of the paths *)
Lemma run_caminho : Caminho id reg x.1 (chamadas (novos s x.2)).
Proof.
  destruct (processar_projeto_forma env fuel id reg dados s)
    as (t & cs & pend & E & HS & HC & _).
  fold x in E, HC. rewrite (novos_app _ _ _ E), chamadas_app, chamadas_IO, app_nil_r.
  by rewrite (Segs_chamadas _ _ HS).
Qed.


(** an external event of a run was produced either by the handler of the
    next finished call, or by the wait that is still going on *)
Lemma run_evento t1 e t2 :
  novos s x.2 = t1 ++ IO e :: t2 ->
  (exists pre c suf, chamadas (novos s x.2) = pre ++ c :: suf /\
                     pegada c e = true /\ chamadas t1 = pre) \/
  (x.1 = Diverge /\ pegada_espera e = true).
Proof.
  destruct (processar_projeto_forma env fuel id reg dados s)
    as (t & cs & pend & E & HS & HC & Hp & Fp & _).
  fold x in E, HC, Hp. rewrite (novos_app _ _ _ E). intros E'.
  assert (chamadas (t ++ (IO <$> pend)) = cs) as ->.
  { by rewrite chamadas_app, chamadas_IO, app_nil_r, (Segs_chamadas _ _ HS). }
  assert (x.1 = Diverge \/ pend = []) as Hd.
  { destruct (x.1); [right; by apply Hp | inversion HC | by left]. }
  apply List.app_eq_app in E' as [l [[E1 E2] | [E1 E2]]].
  - destruct l as [|i l]; simpl in E2.
    + right. split.
      * destruct Hd as [Hd | ->]; [done | discriminate].
      * destruct pend as [|e' pend]; [done|]. simpl in E2. injection E2 as -> _.
        simpl in Fp. by apply andb_prop in Fp as [? _].
    + left. injection E2 as <- E2. by apply (Segs_evento _ _ _ _ _ HS E1).
  - right. assert (e ∈ pend) as He.
    { assert (IO e ∈ IO <$> pend) as Hin.
      { rewrite E2. apply elem_of_app. right. by left. }
      by apply list_elem_of_fmap in Hin as (e' & [= ->] & ?). }
    split.
    + destruct Hd as [Hd | ->]; [done | by apply elem_of_nil in He].
    + rewrite forallb_forall in Fp. by apply Fp, list_elem_of_In.
Qed.

End Run.

(** * Concrete worlds *)

(** [settings.ODM_QUALITY_PRESETS["padrao"]], the active preset by default *)
Definition preset_padrao : gmap string PyVal :=
  list_to_map
    [("feature-quality", PStr "high");
     ("min-num-features", PInt 10000);
     ("matcher-neighbors", PInt 8);
     ("matcher-distance", PInt 3);
     ("feature-type", PStr "sift");
     ("optimize-disk-space", PBool true);
     ("pc-quality", PStr "high");
     ("pc-filter", PFloat (MkFloat 5 2));
     ("depthmap-resolution", PInt 640);
     ("dem-resolution", PStr "2");
     ("orthophoto-cutline", PBool true);
     ("use-3dmesh", PBool true);
     ("cog", PBool true);
     ("auto-boundary", PBool true);
     ("dsm", PBool false);
     ("dtm", PBool false);
     ("skip-3dmodel", PBool true);
     ("skip-report", PBool true);
     ("pc-classify", PBool false)].

(** the process after start-up: nothing done yet, the preset as shipped, and
    the ledger record the route has just created *)
Definition estado_inicial : State :=
  MkState [] preset_padrao
    (<["r1" := <["id_projeto" := PStr "P1"]>
                (<["status_orto" := PStr "Processando"]> ∅)]> ∅).

(** the last request of a trace *)
Definition pedido (tr : list Item) : option IOEvent :=
  match last tr with
  | Some (IO e) => Some e
  | _ => None
  end.

(** the answer to a request: an exception when the request is one of the
    faults of the world, the given value otherwise *)
Definition responde {A} (falha : IOEvent -> bool) (a : A) (tr : list Item)
  : Outcome A :=
  match pedido tr with
  | Some e => if falha e then Throws "unavailable" else Returns a
  | None => Returns a
  end.

(** a world given by the listing of the project folder, the task status at
    each poll, and the requests that fail; every other request succeeds *)
Definition mundo (listing : list FileDesc) (info : list Item -> InfoRes)
  (falha : IOEvent -> bool) : Env :=
  {| WEBHOOK_URL := Some "https://hooks.example/orto";
     TEMP_DIR := "/app/temp";
     float_of_str := fun _ => None;
     o_create_client := responde falha tt;
     o_table_update := responde falha tt;
     o_table_select := responde falha None;
     o_makedirs := responde falha tt;
     o_storage_list := responde falha listing;
     o_storage_download := responde falha tt;
     o_open_write := responde falha tt;
     o_open_read := responde falha tt;
     o_storage_upload := responde falha tt;
     o_get_public_url := fun tr =>
       match pedido tr with
       | Some (GetPublicUrl b p) =>
           if falha (GetPublicUrl b p) then Throws "unavailable"
           else Returns ("https://store.example/" ++ b ++ "/" ++ p)%string
       | _ => Throws "unexpected"
       end;
     o_exists := fun _ => true;
     o_listdir := responde falha (name <$> listing);
     o_isfile := fun _ => true;
     o_new_node := responde falha tt;
     o_create_task := responde falha "task-1";
     o_task_info := info;
     o_download_assets := responde falha tt;
     o_copy2 := responde falha tt;
     o_now := fun _ => "2025-03-03T12:00:00-03:00";
     o_write_metadata := responde falha tt;
     o_remove := responde falha tt;
     o_http_post := responde falha 200;
     o_rmtree := responde falha tt |}.

Definition duas_imagens : list FileDesc :=
  [MkFile "DJI_0001.JPG"; MkFile "DJI_0002.jpg"; MkFile "notes.txt"].

Definition sem_imagens : list FileDesc := [MkFile "notes.txt"; MkFile "README"].

Definition concluida : list Item -> InfoRes := fun _ => InfoOk COMPLETED.
Definition rodando : list Item -> InfoRes := fun _ => InfoOk RUNNING.

(** faults *)
Definition nenhuma : IOEvent -> bool := fun _ => false.


(** the ledger refuses only the update that carries the job reference *)
Definition referencia_recusada (e : IOEvent) : bool :=
  match e with
  | TableUpdate _ data => bool_decide (is_Some (data !! "id_wl"))
  | _ => false
  end.

Definition metadados_nao_gravam (e : IOEvent) : bool :=
  match e with
  | WriteMetadata _ _ => true
  | _ => false
  end.

Definition metadados_nao_sobem (e : IOEvent) : bool :=
  match e with
  | StorageUpload _ _ (Some ctype) => String.eqb ctype "text/plain"
  | _ => false
  end.


(** * The ledger update *)

(** the value supplied for a column, if any *)
Definition campo (k : string) (id_wl status_orto url : option string)
  : option string :=
  if decide (k = "id_wl") then id_wl
  else if decide (k = "status_orto") then status_orto
  else if decide (k = "url_ortomosaico") then url
  else None.

Lemma update_data_lookup a b u k :
  update_data a b u !! k = PStr <$> campo k a b u.
Proof.
  unfold update_data, campo.
  destruct a, b, u; repeat (rewrite lookup_insert || rewrite lookup_empty);
    repeat case_decide; subst; simpl; congruence.
Qed.

Lemma update_data_empty a b u :
  update_data a b u = ∅ <-> a = None /\ b = None /\ u = None.
Proof.
  split.
  - intros E.
    pose proof (update_data_lookup a b u "id_wl") as H1.
    pose proof (update_data_lookup a b u "status_orto") as H2.
    pose proof (update_data_lookup a b u "url_ortomosaico") as H3.
    rewrite E, lookup_empty in H1, H2, H3. unfold campo in *. simpl in *.
    destruct a, b, u; done.
  - by intros (-> & -> & ->).
Qed.

(** the call returned [True] *)
Definition ok_true (r : Res bool) : bool :=
  match r with
  | Ok true => true
  | _ => false
  end.

Section Ledger.

Context (env : Env) (s : State) (id : string) (a b u : option string).

Let x := atualizar_registro_requisicao env id a b u s.

(** what a call does to the table: nothing, or, when it returns [True], the
    payload laid over the record with the given key *)
Lemma atualizar_requisicoes :
  requisicoes x.2 =
    if ok_true x.1
    then alter (fun rec => update_data a b u ∪ rec) id (requisicoes s)
    else requisicoes s.
Proof.
  subst x. unfold atualizar_registro_requisicao, table_update, try_except, bind,
    get_supabase_client, try_except, ext, log, emit, raise, ret, set_requisicoes.
  simpl. destruct (o_create_client env _); simpl; [|done].
  destruct (dict_truthy _); simpl; [|done].
  by destruct (o_table_update env _).
Qed.

(** the requests a call sends to the table *)
Lemma atualizar_eventos e :
  e ∈ eventos (novos s x.2) ->
  e = CreateClient \/ is_log e = true \/
  (e = TableUpdate id (update_data a b u) /\ update_data a b u <> ∅).
Proof.
  subst x.
  unfold atualizar_registro_requisicao, table_update, try_except, bind,
    get_supabase_client, try_except, ext, log, emit, raise, ret, set_requisicoes,
    novos, dict_truthy.
  simpl. destruct (o_create_client env _); simpl.
  - case_bool_decide as Hd; simpl.
    + rewrite <- ?app_assoc, ?drop_app_length; simpl.
      rewrite ?elem_of_cons, ?elem_of_nil. intros Hin.
      repeat destruct Hin as [Hin|Hin]; subst; auto.
    + destruct (o_table_update env _); simpl;
        rewrite <- ?app_assoc, ?drop_app_length; simpl;
        rewrite ?elem_of_cons, ?elem_of_nil; intros Hin;
        repeat destruct Hin as [Hin|Hin]; subst; auto.
  - rewrite <- ?app_assoc, ?drop_app_length; simpl.
    rewrite ?elem_of_cons, ?elem_of_nil. intros Hin.
    repeat destruct Hin as [Hin|Hin]; subst; auto.
Qed.

End Ledger.

(** C8. A ledger update sends exactly the supplied fields.  The payload
    holds a column if and only if a value was given for it, with that value;
    the only request sent to the table carries this payload for the given
    key; afterwards a column of a record holds the value supplied for it
    when the record is the targeted one and the call returned True, and
    holds what it held before in every other case; no record appears. *)
Theorem C8_partial_update (env : Env) (s : State) (id : string)
  (a b u : option string) :
  let x := atualizar_registro_requisicao env id a b u s in
  (forall k, update_data a b u !! k = PStr <$> campo k a b u) /\
  (forall e id' data, e ∈ eventos (novos s x.2) -> e = TableUpdate id' data ->
     id' = id /\ data = update_data a b u) /\
  (forall id' rec k, requisicoes s !! id' = Some rec ->
     exists rec', requisicoes x.2 !! id' = Some rec' /\
       rec' !! k = match campo k a b u with
                   | Some v => if bool_decide (id' = id) && ok_true x.1
                               then Some (PStr v) else rec !! k
                   | None => rec !! k
                   end) /\
  (forall id', requisicoes s !! id' = None -> requisicoes x.2 !! id' = None).
Proof.
  intros x. split; [apply update_data_lookup|]. split.
  { intros e id' data He ->.
    apply atualizar_eventos in He as [He | [He | [He _]]]; try done.
    by injection He as -> ->. }
  pose proof (atualizar_requisicoes env s id a b u) as Hreq. fold x in Hreq.
  rewrite Hreq. split.
  - intros id' rec k Hrec. destruct (ok_true x.1).
    + destruct (decide (id' = id)) as [->|Hne].
      * exists (update_data a b u ∪ rec). rewrite lookup_alter_eq, Hrec.
        split; [done|]. rewrite lookup_union, update_data_lookup.
        rewrite bool_decide_true by done. simpl.
        destruct (campo k a b u); simpl; by destruct (rec !! k).
      * exists rec. rewrite lookup_alter_ne by done. split; [done|].
        rewrite bool_decide_false by done. simpl. by destruct (campo k a b u).
    + exists rec. split; [done|]. rewrite andb_false_r. by destruct (campo k a b u).
  - intros id' Hnone. destruct (ok_true x.1); [|done].
    destruct (decide (id' = id)) as [->|Hne].
    + by rewrite lookup_alter_eq, Hnone.
    + by rewrite lookup_alter_ne.
Qed.

(** C10. A ledger update returns True as soon as a field is supplied and
    neither the creation of the client nor the request raises, whatever the
    table holds: also when no record has the given key, in which case the
    table is left as it was.  With no field supplied it returns False and
    sends no request to the table ([create_client] only builds the client
    object). *)
Theorem C10_update_reports_success (env : Env) (s : State) (id : string)
  (a b u : option string) :
  let x := atualizar_registro_requisicao env id a b u s in
  ((a <> None \/ b <> None \/ u <> None) ->
   o_create_client env (trace s ++ [IO CreateClient]) = Returns tt ->
   o_table_update env
     (trace s ++ [IO CreateClient; IO (TableUpdate id (update_data a b u))])
     = Returns tt ->
   x.1 = Ok true /\
   (requisicoes s !! id = None -> requisicoes x.2 = requisicoes s)) /\
  (a = None -> b = None -> u = None ->
   x.1 = Ok false /\
   forall e, e ∈ eventos (novos s x.2) -> e = CreateClient \/ is_log e = true).
Proof.
  intros x. split.
  - intros Hsup Hc Hu.
    assert (x.1 = Ok true) as Hx.
    { subst x.
      unfold atualizar_registro_requisicao, table_update, try_except, bind,
        get_supabase_client, try_except, ext, log, emit, raise, ret,
        set_requisicoes, dict_truthy.
      simpl. rewrite Hc. simpl. case_bool_decide as Hd; simpl.
      - apply update_data_empty in Hd as (-> & -> & ->). by destruct Hsup as [?|[?|?]].
      - rewrite <- app_assoc. simpl. by rewrite Hu. }
    split; [done|]. intros Hnone.
    pose proof (atualizar_requisicoes env s id a b u) as Hreq. fold x in Hreq.
    rewrite Hreq, Hx. simpl. apply map_eq. intros k.
    destruct (decide (k = id)) as [->|Hne].
    + by rewrite lookup_alter_eq, Hnone.
    + by rewrite lookup_alter_ne.
  - intros -> -> ->. split.
    + subst x.
      unfold atualizar_registro_requisicao, table_update, try_except, bind,
        get_supabase_client, try_except, ext, log, emit, raise, ret.
      simpl. by destruct (o_create_client env _).
    + intros e He. apply atualizar_eventos in He as [He | [He | [_ He]]]; auto.
Qed.

(** a record key the table does not hold, a status supplied, a store that
    answers: the update reports success *)
Lemma C10_witness :
  (atualizar_registro_requisicao (mundo [] concluida nenhuma)
     "no-such-id" None (Some "Sucesso") None estado_inicial).1 = Ok true /\
  (atualizar_registro_requisicao (mundo [] concluida nenhuma)
     "r1" None None None estado_inicial).1 = Ok false.
Proof.
  split.
  - apply (C10_update_reports_success (mundo [] concluida nenhuma)
             estado_inicial "no-such-id" None (Some "Sucesso") None).
    + right. left. discriminate.
    + reflexivity.
    + reflexivity.
  - apply (C10_update_reports_success (mundo [] concluida nenhuma)
             estado_inicial "r1" None None None); reflexivity.
Defined.

(** * Properties of a run *)

(** a call of the webhook with the given status *)
Definition e_webhook (status : string) (c : Chamada) : bool :=
  match c with
  | C_webhook _ st _ _ _ => String.eqb st status
  | _ => false
  end.

(** a call of the cleanup *)
Definition e_limpar (c : Chamada) : bool :=
  match c with
  | C_limpar _ _ => true
  | _ => false
  end.


Ltac abre_caminho :=
  unfold ch_erro, ch_inicio, ch_baixou, ch_publicou in *;
  repeat match goal with
         | H : _ = ch_meta _ ?cm _ |- _ =>
             unfold ch_meta in H; destruct (truthy cm) eqn:?; subst
         end.

Ltac casos_split H :=
  apply splits_complete in H; simpl in H;
  repeat destruct H as [H|H]; try done; simplify_eq; simpl in *; try done.

Section RunFacts.

Context (id reg : string).

(** on every path, a success webhook comes right after the success
    commit that returned True, and only on the path that ends well *)
Lemma caminho_sucesso_pos r cs pre c suf :
  Caminho id reg r cs -> cs = pre ++ c :: suf -> e_webhook "sucesso" c = true ->
  exists pre' url b,
    pre = pre' ++ [C_atualizar reg None (Some "Sucesso") url (Returns true)] /\
    c = C_webhook id "sucesso" url None (Returns b) /\
    truthy url = true /\ r = Ok true.
Proof.
  intros HC E Hw. destruct HC; abre_caminho; casos_split E.
  all: eexists _, url, _; split; [|done];
    match goal with
    | |- ?l = _ ++ [?c] =>
        let n := eval cbv in (Nat.pred (length l)) in
        change l with (take n l ++ [c]); reflexivity
    end.
Qed.

(** on every path, the success commit that returned True is followed by
    the success webhook *)
Lemma caminho_commit_webhook r cs url :
  Caminho id reg r cs ->
  C_atualizar reg None (Some "Sucesso") url (Returns true) ∈ cs ->
  exists b, C_webhook id "sucesso" url None (Returns b) ∈ cs.
Proof.
  intros HC Hin. apply list_elem_of_In in Hin.
  destruct HC; abre_caminho; simpl in Hin;
    repeat destruct Hin as [Hin|Hin]; try done; simplify_eq.
  all: eexists; apply list_elem_of_In; simpl; eauto 20.
Qed.

End RunFacts.

(** C1. In every run, a webhook with status "sucesso" is called if and only
    if the ledger update carrying the status "Sucesso" and the URL of the
    mosaic returned True; that update is the call right before it and
    carries the same URL; the POST of a success body is made only after
    that update has returned; and a run that does not end well calls no
    success webhook. *)
Theorem C1_success_notification_after_commit (env : Env) (fuel : nat)
  (id reg : string) (dados : option (gmap string PyVal)) (s : State) :
  let x := processar_projeto env fuel id reg dados s in
  let t := novos s x.2 in
  ((exists c, c ∈ chamadas t /\ e_webhook "sucesso" c = true) <->
   (exists url, C_atualizar reg None (Some "Sucesso") url (Returns true)
                  ∈ chamadas t)) /\
  (forall pre c suf, chamadas t = pre ++ c :: suf ->
     e_webhook "sucesso" c = true ->
     exists pre' url b,
       pre = pre' ++ [C_atualizar reg None (Some "Sucesso") url (Returns true)] /\
       c = C_webhook id "sucesso" url None (Returns b)) /\
  (forall t1 url body t2, t = t1 ++ IO (HttpPost url body) :: t2 ->
     p_status body = "sucesso" ->
     exists u, Call (C_atualizar reg None (Some "Sucesso") u (Returns true)) ∈ t1) /\
  (x.1 <> Ok true ->
     forall c, c ∈ chamadas t -> e_webhook "sucesso" c = false).
Proof.
  intros x t. pose proof (run_caminho env fuel id reg dados s) as HC.
  fold x t in HC. repeat split.
  - intros (c & Hin & Hw). apply list_elem_of_split in Hin as (pre & suf & E).
    destruct (caminho_sucesso_pos id reg _ _ _ _ _ HC E Hw)
      as (pre' & url & b & -> & _). exists url. rewrite E.
    rewrite !elem_of_app, elem_of_cons. auto.
  - intros (url & Hin).
    destruct (caminho_commit_webhook id reg _ _ _ HC Hin) as (b & Hb).
    eexists. split; [exact Hb|]. done.
  - intros pre c suf E Hw.
    destruct (caminho_sucesso_pos id reg _ _ _ _ _ HC E Hw)
      as (pre' & url & b & -> & -> & _). eauto.
  - intros t1 url body t2 E Hst.
    destruct (run_evento env fuel id reg dados s t1 _ t2 E)
      as [(pre & c & suf & Ecs & Hp & Hpre) | [_ Hp]]; [|done].
    fold x t in Ecs.
    assert (e_webhook "sucesso" c = true) as Hw.
    { destruct c; simpl in Hp; try done. simpl.
      apply String.eqb_eq in Hp. by rewrite <- Hp, Hst. }
    destruct (caminho_sucesso_pos id reg _ _ _ _ _ HC Ecs Hw)
      as (pre' & u & b & -> & _). exists u.
    apply chamadas_elem. rewrite Hpre, elem_of_app, elem_of_cons. auto.
  - intros Hx c Hin. destruct (e_webhook "sucesso" c) eqn:Hw; [|done].
    apply list_elem_of_split in Hin as (pre & suf & E).
    destruct (caminho_sucesso_pos id reg _ _ _ _ _ HC E Hw)
      as (_ & _ & _ & _ & _ & _ & Hr). done.
Qed.

Lemma eventos_elem e t : e ∈ eventos t <-> IO e ∈ t.
Proof.
  induction t as [|[e'|c] t IH]; simpl.
  - split; inversion 1.
  - rewrite !elem_of_cons, IH. split; intros [H|H]; auto; left; congruence.
  - rewrite IH. split; [by constructor|]. by inversion 1.
Qed.

Ltac casos_elem H :=
  apply list_elem_of_In in H; simpl in H;
  repeat destruct H as [H|H]; try done; simplify_eq; simpl in *; try done.

(** the last element of a list given explicitly *)
Ltac fecha_ultimo :=
  match goal with
  | |- ?l = ?p ++ [_] => unify p (removelast l); simpl; reflexivity
  end.

(** ** Cleanup *)

Section Cleanup.

Context (id reg : string).

Lemma caminho_sem_imagens r cs d :
  Caminho id reg r cs -> C_baixar_imagens id (Returns (d, 0)) ∈ cs ->
  r = Ok false /\ forall c, c ∈ cs -> e_limpar c = false.
Proof.
  intros HC Hin. destruct HC; abre_caminho; casos_elem Hin.
  split; [done|]. intros c Hc. by casos_elem Hc.
Qed.

Lemma caminho_limpa_uma_vez r cs :
  Caminho id reg r cs -> r <> Diverge ->
  (forall d, C_baixar_imagens id (Returns (d, 0)) ∉ cs) ->
  exists pre b, cs = pre ++ [C_limpar id (Returns b)] /\
                forall c, c ∈ pre -> e_limpar c = false.
Proof.
  intros HC Hr Hz. destruct HC; abre_caminho; try done.
  2:{ destruct (Hz d). by left. }
  all: eexists _, _; split; [fecha_ultimo|];
    intros c Hc; by casos_elem Hc.
Qed.

End Cleanup.

(** C2. Where the code stands on cleanup: a run whose download step returns
    zero images ends as a failure without any call of
    [limpar_arquivos_temporarios] and without any removal of a directory;
    every other run that ends calls the cleanup exactly once, as its last
    call. *)
Theorem C2_cleanup_skipped_on_no_input (env : Env) (fuel : nat)
  (id reg : string) (dados : option (gmap string PyVal)) (s : State) :
  let x := processar_projeto env fuel id reg dados s in
  let t := novos s x.2 in
  ((exists d, C_baixar_imagens id (Returns (d, 0)) ∈ chamadas t) ->
   x.1 = Ok false /\
   (forall c, c ∈ chamadas t -> e_limpar c = false) /\
   (forall p, Rmtree p ∉ eventos t)) /\
  (x.1 <> Diverge ->
   (forall d, C_baixar_imagens id (Returns (d, 0)) ∉ chamadas t) ->
   exists pre b, chamadas t = pre ++ [C_limpar id (Returns b)] /\
                 forall c, c ∈ pre -> e_limpar c = false).
Proof.
  intros x t. pose proof (run_caminho env fuel id reg dados s) as HC.
  fold x t in HC. split.
  - intros (d & Hd).
    destruct (caminho_sem_imagens id reg _ _ _ HC Hd) as [Hr Hl].
    repeat split; [done|done|].
    intros p Hp. apply eventos_elem, list_elem_of_split in Hp as (t1 & t2 & E).
    destruct (run_evento env fuel id reg dados s t1 _ t2 E)
      as [(pre & c & suf & Ecs & Hpg & _) | [Hdv _]].
    + fold x t in Ecs. assert (c ∈ chamadas t) as Hc.
      { rewrite Ecs, elem_of_app, elem_of_cons. auto. }
      apply Hl in Hc. by destruct c.
    + fold x in Hdv. congruence.
  - intros Hr Hz. by apply (caminho_limpa_uma_vez id reg _ _ HC).
Qed.

(** a project folder that holds no image: the run fails and the scratch
    directory it created is never removed *)
Lemma C2_witness :
  let x := processar_projeto (mundo sem_imagens concluida nenhuma) 0
             "P1" "r1" None estado_inicial in
  x.1 = Ok false /\
  (forall c, c ∈ chamadas (novos estado_inicial x.2) -> e_limpar c = false) /\
  (forall p, Rmtree p ∉ eventos (novos estado_inicial x.2)).
Proof.
  apply (C2_cleanup_skipped_on_no_input (mundo sem_imagens concluida nenhuma) 0
           "P1" "r1" None estado_inicial).
  exists "/app/temp/P1". apply list_elem_of_In. vm_compute. by left.
Defined.

(** ** Failure reporting *)






Section Failure.

Context (id reg : string).





End Failure.



(** ** No input images *)

Lemma valid_files_lista sup response s :
  valid_files (PList sup) response s =
    (Ok (List.filter (fun f => str_in (lower (splitext (name f)).2) sup) response), s).
Proof.
  induction response as [|f l IH]; [done|].
  simpl. unfold bind, py_in, ret. simpl. rewrite IH. simpl.
  by destruct (str_in _ sup).
Qed.

Section NoInput.

Context (env : Env) (id : string) (s : State)
        (listing : list FileDesc) (sup : list string).

Let dir := path_join (TEMP_DIR env) id.

Hypothesis Hclient : o_create_client env (trace s ++ [IO CreateClient]) = Returns tt.
Hypothesis Hdir :
  o_makedirs env (trace s ++ [IO CreateClient; IO (Makedirs dir)]) = Returns tt.
Hypothesis Hlist :
  o_storage_list env
    (trace s ++ [IO CreateClient; IO (Makedirs dir); IO (StorageList "uploads" id)])
    = Returns listing.
Hypothesis Hsup :
  default (PList default_extensions)
          (ortomosaico_preset s !! "SUPPORTED_IMAGE_EXTENSIONS") = PList sup.
Hypothesis Hzero :
  forall f, f ∈ listing -> str_in (lower (splitext (name f)).2) sup = false.


End NoInput.



(** ** Fatal and tolerated failures *)

(** the results on which [processar_projeto] gives up: the tests of lines
    108, 117, 130, 140, 160 and 176 of main.py, and an exception *)
Definition falha_fatal (c : Chamada) : bool :=
  match c with
  | C_baixar_imagens _ (Throws _) => true
  | C_baixar_imagens _ (Returns (_, n)) => n =? 0
  | C_processar_webodm _ _ (Returns (task, success)) =>
      negb success || negb (bool_decide (is_Some task))
  | C_aguardar _ (Returns (_, success)) => negb success
  | C_baixar_resultados _ _ (Returns (caminho, success)) =>
      negb success || negb (truthy caminho)
  | C_enviar_ortomosaico _ _ (Returns (url, success)) =>
      negb success || negb (truthy url)
  | C_atualizar _ None (Some status) (Some _) (Returns success_db) =>
      String.eqb status "Sucesso" && negb success_db
  | _ => false
  end.

(** the results it only logs: the job reference not persisted, no metadata
    file rendered, the metadata file not published *)
Definition falha_tolerada (c : Chamada) : bool :=
  match c with
  | C_atualizar _ (Some _) None None (Returns ok) => negb ok
  | C_gerar_metadados _ _ _ _ _ (Returns caminho) => negb (truthy caminho)
  | C_enviar_metadados _ _ (Returns ok) => negb ok
  | _ => false
  end.

Ltac calc_novos :=
  unfold novos; simpl; rewrite <- ?app_assoc; rewrite ?drop_app_length; simpl.

Section Tolerated.

Context (env : Env) (s : State).

Lemma atualizar_false_logs id a b u :
  let y := atualizar_registro_requisicao env id a b u s in
  y.1 = Ok false -> exists n m, Log n m ∈ eventos (novos s y.2).
Proof.
  unfold atualizar_registro_requisicao, table_update, try_except, bind,
    get_supabase_client, try_except, ext, log, emit, raise, ret, set_requisicoes.
  simpl. destruct (o_create_client env _); simpl.
  - destruct (dict_truthy _); simpl.
    + destruct (o_table_update env _); simpl; [done|]. intros _. calc_novos.
      eexists _, _. apply list_elem_of_In. simpl. eauto.
    + intros _. calc_novos. eexists _, _. apply list_elem_of_In. simpl. eauto.
  - intros _. calc_novos. eexists _, _. apply list_elem_of_In. simpl. eauto.
Qed.

Lemma gerar_metadados_none_logs id d p t opc n dados :
  let y := gerar_metadados env id d p t opc n dados s in
  y.1 = Ok None -> exists m, Log ERROR m ∈ eventos (novos s y.2).
Proof.
  unfold gerar_metadados, task_info, try_except, bind, ask, ext, log, emit,
    raise, ret.
  simpl. destruct (o_task_info env _); simpl.
  - destruct (o_write_metadata env _); simpl; [done|]. intros _. calc_novos.
    eexists. apply list_elem_of_In. simpl. eauto.
  - intros _. calc_novos. eexists. apply list_elem_of_In. simpl. eauto.
  - intros _. calc_novos. eexists. apply list_elem_of_In. simpl. eauto.
Qed.

Lemma enviar_metadados_false_logs id p :
  let y := enviar_metadados_para_bucket env id p s in
  y.1 = Ok false -> exists m, Log ERROR m ∈ eventos (novos s y.2).
Proof.
  unfold enviar_metadados_para_bucket, try_except, bind,
    get_supabase_client, try_except, ask, ext, log, emit, raise, ret.
  simpl. destruct (o_create_client env _); simpl.
  - destruct (o_exists env _); simpl.
    + destruct (o_open_read env _); simpl.
      * destruct (o_storage_upload env _); simpl; [done|]. intros _. calc_novos.
        eexists. apply list_elem_of_In. simpl. eauto 10.
      * intros _. calc_novos. eexists. apply list_elem_of_In. simpl. eauto 10.
    + intros _. calc_novos. eexists. apply list_elem_of_In. simpl. eauto 10.
  - intros _. calc_novos. eexists. apply list_elem_of_In. simpl. eauto 10.
Qed.

End Tolerated.

Section Fatal.

Context (id reg : string).

Local Ltac fatal c :=
  exists c; split;
  [ unfold ch_erro, ch_inicio, ch_baixou, ch_publicou;
    repeat (rewrite ?elem_of_app, ?elem_of_cons); eauto 20
  | simpl ].

Lemma caminho_fatal r cs :
  Caminho id reg r cs ->
  (r = Ok false <-> exists c, c ∈ cs /\ falha_fatal c = true).
Proof.
  intros HC. split.
  - intros Hr. destruct HC; try done.
    + fatal (C_baixar_imagens id (Throws e)). done.
    + fatal (C_baixar_imagens id (Returns (d, 0))). done.
    + fatal (C_processar_webodm d id (Returns (task, ok))).
      by destruct ok, task.
    + fatal (C_aguardar t (Returns (status, false))). done.
    + fatal (C_baixar_resultados t id (Returns (p, ok))).
      destruct ok; [|done]. destruct (truthy p) eqn:Ep; [|done].
      simpl in *. subst. done.
    + fatal (C_enviar_ortomosaico id p (Returns (url, ok))). done.
    + fatal (C_atualizar reg None (Some "Sucesso") url (Returns false)).
      by destruct url.
  - intros (c & Hin & Hf). destruct HC; abre_caminho; try done.
    all: apply list_elem_of_In in Hin; simpl in Hin;
      repeat destruct Hin as [Hin|Hin]; try done; subst c; simpl in Hf;
      repeat match goal with
             | H : ?n <> 0 |- _ => apply Z.eqb_neq in H; rewrite H in *
             | H : truthy (Some _) = true |- _ => simpl in H; rewrite H in *
             | H : truthy ?u = true |- _ => rewrite H in *
             end; try done;
      try (destruct url; done).
Qed.

Lemma caminho_sucesso r cs :
  Caminho id reg r cs -> r = Ok true ->
  exists p url b,
    C_enviar_ortomosaico id p (Returns (url, true)) ∈ cs /\
    C_atualizar reg None (Some "Sucesso") url (Returns true) ∈ cs /\
    C_webhook id "sucesso" url None (Returns b) ∈ cs.
Proof.
  intros HC Hr. destruct HC; abre_caminho; try done.
  all: eexists _, _, _; repeat split; apply list_elem_of_In; simpl; eauto 20.
Qed.

End Fatal.

(** C6. A run aborts if and only if one of its calls ends in a fatal
    failure; the result of persisting the job reference, of rendering the
    metadata and of publishing the metadata is none of them, so a run where
    only these fail publishes the mosaic, commits the success status and
    sends the success webhook.  Each of the three handlers writes a log line
    when it fails. *)
Theorem C6_tolerated_failures (env : Env) (fuel : nat) (id reg : string)
  (dados : option (gmap string PyVal)) (s : State) :
  let x := processar_projeto env fuel id reg dados s in
  let cs := chamadas (novos s x.2) in
  (x.1 = Ok false <-> exists c, c ∈ cs /\ falha_fatal c = true) /\
  (forall c, falha_tolerada c = true -> falha_fatal c = false) /\
  (x.1 = Ok true ->
     exists p url b,
       C_enviar_ortomosaico id p (Returns (url, true)) ∈ cs /\
       C_atualizar reg None (Some "Sucesso") url (Returns true) ∈ cs /\
       C_webhook id "sucesso" url None (Returns b) ∈ cs) /\
  (forall s' u,
     let y := atualizar_registro_requisicao env reg (Some u) None None s' in
     y.1 = Ok false -> exists n m, Log n m ∈ eventos (novos s' y.2)) /\
  (forall s' d p t opc n,
     let y := gerar_metadados env id d p t opc n dados s' in
     y.1 = Ok None -> exists m, Log ERROR m ∈ eventos (novos s' y.2)) /\
  (forall s' p,
     let y := enviar_metadados_para_bucket env id p s' in
     y.1 = Ok false -> exists m, Log ERROR m ∈ eventos (novos s' y.2)).
Proof.
  intros x cs. pose proof (run_caminho env fuel id reg dados s) as HC.
  fold x cs in HC. split; [by apply (caminho_fatal id reg)|].
  split.
  { intros c Hc. destruct c as [| ? [?|] [?|] [?|] [[|]|] | | | | | | | |];
      try done; simpl in *; by destruct r as [[|]|]. }
  split; [by apply (caminho_sucesso id reg)|].
  split; [intros; by apply atualizar_false_logs|].
  split; [intros; by apply gerar_metadados_none_logs|].
  intros; by apply enviar_metadados_false_logs.
Qed.

(** a run of project P1 in a world with the given faults *)
Definition corrida (falha : IOEvent -> bool) : Res bool * State :=
  processar_projeto (mundo duas_imagens concluida falha) 1 "P1" "r1" None
                    estado_inicial.

(** each tolerated failure alone: the run still ends well *)
Lemma C6_witness :
  Forall (fun falha =>
            let x := corrida falha in
            let cs := chamadas (novos estado_inicial x.2) in
            existsb falha_tolerada cs = true /\
            exists p url b,
              C_enviar_ortomosaico "P1" p (Returns (url, true)) ∈ cs /\
              C_atualizar "r1" None (Some "Sucesso") url (Returns true) ∈ cs /\
              C_webhook "P1" "sucesso" url None (Returns b) ∈ cs)
         [referencia_recusada; metadados_nao_gravam; metadados_nao_sobem].
Proof.
  repeat constructor.
  all: try (vm_compute; reflexivity).
  all: apply (C6_tolerated_failures _ 1 "P1" "r1" None estado_inicial);
    vm_compute; reflexivity.
Defined.

(** ** The completion wait *)

Section Wait.

Context (env : Env) (t : Task).

(** one turn of the loop on a task that is still running: a status check,
    then the pause *)
Definition volta : list IOEvent := [TaskInfo (uuid t); Sleep 30].

Lemma wait_running fuel mr rt retry s :
  (forall tr, o_task_info env tr = InfoOk RUNNING) ->
  let y := wait_for_completion env fuel t 30 mr rt retry s in
  y.1 = Diverge /\
  trace y.2 = trace s ++ (IO <$> concat (replicate fuel volta)).
Proof.
  intros Hrun. revert retry s. induction fuel as [|fuel IH]; intros retry s.
  - simpl. by rewrite app_nil_r.
  - cbn [wait_for_completion]. unfold bind, ask, emit. cbn [fst snd].
    rewrite Hrun. cbn [terminal].
    pose proof (IH 0 (registrar (IO (Sleep 30))
                        (registrar (IO (TaskInfo (uuid t))) s))) as [E1 E2].
    cbv zeta in E1, E2.
    destruct (wait_for_completion env fuel t 30 mr rt 0 _) as [[a|e|] s'];
      try done.
    split; [done|]. simpl in *. rewrite E2. by rewrite <- !app_assoc.
Qed.


(** a task found canceled is reported with the status text of a failed one *)
Lemma aguardar_cancelada fuel s :
  (forall tr, o_task_info env tr = InfoOk CANCELED) ->
  (aguardar_processamento env (S fuel) t s).1 = Ok ("FAILED", false).
Proof.
  intros Hc. unfold aguardar_processamento, try_except, task_info.
  cbn [wait_for_completion]. unfold bind, ask, ret, raise. cbn [fst snd].
  rewrite !Hc. cbn. by rewrite ?Hc.
Qed.

End Wait.

(** C5, where the code stands. [aguardar_processamento] passes the interval
    30 and [max_retries = 64800 // 30] to the library loop, which counts
    failed connections with it, not status checks: on a task that answers
    RUNNING at every check the wait is still polling after any number of
    turns, each turn being one check and one pause of 30 seconds, so no
    timeout outcome is ever produced. *)
Theorem C5_wait_never_times_out (env : Env) (t : Task) (fuel : nat) (s : State) :
  (forall tr, o_task_info env tr = InfoOk RUNNING) ->
  let y := aguardar_processamento env fuel t s in
  y.1 = Diverge /\
  eventos (novos s y.2) = concat (replicate fuel [TaskInfo (uuid t); Sleep 30]).
Proof.
  intros Hrun y. subst y.
  pose proof (wait_running env t fuel (64800 / 30) 5 0 s Hrun) as [E1 E2].
  cbv zeta in E1, E2.
  unfold aguardar_processamento, try_except, bind. cbv zeta.
  destruct (wait_for_completion env fuel t 30 (64800 / 30) 5 0 s) as [[a|e|] s'];
    try done.
  cbn [fst snd] in *. split; [done|]. rewrite (novos_app _ _ _ E2).
  apply eventos_IO.
Qed.

(** after 2161 turns, 64830 seconds of pauses, the wait is still going on *)
Lemma C5_witness :
  let y := aguardar_processamento (mundo duas_imagens rodando nenhuma) 2161
             (MkTask "task-1") estado_inicial in
  y.1 = Diverge /\
  eventos (novos estado_inicial y.2) =
    concat (replicate 2161 [TaskInfo "task-1"; Sleep 30]).
Proof.
  apply (C5_wait_never_times_out (mundo duas_imagens rodando nenhuma)
           (MkTask "task-1") 2161 estado_inicial).
  reflexivity.
Defined.

(** ** Publishing the mosaic *)

Ltac casos_oraculo env :=
  repeat (match goal with
          | |- context [match ?o env ?tr with _ => _ end] =>
              destruct (o env tr) eqn:?
          | |- context [if ?o env ?tr then _ else _] =>
              destruct (o env tr) eqn:?
          | |- context [negb (?o env ?tr)] =>
              destruct (o env tr) eqn:?
          end; simpl).

Ltac casos_in :=
  repeat match goal with
         | H : _ ∈ _ |- _ => apply list_elem_of_In in H; simpl in H
         | H : _ \/ _ |- _ => destruct H as [H|H]
         | H : False |- _ => destruct H
         | H : @eq IOEvent _ _ |- _ =>
             first [discriminate H | injection H; clear H; intros]
         end; subst.




(** ** The shared preset *)

(** [m] leaves [config.ortomosaico_preset] as it found it *)
Definition mantem {A} (m : M A) : Prop :=
  forall s, ortomosaico_preset (m s).2 = ortomosaico_preset s.

Create HintDb mantem.

Section Mantem.

Context {A B : Type}.

Lemma mantem_bind (m : M A) (k : A -> M B) :
  mantem m -> (forall a, mantem (k a)) -> mantem (bind m k).
Proof.
  intros Hm Hk s. unfold bind. specialize (Hm s).
  destruct (m s) as [[a|e|] s1]; simpl in *; [|done|done].
  by rewrite Hk.
Qed.

Lemma mantem_try (m : M A) (h : string -> M A) :
  mantem m -> (forall e, mantem (h e)) -> mantem (try_except m h).
Proof.
  intros Hm Hh s. unfold try_except. specialize (Hm s).
  destruct (m s) as [[a|e|] s1]; simpl in *; [done| |done].
  by rewrite Hh.
Qed.

Lemma mantem_chamar (c : Outcome A -> Chamada) (m : M A) :
  mantem m -> mantem (chamar c m).
Proof.
  intros Hm s. unfold chamar. specialize (Hm s).
  by destruct (m s) as [[a|e|] s1].
Qed.

Lemma mantem_ret (a : A) : mantem (ret a).
Proof. done. Qed.

Lemma mantem_raise e : mantem (raise e : M A).
Proof. done. Qed.

Lemma mantem_diverge : mantem (diverge : M A).
Proof. done. Qed.

Lemma mantem_ext e (o : list Item -> Outcome A) : mantem (ext e o).
Proof. intros s. unfold ext. by destruct (o _). Qed.

Lemma mantem_ask e (o : list Item -> A) : mantem (ask e o).
Proof. done. Qed.

End Mantem.

Lemma mantem_emit e : mantem (emit e).
Proof. done. Qed.

Lemma mantem_log n m : mantem (log n m).
Proof. done. Qed.

Lemma mantem_get_preset : mantem get_preset.
Proof. done. Qed.

Lemma mantem_set_requisicoes f : mantem (set_requisicoes f).
Proof. done. Qed.

#[global] Hint Resolve mantem_ret mantem_raise mantem_diverge mantem_ext
  mantem_ask mantem_emit mantem_log mantem_get_preset mantem_set_requisicoes
  : mantem.

Ltac mantem_step :=
  lazymatch goal with
  | |- mantem (bind _ _) => apply mantem_bind; [| intros ?]
  | |- mantem (try_except _ _) => apply mantem_try; [| intros ?]
  | |- mantem (chamar _ _) => apply mantem_chamar
  | |- mantem (if ?b then _ else _) => destruct b
  | |- mantem (match ?x with _ => _ end) => destruct x
  end.

Ltac mantem_solve := repeat first [ solve [eauto with mantem] | mantem_step ].

Section MantemHandlers.

Context (env : Env).

Lemma mantem_get_project_temp_dir id : mantem (get_project_temp_dir env id).
Proof. unfold get_project_temp_dir. mantem_solve. Qed.

Lemma mantem_get_supabase_client : mantem (get_supabase_client env).
Proof. unfold get_supabase_client. mantem_solve. Qed.

Lemma mantem_task_info t : mantem (task_info env t).
Proof. unfold task_info. mantem_solve. Qed.

Hint Resolve mantem_get_project_temp_dir mantem_get_supabase_client
  mantem_task_info : mantem.

Lemma mantem_atualizar id a b u :
  mantem (atualizar_registro_requisicao env id a b u).
Proof. unfold atualizar_registro_requisicao, table_update. mantem_solve. Qed.

Lemma mantem_valid_files sup l : mantem (valid_files sup l).
Proof.
  induction l as [|f l IH]; simpl; [mantem_solve|]. unfold py_in. mantem_solve.
Qed.

Lemma mantem_baixar_cada id dir l n : mantem (baixar_cada env id dir l n).
Proof.
  revert n. induction l as [|f l IH]; intros n; simpl; [mantem_solve|].
  apply mantem_bind; [mantem_solve | intros; apply IH].
Qed.

Hint Resolve mantem_valid_files mantem_baixar_cada : mantem.

Lemma mantem_baixar_imagens id : mantem (baixar_imagens_projeto env id).
Proof. unfold baixar_imagens_projeto. mantem_solve. Qed.

Lemma mantem_enviar_ortomosaico id p :
  mantem (enviar_ortomosaico_para_bucket env id p).
Proof. unfold enviar_ortomosaico_para_bucket. mantem_solve. Qed.

Lemma mantem_enviar_metadados id p :
  mantem (enviar_metadados_para_bucket env id p).
Proof. unfold enviar_metadados_para_bucket. mantem_solve. Qed.

Lemma mantem_wait fuel t i mr rt retry :
  mantem (wait_for_completion env fuel t i mr rt retry).
Proof.
  revert retry. induction fuel as [|fuel IH]; intros retry; simpl; [mantem_solve|].
  apply mantem_bind; [mantem_solve|]. intros [st|e|e]; [| |mantem_solve].
  - destruct (terminal st); [destruct st; mantem_solve|].
    apply mantem_bind; [mantem_solve | intros; apply IH].
  - destruct (retry <? mr); [|mantem_solve].
    apply mantem_bind; [mantem_solve | intros; apply IH].
Qed.

Hint Resolve mantem_wait : mantem.

Lemma mantem_aguardar fuel t : mantem (aguardar_processamento env fuel t).
Proof. unfold aguardar_processamento. mantem_solve. Qed.

Lemma mantem_baixar_resultados t id : mantem (baixar_resultados env t id).
Proof. unfold baixar_resultados. mantem_solve. Qed.

Lemma mantem_gerar_metadados id d p t opc n dados :
  mantem (gerar_metadados env id d p t opc n dados).
Proof. unfold gerar_metadados. mantem_solve. Qed.

Lemma mantem_enviar_webhook id st u m : mantem (enviar_webhook env id st u m).
Proof. unfold enviar_webhook. mantem_solve. Qed.

Lemma mantem_limpar id : mantem (limpar_arquivos_temporarios env id).
Proof. unfold limpar_arquivos_temporarios. mantem_solve. Qed.

End MantemHandlers.

#[global] Hint Resolve mantem_atualizar mantem_baixar_imagens
  mantem_enviar_ortomosaico mantem_enviar_metadados mantem_aguardar
  mantem_baixar_resultados mantem_gerar_metadados mantem_enviar_webhook
  mantem_limpar : mantem.

(** from [s] to [s'] the preset is kept and no task is created *)
Definition R1 (s s' : State) : Prop :=
  ortomosaico_preset s' = ortomosaico_preset s /\
  exists t, trace s' = trace s ++ t /\
            forall imgs o, CreateTask imgs o ∉ eventos t.

Lemma eventos_app t1 t2 : eventos (t1 ++ t2) = eventos t1 ++ eventos t2.
Proof.
  induction t1 as [|[e|c] t1 IH]; simpl; [done| |done]. by rewrite IH.
Qed.

Lemma R1_refl s : R1 s s.
Proof.
  split; [done|]. exists []. rewrite app_nil_r. split; [done|].
  intros ? ? H. by apply elem_of_nil in H.
Qed.

Lemma R1_trans s1 s2 s3 : R1 s1 s2 -> R1 s2 s3 -> R1 s1 s3.
Proof.
  intros [P1 (t1 & E1 & N1)] [P2 (t2 & E2 & N2)]. split; [congruence|].
  exists (t1 ++ t2). split; [by rewrite E2, E1, app_assoc|].
  intros imgs o. rewrite eventos_app, elem_of_app. intros [H|H].
  - by apply (N1 imgs o).
  - by apply (N2 imgs o).
Qed.

Lemma R1_registrar s i :
  (forall imgs o, i <> IO (CreateTask imgs o)) -> R1 s (registrar i s).
Proof.
  intros Hi. split; [done|]. exists [i]. split; [done|].
  intros imgs o H. destruct i as [e|c]; simpl in H.
  - apply list_elem_of_singleton in H. subst. by destruct (Hi imgs o).
  - by apply elem_of_nil in H.
Qed.

(** [m] keeps the preset and creates no task *)
Definition quieto {A} (m : M A) : Prop := forall s, R1 s (m s).2.

Create HintDb quieto.

Section Quieto.

Context {A B : Type}.

Lemma quieto_bind (m : M A) (k : A -> M B) :
  quieto m -> (forall a, quieto (k a)) -> quieto (bind m k).
Proof.
  intros Hm Hk s. unfold bind. specialize (Hm s).
  destruct (m s) as [[a|e|] s1]; simpl in *; [|done|done].
  eapply R1_trans; [exact Hm | apply Hk].
Qed.

Lemma quieto_try (m : M A) (h : string -> M A) :
  quieto m -> (forall e, quieto (h e)) -> quieto (try_except m h).
Proof.
  intros Hm Hh s. unfold try_except. specialize (Hm s).
  destruct (m s) as [[a|e|] s1]; simpl in *; [done| |done].
  eapply R1_trans; [exact Hm | apply Hh].
Qed.

Lemma quieto_ret (a : A) : quieto (ret a).
Proof. intros s. apply R1_refl. Qed.

Lemma quieto_chamar (c : Outcome A -> Chamada) (m : M A) :
  (forall r, regular (pegada (c r)) m) ->
  (forall r imgs o, pegada (c r) (CreateTask imgs o) = false) ->
  mantem m -> quieto (chamar c m).
Proof.
  intros Hreg Hp Hm s. unfold chamar.
  assert (R1 s (m s).2) as HR.
  { split; [apply Hm|]. destruct (Hreg (Throws EmptyString) s) as (evs & E & F).
    exists (IO <$> evs). split; [done|]. intros imgs o. rewrite eventos_IO.
    intros Hin. rewrite forallb_forall in F.
    apply list_elem_of_In, F in Hin. by rewrite Hp in Hin. }
  destruct (m s) as [[a|e|] s1]; simpl in *; [| |done].
  - eapply R1_trans; [exact HR|]. by apply R1_registrar.
  - eapply R1_trans; [exact HR|]. by apply R1_registrar.
Qed.

End Quieto.

Lemma quieto_log n m : quieto (log n m).
Proof. intros s. by apply R1_registrar. Qed.

#[global] Hint Resolve quieto_ret quieto_log : quieto.

Section Corrida.

Context (env : Env) (id : string).

Lemma quieto_h_baixar_imagens : quieto (h_baixar_imagens env id).
Proof.
  apply quieto_chamar; [intros; apply baixar_imagens_regular | done
                       | apply mantem_baixar_imagens].
Qed.

Lemma quieto_h_atualizar reg a b u : quieto (h_atualizar env reg a b u).
Proof.
  apply quieto_chamar; [intros; apply atualizar_regular | done
                       | apply mantem_atualizar].
Qed.

Lemma quieto_h_webhook st u m : quieto (h_webhook env id st u m).
Proof.
  apply quieto_chamar; [intros; apply enviar_webhook_regular | done
                       | apply mantem_enviar_webhook].
Qed.

Lemma quieto_h_limpar : quieto (h_limpar env id).
Proof.
  apply quieto_chamar; [intros; apply limpar_regular | done | apply mantem_limpar].
Qed.

Lemma quieto_h_aguardar fuel t : quieto (h_aguardar env fuel t).
Proof.
  apply quieto_chamar; [intros; by apply aguardar_regular | done
                       | apply mantem_aguardar].
Qed.

Lemma quieto_h_baixar_resultados t : quieto (h_baixar_resultados env t id).
Proof.
  apply quieto_chamar; [intros; apply baixar_resultados_regular | done
                       | apply mantem_baixar_resultados].
Qed.

Lemma quieto_h_gerar_metadados d p t n dados :
  quieto (h_gerar_metadados env id d p t n dados).
Proof.
  apply quieto_chamar.
  - intros. apply regular_bind; [apply regular_get_preset|]. intros.
    apply gerar_metadados_regular.
  - done.
  - apply mantem_bind; [done|]. intros. apply mantem_gerar_metadados.
Qed.

Lemma quieto_h_enviar_ortomosaico p : quieto (h_enviar_ortomosaico env id p).
Proof.
  apply quieto_chamar; [intros; apply enviar_ortomosaico_regular | done
                       | apply mantem_enviar_ortomosaico].
Qed.

Lemma quieto_h_enviar_metadados p : quieto (h_enviar_metadados env id p).
Proof.
  apply quieto_chamar; [intros; apply enviar_metadados_regular | done
                       | apply mantem_enviar_metadados].
Qed.

Hint Resolve quieto_h_baixar_imagens quieto_h_atualizar quieto_h_webhook
  quieto_h_limpar quieto_h_aguardar quieto_h_baixar_resultados
  quieto_h_gerar_metadados quieto_h_enviar_ortomosaico
  quieto_h_enviar_metadados : quieto.

Local Ltac quieto_step :=
  lazymatch goal with
  | |- quieto (bind _ _) => apply quieto_bind; [| intros ?]
  | |- quieto (try_except _ _) => apply quieto_try; [| intros ?]
  | |- quieto (if ?b then _ else _) => destruct b
  | |- quieto (match ?x with _ => _ end) => destruct x
  end.

Local Ltac quieto_solve := repeat first [ solve [eauto with quieto] | quieto_step ].

(** a run keeps the preset and creates no task, except in its one call of
    [processar_imagens_webodm] *)
Definition R_run (s s' : State) : Prop :=
  R1 s s' \/
  exists d s1, R1 s s1 /\ R1 (processar_imagens_webodm env d id s1).2 s'.

Lemma R_run_R1 s1 s2 s3 : R_run s1 s2 -> R1 s2 s3 -> R_run s1 s3.
Proof.
  intros [H|(d & s' & H1 & H2)] H3.
  - left. by eapply R1_trans.
  - right. exists d, s'. split; [done|]. by eapply R1_trans.
Qed.

Lemma R1_R_run s1 s2 s3 : R1 s1 s2 -> R_run s2 s3 -> R_run s1 s3.
Proof.
  intros H1 [H|(d & s' & H2 & H3)].
  - left. by eapply R1_trans.
  - right. exists d, s'. split; [|done]. by eapply R1_trans.
Qed.

Definition uma_submissao {A} (m : M A) : Prop := forall s, R_run s (m s).2.

Lemma submissao_quieto {A} (m : M A) : quieto m -> uma_submissao m.
Proof. intros H s. left. apply H. Qed.

Lemma submissao_bind {A B} (m : M A) (k : A -> M B) :
  quieto m -> (forall a, uma_submissao (k a)) -> uma_submissao (bind m k).
Proof.
  intros Hm Hk s. unfold bind. specialize (Hm s).
  destruct (m s) as [[a|e|] s1]; simpl in *; [|by left|by left].
  eapply R1_R_run; [exact Hm | apply Hk].
Qed.

Lemma submissao_try {A} (m : M A) (h : string -> M A) :
  uma_submissao m -> (forall e, quieto (h e)) -> uma_submissao (try_except m h).
Proof.
  intros Hm Hh s. unfold try_except. specialize (Hm s).
  destruct (m s) as [[a|e|] s1]; simpl in *; [done| |done].
  eapply R_run_R1; [exact Hm | apply Hh].
Qed.

Lemma submissao_processar {B} d (k : option Task * bool -> M B) :
  (forall a, quieto (k a)) -> uma_submissao (bind (h_processar_webodm env d id) k).
Proof.
  intros Hk s. unfold bind, h_processar_webodm, chamar. right. exists d, s.
  split; [apply R1_refl|].
  destruct (processar_imagens_webodm env d id s) as [[a|e|] s1]; simpl.
  - eapply R1_trans; [|apply Hk]. by apply R1_registrar.
  - by apply R1_registrar.
  - apply R1_refl.
Qed.

Lemma processar_projeto_submete fuel reg dados :
  uma_submissao (processar_projeto env fuel id reg dados).
Proof.
  unfold processar_projeto. apply submissao_try; [|intros e; quieto_solve].
  apply submissao_bind; [eauto with quieto|]. intros [d n].
  destruct (n =? 0); [apply submissao_quieto; quieto_solve|].
  apply submissao_processar. intros [task ok]. quieto_solve.
Qed.

End Corrida.

(** the six writes of lines 362-369 of handlers.py, on the preset [p0] *)
Definition aumenta (id : string) (f : PyFloat) (p0 : gmap string PyVal)
  : gmap string PyVal :=
  <["projection" := PStr "EPSG:4326"]>
    (<["gcp" := PBool false]>
       (<["dtm" := default (PBool false) (p0 !! "dtm")]>
          (<["dsm" := default (PBool false) (p0 !! "dsm")]>
             (<["orthophoto-resolution" := PFloat f]>
                (<["name" := PStr ("Projeto_" +:+ id)]> p0))))).

Definition so_isfile (e : IOEvent) : bool :=
  match e with
  | IsFile _ => true
  | _ => false
  end.

Section Bundle.

Context (env : Env).

Lemma listar_imagens_isfile d l : regular so_isfile (listar_imagens env d l).
Proof. induction l as [|f l IH]; simpl; msolve. Qed.

Lemma mantem_listar_imagens d l : mantem (listar_imagens env d l).
Proof. induction l as [|f l IH]; simpl; mantem_solve. Qed.

(** the bundle sent with the task is the shared preset itself, after the six
    writes *)
Lemma processar_bundle d id s imgs o :
  let y := processar_imagens_webodm env d id s in
  let p0 := ortomosaico_preset s in
  CreateTask imgs o ∈ eventos (novos s y.2) ->
  exists f,
    float_de env (default (PInt 5) (p0 !! "orthophoto-resolution")) = Returns f /\
    o = aumenta id f p0 /\ ortomosaico_preset y.2 = o.
Proof.
  intros y p0. subst y p0.
  unfold processar_imagens_webodm, try_except, bind, ext, set_preset,
    get_preset, py_float, ret, raise, log, emit.
  destruct (o_new_node env _); cbn [fst snd].
  2:{ calc_novos. intros H. casos_in. }
  destruct (o_listdir env _) as [arquivos|e]; cbn [fst snd].
  2:{ calc_novos. intros H. casos_in. }
  set (s2 := registrar (IO (Listdir d)) (registrar (IO NewNode) s)).
  destruct (listar_imagens_isfile d arquivos s2) as (evs & Etr & Fevs).
  pose proof (mantem_listar_imagens d arquivos s2) as Hp2.
  assert (forall l, CreateTask imgs o ∈ eventos
            (drop (length (trace s)) (trace s2 ++ (IO <$> evs) ++ (IO <$> l))) ->
          CreateTask imgs o ∈ l) as Hfim.
  { intros l. subst s2. simpl. rewrite <- !app_assoc, drop_app_length. simpl.
    rewrite eventos_app, !eventos_IO, !elem_of_cons, elem_of_app.
    intros [H|[H|[H|H]]]; try done.
    rewrite forallb_forall in Fevs. apply list_elem_of_In, Fevs in H. done. }
  destruct (listar_imagens env d arquivos s2) as [[imagens|e|] s3];
    cbn [fst snd] in *.
  3:{ unfold novos. rewrite Etr. intros H.
      specialize (Hfim []). simpl in Hfim. rewrite app_nil_r in Hfim.
      apply Hfim in H. by apply elem_of_nil in H. }
  2:{ unfold novos. simpl. rewrite Etr. intros H.
      specialize (Hfim [Log ERROR ("Erro ao processar imagens no WebODM: " +:+ e)]).
      simpl in Hfim. rewrite <- app_assoc in H. apply Hfim in H. casos_in. }
  destruct imagens as [|img imagens].
  { unfold novos. simpl. rewrite Etr. intros H.
    specialize (Hfim [Log ERROR ("Nenhuma imagem válida encontrada em " +:+ d)]).
    simpl in Hfim. rewrite <- app_assoc in H. apply Hfim in H. casos_in. }
  unfold novos. simpl. rewrite !Hp2. subst s2. simpl.
  rewrite lookup_insert_ne by done.
  destruct (float_de env _) as [f|e] eqn:Ef; simpl.
  2:{ rewrite Etr. intros H.
      specialize (Hfim [Log ERROR ("Erro ao processar imagens no WebODM: " +:+ e)]).
      simpl in Hfim. rewrite <- app_assoc in H. apply Hfim in H. casos_in. }
  repeat (rewrite lookup_insert_ne by done).
  destruct (o_create_task env _) as [u|e]; simpl; rewrite Etr; intros H.
  - match type of H with
    | context [IO (CreateTask ?i ?b)] =>
        specialize (Hfim [CreateTask i b])
    end.
    simpl in Hfim. rewrite <- app_assoc in H. apply Hfim in H. casos_in.
    exists f. done.
  - match type of H with
    | context [IO (CreateTask ?i ?b)] =>
        specialize (Hfim [CreateTask i b;
                          Log ERROR ("Erro ao processar imagens no WebODM: " +:+ e)])
    end.
    simpl in Hfim. rewrite <- !app_assoc in H. apply Hfim in H. casos_in.
    exists f. done.
Qed.

End Bundle.

Section TwoRuns.

Context (env : Env) (id : string).

(** a task created during a run was created by its call of
    [processar_imagens_webodm], on the preset the run started with, and the
    run ends with the preset that call left *)
Lemma R_run_eventos s s' imgs o :
  R_run env id s s' -> CreateTask imgs o ∈ eventos (novos s s') ->
  exists d s1,
    ortomosaico_preset s1 = ortomosaico_preset s /\
    CreateTask imgs o ∈ eventos (novos s1 (processar_imagens_webodm env d id s1).2) /\
    ortomosaico_preset s' = ortomosaico_preset (processar_imagens_webodm env d id s1).2.
Proof.
  intros [[_ (t & E & N)] | (d & s1 & [P1 (t1 & E1 & N1)] & [P3 (t3 & E3 & N3)])] Hin.
  - rewrite (novos_app _ _ _ E) in Hin. by destruct (N imgs o).
  - exists d, s1. split; [done|]. split; [|done].
    destruct (processar_webodm_regular env d id (Throws EmptyString) s1)
      as (evs & E2 & _).
    rewrite (novos_app _ _ _ E2).
    assert (trace s' = trace s ++ (t1 ++ (IO <$> evs) ++ t3)) as E.
    { rewrite E3, E2, E1. by rewrite <- !app_assoc. }
    rewrite (novos_app _ _ _ E), !eventos_app, !elem_of_app in Hin.
    destruct Hin as [H|[H|H]]; [by destruct (N1 imgs o) | done
                               | by destruct (N3 imgs o)].
Qed.

End TwoRuns.

(** the second augmentation of a preset already augmented only replaces the
    name *)
Lemma aumenta_aumenta id1 id2 f p0 :
  aumenta id2 f (aumenta id1 f p0) =
    <["name" := PStr ("Projeto_" +:+ id2)]> (aumenta id1 f p0).
Proof.
  apply map_eq. intros k. unfold aumenta.
  repeat (rewrite lookup_insert; case_decide; subst; try done).
Qed.

Lemma inserir_elem kv kv' l : kv' ∈ inserir kv l <-> kv' = kv \/ kv' ∈ l.
Proof.
  induction l as [|x l IH]; simpl.
  - by rewrite elem_of_cons.
  - destruct (String.leb kv.1 x.1).
    + by rewrite elem_of_cons.
    + rewrite !elem_of_cons, IH. tauto.
Qed.

Lemma sorted_items_elem (m : gmap string PyVal) k v :
  (k, v) ∈ sorted_items m <-> m !! k = Some v.
Proof.
  unfold sorted_items. rewrite <- elem_of_map_to_list.
  induction (map_to_list m) as [|x l IH]; simpl; [done|].
  rewrite inserir_elem, elem_of_cons, IH. done.
Qed.

Lemma parametros_elem (m : gmap string PyVal) k v :
  (k, v) ∈ parametros m <->
  m !! k = Some v /\ escalar v = true /\ startswith k "_" = false.
Proof.
  unfold parametros. rewrite list_elem_of_In, filter_In, <- list_elem_of_In.
  rewrite sorted_items_elem. simpl. rewrite andb_true_iff, negb_true_iff. done.
Qed.

(** C9. The bundle a run sends to the node is the process-wide preset
    itself, after the name, the coerced resolution, dsm, dtm, gcp=False and
    the projection have been written into it; the preset stays so when the
    run ends.  A run that follows starts from that preset: the bundle it
    sends is the bundle of the first run with the name replaced, and the
    metadata rendered from the preset lists the keys the first run wrote. *)
Theorem C9_preset_shared_between_runs (env1 env2 : Env) (fuel1 fuel2 : nat)
  (id1 reg1 id2 reg2 : string) (dados1 dados2 : option (gmap string PyVal))
  (s : State) :
  let x1 := processar_projeto env1 fuel1 id1 reg1 dados1 s in
  let x2 := processar_projeto env2 fuel2 id2 reg2 dados2 x1.2 in
  let p0 := ortomosaico_preset s in
  let p1 := ortomosaico_preset x1.2 in
  (exists imgs o, CreateTask imgs o ∈ eventos (novos s x1.2)) ->
  (forall imgs o, CreateTask imgs o ∈ eventos (novos s x1.2) -> o = p1) /\
  (p1 !! "name" = Some (PStr ("Projeto_" +:+ id1)) /\
   p1 !! "projection" = Some (PStr "EPSG:4326") /\
   p1 !! "gcp" = Some (PBool false) /\
   (exists f, float_de env1 (default (PInt 5) (p0 !! "orthophoto-resolution"))
                = Returns f /\
              p1 !! "orthophoto-resolution" = Some (PFloat f)) /\
   p1 !! "dsm" = Some (default (PBool false) (p0 !! "dsm")) /\
   p1 !! "dtm" = Some (default (PBool false) (p0 !! "dtm")) /\
   (forall k, k ∉ ["name"; "orthophoto-resolution"; "dsm"; "dtm"; "gcp";
                   "projection"] -> p1 !! k = p0 !! k)) /\
  (forall imgs o, CreateTask imgs o ∈ eventos (novos x1.2 x2.2) ->
     o = <["name" := PStr ("Projeto_" +:+ id2)]> p1 /\
     o = ortomosaico_preset x2.2) /\
  (forall k, k ∈ ["name"; "orthophoto-resolution"; "gcp"; "projection"] ->
     exists v, (k, v) ∈ parametros p1).
Proof.
  intros x1 x2 p0 p1 (imgs0 & o0 & Hin0).
  pose proof (processar_projeto_submete env1 id1 fuel1 reg1 dados1 s) as HR1.
  fold x1 in HR1.
  destruct (R_run_eventos env1 id1 _ _ _ _ HR1 Hin0) as (d & s1 & Hp & Hc & Hfin).
  destruct (processar_bundle env1 d id1 s1 _ _ Hc) as (f & Hf & Ho & Hy).
  rewrite Hp in Hf, Ho. fold p0 in Hf, Ho.
  assert (p1 = aumenta id1 f p0) as Ep1.
  { unfold p1. rewrite Hfin, Hy. done. }
  split; [|split; [|split]].
  - intros imgs o Hin.
    destruct (R_run_eventos env1 id1 _ _ _ _ HR1 Hin) as (d' & s1' & Hp' & Hc' & Hfin').
    destruct (processar_bundle env1 d' id1 s1' _ _ Hc') as (f' & _ & _ & Hy').
    unfold p1. by rewrite Hfin', Hy'.
  - rewrite Ep1. unfold aumenta. repeat split.
    + by repeat (rewrite lookup_insert; case_decide; try done).
    + by repeat (rewrite lookup_insert; case_decide; try done).
    + by repeat (rewrite lookup_insert; case_decide; try done).
    + exists f. split; [done|].
      by repeat (rewrite lookup_insert; case_decide; try done).
    + by repeat (rewrite lookup_insert; case_decide; try done).
    + by repeat (rewrite lookup_insert; case_decide; try done).
    + intros k Hk. repeat (rewrite not_elem_of_cons in Hk).
      destruct Hk as (? & ? & ? & ? & ? & ? & _).
      by repeat (rewrite lookup_insert_ne by done).
  - intros imgs o Hin.
    pose proof (processar_projeto_submete env2 id2 fuel2 reg2 dados2 x1.2) as HR2.
    fold x2 in HR2.
    destruct (R_run_eventos env2 id2 _ _ _ _ HR2 Hin) as (d' & s1' & Hp' & Hc' & Hfin').
    destruct (processar_bundle env2 d' id2 s1' _ _ Hc') as (f' & Hf' & Ho' & Hy').
    rewrite Hp' in Hf', Ho'. fold p1 in Hf', Ho'.
    assert (f' = f) as ->.
    { rewrite Ep1 in Hf'. unfold aumenta in Hf'.
      repeat (rewrite lookup_insert in Hf'; case_decide; try done).
      simpl in Hf'. congruence. }
    split.
    + rewrite Ho', Ep1. apply aumenta_aumenta.
    + by rewrite Hfin', Hy'.
  - intros k Hk. rewrite Ep1.
    repeat (rewrite elem_of_cons in Hk). rewrite elem_of_nil in Hk.
    destruct Hk as [->|[->|[->|[->|[]]]]]; eexists; apply parametros_elem;
      (split;
       [ unfold aumenta; repeat (rewrite lookup_insert_ne by done);
         apply lookup_insert_eq
       | done ]).
Qed.

Definition e_create_task (e : IOEvent) : bool :=
  match e with
  | CreateTask _ _ => true
  | _ => false
  end.

Lemma houve_create_task l :
  existsb e_create_task l = true -> exists imgs o, CreateTask imgs o ∈ l.
Proof.
  intros H. apply existsb_exists in H as (e & Hin & He).
  destruct e; try done. eexists _, _. apply list_elem_of_In, Hin.
Qed.

(** project P1, then project P2, in a process that started with the shipped
    preset *)
Lemma C9_witness :
  let env := mundo duas_imagens concluida nenhuma in
  let x1 := processar_projeto env 1 "P1" "r1" None estado_inicial in
  let x2 := processar_projeto env 1 "P2" "r2" None x1.2 in
  ortomosaico_preset x1.2 !! "name" = Some (PStr ("Projeto_" +:+ "P1")) /\
  (forall imgs o, CreateTask imgs o ∈ eventos (novos x1.2 x2.2) ->
     o = <["name" := PStr ("Projeto_" +:+ "P2")]> (ortomosaico_preset x1.2) /\
     o = ortomosaico_preset x2.2).
Proof.
  intros env x1 x2.
  assert (exists imgs o, CreateTask imgs o ∈ eventos (novos estado_inicial x1.2))
    as Hex.
  { apply houve_create_task. vm_compute. reflexivity. }
  pose proof (C9_preset_shared_between_runs env env 1 1 "P1" "r1" "P2" "r2"
                None None estado_inicial Hex) as H.
  split; [apply H | apply H].
Defined.
(** * Further properties of the handlers *)

(** ** The two extension filters *)

Lemma lower_app a b : lower (a +:+ b) = lower a +:+ lower b.
Proof. induction a as [|c a IH]; simpl; [done|]. by rewrite IH. Qed.

Lemma length_app_str a b :
  String.length (a +:+ b) = (String.length a + String.length b)%nat.
Proof. induction a as [|c a IH]; simpl; [done|]. by rewrite IH. Qed.

Lemma substring_all b : String.substring 0 (String.length b) b = b.
Proof. induction b as [|c b IH]; simpl; [done|]. by rewrite IH. Qed.

Lemma substring_app_r a b :
  String.substring (String.length a) (String.length b) (a +:+ b) = b.
Proof. induction a as [|c a IH]; simpl; [apply substring_all | exact IH]. Qed.

Lemma endswith_app a b : endswith (a +:+ b) b = true.
Proof.
  unfold endswith, slice, str_len. rewrite length_app_str.
  apply andb_true_intro. split; [apply Z.leb_le; lia|].
  replace (Z.to_nat (Z.of_nat (String.length a + String.length b) -
                     Z.of_nat (String.length b))) with (String.length a) by lia.
  replace (Z.to_nat (Z.of_nat (String.length a + String.length b) -
                     (Z.of_nat (String.length a + String.length b) -
                      Z.of_nat (String.length b)))) with (String.length b) by lia.
  rewrite substring_app_r. apply String.eqb_refl.
Qed.

Lemma substring_split s n :
  (n <= String.length s)%nat ->
  String.substring 0 n s +:+ String.substring n (String.length s - n) s = s.
Proof.
  revert n. induction s as [|c s IH]; intros [|n] Hn; simpl in *; try lia.
  - done.
  - by rewrite substring_all.
  - change (String c (String.substring 0 n s +:+
                      String.substring n (String.length s - n) s) = String c s).
    f_equal. apply IH. lia.
Qed.

Lemma app_str_nil p : p +:+ EmptyString = p.
Proof.
  induction p as [|c p IH]; [done|].
  change (String c (p +:+ EmptyString) = String c p). by rewrite IH.
Qed.

Lemma rfind_from_bounds c s i acc :
  rfind_from c s i acc = acc \/
  (i <= rfind_from c s i acc < i + str_len s).
Proof.
  revert i acc. induction s as [|a s IH]; intros i acc; simpl; [by left|].
  unfold str_len in *. simpl String.length.
  destruct (IH (i + 1) (if Ascii.eqb a c then i else acc)) as [E|E].
  - rewrite E. destruct (Ascii.eqb a c); [right; lia | by left].
  - right. lia.
Qed.

(** [root + ext == path] *)
Lemma splitext_app p : (splitext p).1 +:+ (splitext p).2 = p.
Proof.
  unfold splitext.
  destruct ((rfind "/" p <? rfind "." p) && _) eqn:E; simpl.
  2:{ apply app_str_nil. }
  apply andb_prop in E as [E _]. apply Z.ltb_lt in E.
  assert (-1 <= rfind "/" p) as Hs.
  { unfold rfind. destruct (rfind_from_bounds "/" p 0 (-1)) as [->|?]; lia. }
  assert (0 <= rfind "." p < str_len p) as Hd.
  { unfold rfind in *. destruct (rfind_from_bounds "." p 0 (-1)) as [H|?]; lia. }
  unfold slice, str_len in *.
  replace (Z.to_nat 0) with 0%nat by lia.
  replace (Z.to_nat (rfind "." p - 0)) with (Z.to_nat (rfind "." p)) by lia.
  replace (Z.to_nat (Z.of_nat (String.length p) - rfind "." p))
    with (String.length p - Z.to_nat (rfind "." p))%nat by lia.
  apply substring_split. lia.
Qed.

(** X1. The filter of the download is at least as strict as the filter of
    the submission: a name whose [os.path.splitext] extension, lowercased, is
    one of the default extensions also ends, lowercased, with one of them, so
    every image [baixar_imagens_projeto] keeps is one
    [processar_imagens_webodm] accepts.  The converse fails: the name ".jpg"
    has no extension for [splitext] and yet ends with ".jpg". *)
Theorem X1_download_filter_implies_submit_filter (nome : string) :
  (str_in (lower (splitext nome).2) default_extensions = true ->
   existsb (fun ext => endswith (lower nome) ext) default_extensions = true) /\
  str_in (lower (splitext ".jpg").2) default_extensions = false /\
  existsb (fun ext => endswith (lower ".jpg") ext) default_extensions = true.
Proof.
  split; [|by vm_compute].
  intros H. unfold str_in in H. apply existsb_exists in H as (e & He & Heq).
  apply String.eqb_eq in Heq. apply existsb_exists. exists e. split; [done|].
  rewrite <- (splitext_app nome) at 1. rewrite lower_app, Heq.
  apply endswith_app.
Qed.

Lemma X1_witness :
  existsb (fun ext => endswith (lower "DJI_0001.JPG") ext) default_extensions = true.
Proof.
  exact (proj1 (X1_download_filter_implies_submit_filter "DJI_0001.JPG") eq_refl).
Defined.

(** ** The webhook *)

Definition e_post (e : IOEvent) : bool :=
  match e with
  | HttpPost _ _ => true
  | _ => false
  end.

Ltac abre_webhook :=
  unfold enviar_webhook, try_except, bind, get_supabase_client, try_except,
    bind, ask, ext, log, emit, raise, ret; simpl.

(** X2. Delivery of a notification.  [enviar_webhook] always returns a
    boolean and lets no exception out.  With no webhook URL configured it
    returns False after logging a warning, without any request.  It sends at
    most one POST, and it returns True only when that POST, sent to the
    configured URL, is the last thing it did and was answered with a status
    code from 200 to 299. *)
Theorem X2_webhook_delivery (env : Env) (id st : string) (u m : option string)
  (s : State) :
  let y := enviar_webhook env id st u m s in
  let evs := eventos (novos s y.2) in
  (exists b, y.1 = Ok b) /\
  (truthy (WEBHOOK_URL env) = false ->
   y.1 = Ok false /\
   evs = [Log WARNING "URL de webhook não configurada. Notificação não enviada."]) /\
  (length (List.filter e_post evs) <= 1)%nat /\
  (y.1 = Ok true ->
   exists url body code,
     WEBHOOK_URL env = Some url /\ last evs = Some (HttpPost url body) /\
     o_http_post env (trace y.2) = Returns code /\ 200 <= code < 300).
Proof.
  intros y evs. subst evs y. split; [|split; [|split]].
  - abre_webhook. destruct (truthy (WEBHOOK_URL env)); simpl; [|eauto].
    destruct (String.eqb st "sucesso" && negb (truthy u)); simpl;
      casos_oraculo env; eauto;
      destruct ((200 <=? _) && _); simpl; eauto.
  - intros Hw. abre_webhook. rewrite Hw. simpl. split; [done|]. by calc_novos.
  - abre_webhook. destruct (truthy (WEBHOOK_URL env)); simpl; [|calc_novos; lia].
    destruct (String.eqb st "sucesso" && negb (truthy u)); simpl;
      casos_oraculo env; try (calc_novos; lia);
      destruct ((200 <=? _) && _); calc_novos; lia.
  - abre_webhook. destruct (WEBHOOK_URL env) as [w|] eqn:Ew; simpl; [|done].
    destruct (String.eqb w EmptyString) eqn:Ee; simpl; [done|].
    destruct (String.eqb st "sucesso" && negb (truthy u)); simpl;
      casos_oraculo env; try done;
      match goal with
      | |- context [(200 <=? ?c) && (?c <? 300)] =>
          destruct ((200 <=? c) && (c <? 300)) eqn:Ec; simpl; [|done]
      end;
      intros _; apply andb_prop in Ec as [E1 E2];
      apply Z.leb_le in E1; apply Z.ltb_lt in E2;
      eexists w, _, _; (split; [done|]);
      (split; [calc_novos; reflexivity|]); (split; [eassumption | lia]).
Qed.

(** X3. What a notification carries.  Every POST of [enviar_webhook] goes to
    the configured URL with the project id and the status it was called
    with; the message is the one given, left out when it is empty; the
    mosaic URL is never an empty text, is the one given when that one is not
    empty, and can differ from the one given only for status "sucesso".  The
    ledger is asked for the URL only for status "sucesso" called without a
    URL, and only about this project. *)
Theorem X3_webhook_payload (env : Env) (id st : string) (u m : option string)
  (s : State) :
  let y := enviar_webhook env id st u m s in
  let evs := eventos (novos s y.2) in
  (forall url body, HttpPost url body ∈ evs ->
     WEBHOOK_URL env = Some url /\
     p_id_projeto body = id /\ p_status body = st /\
     p_mensagem body = (if truthy m then m else None) /\
     (p_url_ortomosaico body = None \/ truthy (p_url_ortomosaico body) = true) /\
     (truthy u = true -> p_url_ortomosaico body = u) /\
     (st <> "sucesso" -> p_url_ortomosaico body = if truthy u then u else None)) /\
  (forall idp, TableSelectUrl idp ∈ evs ->
     idp = id /\ st = "sucesso" /\ truthy u = false).
Proof.
  intros y evs. subst evs y. split.
  - intros url body. abre_webhook.
    destruct (WEBHOOK_URL env) as [w|] eqn:Ew; simpl;
      [|calc_novos; intros H; casos_in].
    destruct (String.eqb w EmptyString) eqn:Ee; simpl;
      [calc_novos; intros H; casos_in|].
    destruct (String.eqb st "sucesso") eqn:Est; simpl.
    + apply String.eqb_eq in Est.
      destruct (truthy u) eqn:Eu; simpl;
        casos_oraculo env;
        try (destruct ((200 <=? _) && _); simpl);
        calc_novos; intros H; casos_in; simpl;
        rewrite ?Eu; repeat split; auto; try done;
        try (match goal with
             | |- context [truthy ?a] => destruct (truthy a) eqn:?; auto
             end).
    + apply String.eqb_neq in Est.
      casos_oraculo env;
        try (destruct ((200 <=? _) && _); simpl);
        calc_novos; intros H; casos_in; simpl;
        destruct (truthy u) eqn:Eu; repeat split; auto; done.
  - intros idp. abre_webhook.
    destruct (truthy (WEBHOOK_URL env)); simpl;
      [|calc_novos; intros H; casos_in].
    destruct (String.eqb st "sucesso") eqn:Est; simpl.
    + apply String.eqb_eq in Est.
      destruct (truthy u) eqn:Eu; simpl;
        casos_oraculo env;
        try (destruct ((200 <=? _) && _); simpl);
        calc_novos; intros H; casos_in; done.
    + casos_oraculo env;
        try (destruct ((200 <=? _) && _); simpl);
        calc_novos; intros H; casos_in.
Qed.

(** ** Cleanup *)

(** X4. [limpar_arquivos_temporarios] always returns a boolean.  Its first
    step creates the project directory if it is missing (through
    [get_project_temp_dir]); the only tree it removes is that directory,
    [os.path.join(TEMP_DIR, id_projeto)], after the existence test answered
    yes; it returns True exactly when these three steps were all it did.
    For an [id_projeto] that begins with a slash the directory is the
    [id_projeto] itself, whatever [TEMP_DIR] is. *)
Theorem X4_cleanup_target (env : Env) (id : string) (s : State) :
  let y := limpar_arquivos_temporarios env id s in
  let d := path_join (TEMP_DIR env) id in
  let evs := eventos (novos s y.2) in
  (exists b, y.1 = Ok b) /\
  (exists rest, evs = Makedirs d :: rest) /\
  (forall p, Rmtree p ∈ evs ->
     p = d /\
     o_exists env (trace s ++ [IO (Makedirs d); IO (PathExists d)]) = true) /\
  (y.1 = Ok true <-> evs = [Makedirs d; PathExists d; Rmtree d]) /\
  (startswith id "/" = true -> d = id).
Proof.
  intros y d evs. subst evs y d.
  unfold limpar_arquivos_temporarios, get_project_temp_dir, try_except, bind,
    ask, ext, log, emit, raise, ret.
  simpl. split; [|split; [|split; [|split]]].
  - casos_oraculo env; eauto.
  - casos_oraculo env; calc_novos; eauto.
  - intros p. destruct (o_makedirs env _); simpl;
      [|calc_novos; intros H; casos_in].
    rewrite <- !app_assoc. simpl.
    destruct (o_exists env _) eqn:Ee; simpl;
      [|calc_novos; intros H; casos_in].
    casos_oraculo env; calc_novos; intros H; casos_in; done.
  - casos_oraculo env; calc_novos; split; intros H; done.
  - intros H. unfold path_join. by rewrite H.
Qed.

(** ** The download of the input images *)

Definition e_download (e : IOEvent) : bool :=
  match e with
  | StorageDownload _ _ => true
  | _ => false
  end.

(** the request for one object of the project folder *)
Definition pedido_download (id : string) (f : FileDesc) : IOEvent :=
  StorageDownload "uploads" (id +:+ "/" +:+ name f).

Lemma baixar_cada_tentativas env id d files n0 s :
  let y := baixar_cada env id d files n0 s in
  exists n evs,
    y.1 = Ok n /\ trace y.2 = trace s ++ (IO <$> evs) /\
    List.filter e_download evs = pedido_download id <$> files /\
    n = n0 + Z.of_nat (length files) - Z.of_nat (length (List.filter is_log evs)) /\
    (length (List.filter is_log evs) <= length files)%nat.
Proof.
  revert n0 s. induction files as [|f files IH]; intros n0 s.
  { exists n0, []. simpl. rewrite app_nil_r. repeat split; lia. }
  cbn [baixar_cada]. unfold bind, try_except, ext, log, emit, ret. simpl.
  destruct (o_storage_download env _); simpl;
    [destruct (o_open_write env _); simpl|];
    match goal with
    | |- context [baixar_cada env id d files ?n1 ?s1] =>
        destruct (IH n1 s1) as (n & evs & E1 & E2 & E3 & E4 & E5)
    end; simpl in E2; rewrite <- !app_assoc in E2; simpl in E2.
  - exists n, (pedido_download id f :: OpenWrite (path_join d (name f)) :: evs).
    simpl. rewrite E3. repeat split; try done; lia.
  - eexists n, (pedido_download id f :: OpenWrite (path_join d (name f)) ::
                Log ERROR _ :: evs).
    simpl. rewrite E3. repeat split; try done; simpl; lia.
  - eexists n, (pedido_download id f :: Log ERROR _ :: evs).
    simpl. rewrite E3. repeat split; try done; simpl; lia.
Qed.

(** X5. The download loop.  Once the folder of the project has been listed,
    [baixar_imagens_projeto] requests every object whose extension is
    supported, once each and in the order of the listing, and no other
    object: a download or a local write that fails is logged and the loop
    goes on with the next object.  The count it returns is the number of
    objects requested minus the number of error lines logged. *)
Theorem X5_download_attempts (env : Env) (id : string) (s : State)
  (listing : list FileDesc) (sup : list string) :
  let d := path_join (TEMP_DIR env) id in
  o_create_client env (trace s ++ [IO CreateClient]) = Returns tt ->
  o_makedirs env (trace s ++ [IO CreateClient; IO (Makedirs d)]) = Returns tt ->
  o_storage_list env
    (trace s ++ [IO CreateClient; IO (Makedirs d); IO (StorageList "uploads" id)])
    = Returns listing ->
  default (PList default_extensions)
          (ortomosaico_preset s !! "SUPPORTED_IMAGE_EXTENSIONS") = PList sup ->
  listing <> [] ->
  let y := baixar_imagens_projeto env id s in
  let evs := eventos (novos s y.2) in
  let validos :=
    List.filter (fun f => str_in (lower (splitext (name f)).2) sup) listing in
  List.filter e_download evs = pedido_download id <$> validos /\
  y.1 = Ok (d, Z.of_nat (length validos)
               - Z.of_nat (length (List.filter is_log evs))) /\
  (length (List.filter is_log evs) <= length validos)%nat.
Proof.
  intros d Hclient Hdir Hlist Hsup Hne y evs validos. subst evs y validos.
  unfold baixar_imagens_projeto, try_except, bind, get_supabase_client,
    try_except, get_project_temp_dir, bind, ext, get_preset, log, emit, ret.
  fold d. simpl. rewrite Hclient. simpl.
  rewrite <- !app_assoc. simpl. rewrite Hdir. simpl.
  rewrite <- !app_assoc. simpl. rewrite Hlist.
  destruct listing as [|f0 l0] eqn:El; [done|]. rewrite <- El in *.
  simpl. rewrite Hsup, valid_files_lista. cbn [fst snd].
  set (validos := List.filter _ listing).
  match goal with
  | |- context [baixar_cada env id d validos 0 ?s1] =>
      destruct (baixar_cada_tentativas env id d validos 0 s1)
        as (n & evs & E1 & E2 & E3 & E4 & E5);
      destruct (baixar_cada env id d validos 0 s1) as [r s2]
  end.
  simpl in E1, E2. subst r. cbn [fst snd].
  rewrite <- !app_assoc in E2. simpl in E2.
  rewrite (novos_app _ _ _ E2). simpl. rewrite eventos_IO.
  split; [done|]. split; [|done]. do 2 f_equal. lia.
Qed.

(** three objects, two of them images; nothing fails *)
Lemma X5_witness :
  let env := mundo duas_imagens concluida nenhuma in
  let y := baixar_imagens_projeto env "P1" estado_inicial in
  List.filter e_download (eventos (novos estado_inicial y.2)) =
    [StorageDownload "uploads" "P1/DJI_0001.JPG";
     StorageDownload "uploads" "P1/DJI_0002.jpg"] /\
  y.1 = Ok ("/app/temp/P1", 2).
Proof.
  intros env y.
  pose proof (X5_download_attempts env "P1" estado_inicial duas_imagens
                default_extensions eq_refl eq_refl eq_refl eq_refl
                ltac:(discriminate)) as (H1 & H2 & _).
  split; [exact H1 | exact H2].
Defined.

(** X6. [baixar_imagens_projeto] is documented to return a pair, and it does
    whatever the store answers, with one exception: when the handler of its
    [except] clause asks again for the project directory and [os.makedirs]
    raises there, that exception leaves the function.  It is the only way an
    exception gets out, and the call never hangs. *)
Theorem X6_download_raises_only_on_makedirs (env : Env) (id : string)
  (s : State) :
  let y := baixar_imagens_projeto env id s in
  let d := path_join (TEMP_DIR env) id in
  y.1 <> Diverge /\
  forall e, y.1 = Raise e ->
    o_makedirs env (trace y.2) = Throws e /\
    exists t msg,
      trace y.2 =
        t ++ [IO (Log ERROR ("Erro ao baixar imagens do projeto " +:+ id
                             +:+ ": " +:+ msg));
              IO (Makedirs d)].
Proof.
  intros y d. split; [apply baixar_imagens_termina|]. subst y.
  unfold baixar_imagens_projeto, try_except.
  match goal with
  | |- context [match ?m s with _ => _ end] =>
      destruct (m s) as [[a|e0|] s1]
  end; [done| |done].
  unfold bind, get_project_temp_dir, bind, ext, log, emit, ret. simpl.
  fold d. destruct (o_makedirs env _) eqn:E; simpl; [done|].
  intros e [= <-]. split; [done|]. exists (trace s1), e0.
  by rewrite <- app_assoc.
Qed.

(** the file system refuses to create any directory *)
Definition sem_diretorio (e : IOEvent) : bool :=
  match e with
  | Makedirs _ => true
  | _ => false
  end.

Lemma X6_witness :
  let env := mundo duas_imagens concluida sem_diretorio in
  let y := baixar_imagens_projeto env "P1" estado_inicial in
  y.1 = Raise "unavailable" /\
  o_makedirs env (trace y.2) = Throws "unavailable".
Proof.
  intros env y.
  assert (y.1 = Raise "unavailable") as H by reflexivity.
  split; [exact H|].
  apply (X6_download_raises_only_on_makedirs env "P1" estado_inicial), H.
Defined.

(** ** The submission to the node *)

Definition extensao_aceita (a : string) : bool :=
  existsb (fun ext => endswith (lower a) ext) default_extensions.

Lemma listar_imagens_resultado env d l s :
  exists imgs evs,
    listar_imagens env d l s =
      (Ok imgs, MkState (trace s ++ (IO <$> evs)) (ortomosaico_preset s)
                        (requisicoes s)) /\
    forallb so_isfile evs = true /\
    (forall img, img ∈ imgs ->
       exists a, a ∈ l /\ img = path_join d a /\ extensao_aceita a = true).
Proof.
  revert s. induction l as [|a l IH]; intros s.
  { exists [], []. simpl. rewrite app_nil_r. destruct s. repeat split.
    intros img H. by apply elem_of_nil in H. }
  cbn [listar_imagens]. unfold bind, ask, ret. cbn [fst snd].
  destruct (IH (registrar (IO (IsFile (path_join d a))) s))
    as (imgs & evs & E & F & H).
  rewrite E. cbn [fst snd trace ortomosaico_preset requisicoes registrar].
  eexists _, (IsFile (path_join d a) :: evs). split; [|split].
  - rewrite <- app_assoc. reflexivity.
  - simpl. exact F.
  - intros img Hin. fold (extensao_aceita a) in Hin.
    destruct (o_isfile env _ && extensao_aceita a) eqn:Eb.
    + apply elem_of_cons in Hin as [->|Hin].
      * exists a. apply andb_prop in Eb as [_ Eb]. split; [by left|done].
      * destruct (H img Hin) as (a' & ? & ? & ?). exists a'. split; [by right|done].
    + destruct (H img Hin) as (a' & ? & ? & ?). exists a'. split; [by right|done].
Qed.

Lemma sem_create_task evs :
  forallb so_isfile evs = true -> List.filter e_create_task evs = [].
Proof.
  induction evs as [|e evs IH]; [done|]. simpl.
  destruct e; first [done | exact IH].
Qed.

(** how a call of [processar_imagens_webodm] can end: before the preset is
    touched; on [float()], after the name has been written; with the task
    created; with the task refused by the node *)
Inductive Submissao (env : Env) (d id : string) (s : State)
  : Res (option Task * bool) * State -> Prop :=
| sub_cedo evs s' :
    List.filter e_create_task evs = [] ->
    trace s' = trace s ++ (IO <$> evs) ->
    ortomosaico_preset s' = ortomosaico_preset s ->
    requisicoes s' = requisicoes s ->
    Submissao env d id s (Ok (None, false), s')
| sub_float evs msg s' :
    List.filter e_create_task evs = [] ->
    float_de env (default (PInt 5)
                    (ortomosaico_preset s !! "orthophoto-resolution"))
      = Throws msg ->
    trace s' = trace s ++ (IO <$> evs) ->
    ortomosaico_preset s' =
      <["name" := PStr ("Projeto_" +:+ id)]> (ortomosaico_preset s) ->
    requisicoes s' = requisicoes s ->
    Submissao env d id s (Ok (None, false), s')
| sub_criada evs imgs f u s' :
    List.filter e_create_task evs = [] ->
    float_de env (default (PInt 5)
                    (ortomosaico_preset s !! "orthophoto-resolution"))
      = Returns f ->
    imgs <> [] ->
    (forall img, img ∈ imgs ->
       exists a, img = path_join d a /\ extensao_aceita a = true) ->
    trace s' =
      trace s ++ (IO <$> evs ++ [CreateTask imgs (ortomosaico_preset s')]) ->
    ortomosaico_preset s' = aumenta id f (ortomosaico_preset s) ->
    requisicoes s' = requisicoes s ->
    o_create_task env (trace s') = Returns u ->
    Submissao env d id s (Ok (Some (MkTask u), true), s')
| sub_recusada evs imgs f msg s' :
    List.filter e_create_task evs = [] ->
    float_de env (default (PInt 5)
                    (ortomosaico_preset s !! "orthophoto-resolution"))
      = Returns f ->
    imgs <> [] ->
    (forall img, img ∈ imgs ->
       exists a, img = path_join d a /\ extensao_aceita a = true) ->
    trace s' =
      trace s ++ (IO <$> evs ++ [CreateTask imgs (ortomosaico_preset s');
                                 Log ERROR ("Erro ao processar imagens no WebODM: "
                                            +:+ msg)]) ->
    ortomosaico_preset s' = aumenta id f (ortomosaico_preset s) ->
    requisicoes s' = requisicoes s ->
    Submissao env d id s (Ok (None, false), s').

Local Ltac fecha_traco :=
  unfold registrar; simpl; rewrite ?fmap_app; simpl;
  rewrite <- ?app_assoc; simpl; rewrite <- ?app_assoc; reflexivity.

Lemma processar_casos env d id s :
  Submissao env d id s (processar_imagens_webodm env d id s).
Proof.
  unfold processar_imagens_webodm, try_except, bind, ext, set_preset,
    get_preset, py_float, ret, raise, log, emit.
  destruct (o_new_node env _); cbn [fst snd].
  2:{ eapply (sub_cedo _ _ _ _ [NewNode; Log ERROR _]);
        [done | fecha_traco | done | done]. }
  destruct (o_listdir env _) as [arquivos|e]; cbn [fst snd].
  2:{ eapply (sub_cedo _ _ _ _ [NewNode; Listdir d; Log ERROR _]);
        [done | fecha_traco | done | done]. }
  destruct (listar_imagens_resultado env d arquivos
              (registrar (IO (Listdir d)) (registrar (IO NewNode) s)))
    as (imgs & evs & E & F & H).
  rewrite E. cbn [fst snd]. apply sem_create_task in F.
  assert (List.filter e_create_task (NewNode :: Listdir d :: evs) = []) as F'.
  { simpl. exact F. }
  destruct imgs as [|img imgs].
  { eapply (sub_cedo _ _ _ _ ((NewNode :: Listdir d :: evs) ++ [Log ERROR _]));
      [by rewrite List.filter_app, F' | fecha_traco | done | done]. }
  simpl. rewrite lookup_insert_ne by done.
  destruct (float_de env _) as [f|e] eqn:Ef; simpl.
  2:{ eapply (sub_float _ _ _ _ ((NewNode :: Listdir d :: evs) ++ [Log ERROR _]) e);
        [by rewrite List.filter_app, F' | done | fecha_traco | done | done]. }
  repeat (rewrite lookup_insert_ne by done).
  assert (forall i, i ∈ img :: imgs ->
            exists a, i = path_join d a /\ extensao_aceita a = true) as H'.
  { intros i Hi. destruct (H i Hi) as (a' & _ & ? & ?). eauto. }
  destruct (o_create_task env _) as [u|e] eqn:Ec; simpl.
  - eapply (sub_criada _ _ _ _ (NewNode :: Listdir d :: evs) (img :: imgs) f u);
      [done | done | done | done | fecha_traco | done | done | exact Ec].
  - eapply (sub_recusada _ _ _ _ (NewNode :: Listdir d :: evs) (img :: imgs) f e);
      [done | done | done | done | fecha_traco | done | done].
Qed.

Lemma filter_create_task_elem evs imgs o :
  List.filter e_create_task evs = [] -> CreateTask imgs o ∉ evs.
Proof.
  intros F Hin. apply list_elem_of_In in Hin.
  assert (In (CreateTask imgs o) (List.filter e_create_task evs)) as H.
  { apply filter_In. by split. }
  by rewrite F in H.
Qed.

(** X7. The submission.  [processar_imagens_webodm] returns either
    [(None, False)] or a task with [True], and lets no exception out.  It asks
    the node for at most one task.  It returns a task exactly when its last
    step was a [create_task] that the node answered, and the task is the one
    the node named.  A request for a task carries at least one image, every
    image lies in the given directory and has a supported extension, and the
    options sent are the shared preset as the call leaves it.  When the call
    asked for no task, the preset is as before except, possibly, for its
    name. *)
Theorem X7_submission (env : Env) (d id : string) (s : State) :
  let y := processar_imagens_webodm env d id s in
  let evs := eventos (novos s y.2) in
  (y.1 = Ok (None, false) \/ exists u, y.1 = Ok (Some (MkTask u), true)) /\
  (length (List.filter e_create_task evs) <= 1)%nat /\
  (forall u, y.1 = Ok (Some (MkTask u), true) <->
     o_create_task env (trace y.2) = Returns u /\
     exists imgs o, last evs = Some (CreateTask imgs o)) /\
  (forall imgs o, CreateTask imgs o ∈ evs ->
     imgs <> [] /\ o = ortomosaico_preset y.2 /\
     forall img, img ∈ imgs ->
       exists a, img = path_join d a /\ extensao_aceita a = true) /\
  ((forall imgs o, CreateTask imgs o ∉ evs) ->
   forall k, k <> "name" ->
     ortomosaico_preset y.2 !! k = ortomosaico_preset s !! k).
Proof.
  intros y evs. subst evs. pose proof (processar_casos env d id s) as HS.
  fold y in HS. destruct y as [r s']. cbn [fst snd].
  inversion HS as [evs s1 F Et Ep Er | evs msg s1 F Ef Et Ep Er
                  | evs imgs f u s1 F Ef Hne Himgs Et Ep Er Ec
                  | evs imgs f msg s1 F Ef Hne Himgs Et Ep Er]; subst;
    rewrite (novos_app _ _ _ Et), eventos_IO.
  - split; [by left|]. split; [rewrite F; simpl; lia|]. split; [|split].
    + intros u. split; [done|]. intros [_ (imgs & o & Hl)].
      apply last_Some_elem_of in Hl. by apply filter_create_task_elem in Hl.
    + intros imgs o Hin. by apply filter_create_task_elem in Hin.
    + intros _ k _. by rewrite Ep.
  - split; [by left|]. split; [rewrite F; simpl; lia|]. split; [|split].
    + intros u. split; [done|]. intros [_ (imgs & o & Hl)].
      apply last_Some_elem_of in Hl. by apply filter_create_task_elem in Hl.
    + intros imgs o Hin. by apply filter_create_task_elem in Hin.
    + intros _ k Hk. by rewrite Ep, lookup_insert_ne.
  - split; [right; eauto|].
    split; [rewrite List.filter_app, F; simpl; lia|]. split; [|split].
    + intros u'. split.
      * intros [= <-]. split; [done|]. eexists _, _. apply last_snoc.
      * intros [Hc _]. rewrite Ec in Hc. by injection Hc as <-.
    + intros imgs' o' Hin. apply elem_of_app in Hin as [Hin|Hin].
      * by apply filter_create_task_elem in Hin.
      * apply list_elem_of_singleton in Hin. by injection Hin as -> ->.
    + intros Hno. destruct (Hno imgs (ortomosaico_preset s')).
      apply elem_of_app. right. by left.
  - split; [by left|].
    split; [rewrite List.filter_app, F; simpl; lia|]. split; [|split].
    + intros u. split; [done|]. intros [_ (imgs' & o & Hl)].
      match type of Hl with
      | last (?l ++ [?a; ?b]) = _ =>
          replace (l ++ [a; b]) with ((l ++ [a]) ++ [b]) in Hl
            by (by rewrite <- app_assoc)
      end.
      rewrite last_snoc in Hl. done.
    + intros imgs' o' Hin. apply elem_of_app in Hin as [Hin|Hin].
      * by apply filter_create_task_elem in Hin.
      * apply elem_of_cons in Hin as [Hin|Hin].
        -- by injection Hin as -> ->.
        -- by apply list_elem_of_singleton in Hin.
    + intros Hno. destruct (Hno imgs (ortomosaico_preset s')).
      apply elem_of_app. right. by left.
Qed.

(** ** The preset across a run *)

(** the three states in which a run can leave the shared preset *)
Lemma preset_apos_corrida (env : Env) (fuel : nat) (id reg : string)
  (dados : option (gmap string PyVal)) (s : State) :
  let x := processar_projeto env fuel id reg dados s in
  let evs := eventos (novos s x.2) in
  let p0 := ortomosaico_preset s in
  let p1 := ortomosaico_preset x.2 in
  let res := default (PInt 5) (p0 !! "orthophoto-resolution") in
  p1 = p0 \/
  (p1 = <["name" := PStr ("Projeto_" +:+ id)]> p0 /\
   (exists msg, float_de env res = Throws msg) /\
   forall imgs o, CreateTask imgs o ∉ evs) \/
  (exists f imgs, float_de env res = Returns f /\ p1 = aumenta id f p0 /\
                  CreateTask imgs p1 ∈ evs).
Proof.
  intros x evs p0 p1 res.
  pose proof (processar_projeto_submete env id fuel reg dados s) as HR.
  fold x in HR. subst evs p0 p1 res.
  destruct HR as [[Hp _] | (d & s1 & [Hp1 (t1 & Et1 & Hn1)]
                                    & [Hp3 (t3 & Et3 & Hn3)])]; [by left|].
  pose proof (processar_casos env d id s1) as HS.
  destruct (processar_imagens_webodm env d id s1) as [r sp].
  cbn [fst snd] in *. rewrite Hp3. rewrite <- Hp1.
  inversion HS as [evs s2 F Et Ep Er | evs msg s2 F Ef Et Ep Er
                  | evs imgs f u s2 F Ef Hne Himgs Et Ep Er Ec
                  | evs imgs f msg s2 F Ef Hne Himgs Et Ep Er]; subst.
  - by left.
  - right. left. split; [done|]. split; [eauto|].
    intros imgs o.
    assert (trace x.2 = trace s ++ (t1 ++ (IO <$> evs) ++ t3)) as E.
    { rewrite Et3, Et, Et1. by rewrite <- !app_assoc. }
    rewrite (novos_app _ _ _ E), !eventos_app, eventos_IO, !elem_of_app.
    intros [H|[H|H]]; [by apply Hn1 in H | | by apply Hn3 in H].
    by apply filter_create_task_elem in H.
  - right. right. exists f, imgs. split; [done|]. split; [done|].
    assert (trace x.2 = trace s ++ (t1 ++
              (IO <$> evs ++ [CreateTask imgs (ortomosaico_preset sp)]) ++ t3))
      as E.
    { rewrite Et3, Et, Et1. by rewrite <- !app_assoc. }
    rewrite (novos_app _ _ _ E), !eventos_app, eventos_IO, !elem_of_app.
    right. left. right. rewrite Ep. by left.
  - right. right. exists f, imgs. split; [done|]. split; [done|].
    assert (trace x.2 = trace s ++ (t1 ++
              (IO <$> evs ++ [CreateTask imgs (ortomosaico_preset sp);
                              Log ERROR ("Erro ao processar imagens no WebODM: "
                                         +:+ msg)]) ++ t3))
      as E.
    { rewrite Et3, Et, Et1. by rewrite <- !app_assoc. }
    rewrite (novos_app _ _ _ E), !eventos_app, eventos_IO, !elem_of_app.
    right. left. right. rewrite Ep. by left.
Qed.

(** X8. What a run does to the shared preset.  Whatever happens during
    [processar_projeto], it leaves [config.ortomosaico_preset] in one of
    three states: as it was; with only the name written, which happens when
    [float()] rejects the stored orthophoto resolution, and then no task was
    requested; or with the six writes of the submission, and then a task was
    requested with exactly that preset -- also when the node refused it or
    a later stage failed.  In every case the keys other than the six written
    ones are untouched. *)
Theorem X8_preset_after_run (env : Env) (fuel : nat) (id reg : string)
  (dados : option (gmap string PyVal)) (s : State) :
  let x := processar_projeto env fuel id reg dados s in
  let evs := eventos (novos s x.2) in
  let p0 := ortomosaico_preset s in
  let p1 := ortomosaico_preset x.2 in
  let res := default (PInt 5) (p0 !! "orthophoto-resolution") in
  (p1 = p0 \/
   (p1 = <["name" := PStr ("Projeto_" +:+ id)]> p0 /\
    (exists msg, float_de env res = Throws msg) /\
    forall imgs o, CreateTask imgs o ∉ evs) \/
   (exists f imgs, float_de env res = Returns f /\ p1 = aumenta id f p0 /\
                   CreateTask imgs p1 ∈ evs)) /\
  (forall k, k ∉ ["name"; "orthophoto-resolution"; "dsm"; "dtm"; "gcp";
                  "projection"] -> p1 !! k = p0 !! k).
Proof.
  intros x evs p0 p1 res.
  pose proof (preset_apos_corrida env fuel id reg dados s) as Hcasos.
  cbv zeta in Hcasos. fold x in Hcasos. fold evs p0 p1 res in Hcasos.
  split; [exact Hcasos|].
  intros k Hk. repeat (rewrite not_elem_of_cons in Hk).
  destruct Hk as (? & ? & ? & ? & ? & ? & _).
  destruct Hcasos as [->|[[-> _]|(f & imgs & _ & -> & _)]]; [done| |].
  - by rewrite lookup_insert_ne.
  - unfold aumenta. by repeat (rewrite lookup_insert_ne by done).
Qed.

(** ** settings.py and config.py: the quality presets *)

Definition preset_alta : gmap string PyVal :=
  list_to_map
    [("feature-quality", PStr "high");
     ("min-num-features", PInt 16000);
     ("matcher-neighbors", PInt 10);
     ("matcher-distance", PInt 3);
     ("feature-type", PStr "sift");
     ("optimize-disk-space", PBool false);
     ("pc-quality", PStr "high");
     ("pc-filter", PFloat (MkFloat 5 2));
     ("depthmap-resolution", PInt 1024);
     ("dem-resolution", PStr "1");
     ("orthophoto-cutline", PBool true);
     ("use-3dmesh", PBool true);
     ("cog", PBool true);
     ("auto-boundary", PBool true);
     ("dsm", PBool false);
     ("dtm", PBool false);
     ("skip-3dmodel", PBool true);
     ("skip-report", PBool true);
     ("pc-classify", PBool false)].

Definition preset_robusta : gmap string PyVal :=
  list_to_map
    [("feature-quality", PStr "high");
     ("min-num-features", PInt 8000);
     ("matcher-neighbors", PInt 12);
     ("matcher-distance", PInt 5);
     ("feature-type", PStr "sift");
     ("optimize-disk-space", PBool true);
     ("pc-quality", PStr "high");
     ("pc-filter", PFloat (MkFloat 3 1));
     ("depthmap-resolution", PInt 512);
     ("dem-resolution", PStr "2");
     ("orthophoto-cutline", PBool true);
     ("use-3dmesh", PBool true);
     ("cog", PBool true);
     ("auto-boundary", PBool true);
     ("dsm", PBool false);
     ("dtm", PBool false);
     ("skip-3dmodel", PBool true);
     ("skip-report", PBool true);
     ("force-gps", PBool true);
     ("gps-accuracy", PInt 10);
     ("pc-classify", PBool false)].

Definition preset_rapida : gmap string PyVal :=
  list_to_map
    [("feature-quality", PStr "medium");
     ("min-num-features", PInt 6000);
     ("matcher-neighbors", PInt 6);
     ("feature-type", PStr "sift");
     ("optimize-disk-space", PBool true);
     ("pc-quality", PStr "medium");
     ("pc-filter", PFloat (MkFloat 5 2));
     ("depthmap-resolution", PInt 384);
     ("dem-resolution", PStr "5");
     ("orthophoto-cutline", PBool true);
     ("use-3dmesh", PBool true);
     ("cog", PBool true);
     ("auto-boundary", PBool true);
     ("dsm", PBool false);
     ("dtm", PBool false);
     ("skip-3dmodel", PBool true);
     ("skip-report", PBool true);
     ("pc-classify", PBool false)].

(** [settings.ODM_QUALITY_PRESETS] *)
Definition ODM_QUALITY_PRESETS : list (string * gmap string PyVal) :=
  [("padrao", preset_padrao); ("alta", preset_alta);
   ("robusta", preset_robusta); ("rapida", preset_rapida)].

(** [d[k]] on the dict of presets *)
Fixpoint preset_de (k : string) (d : list (string * gmap string PyVal))
  : option (gmap string PyVal) :=
  match d with
  | [] => None
  | (k', p) :: r => if String.eqb k k' then Some p else preset_de k r
  end.

(** [config.get_active_preset], for a value of the environment variable
    ACTIVE_PRESET (or its default "padrao") *)
Definition get_active_preset (ACTIVE_PRESET : string) : M (gmap string PyVal) :=
  match preset_de ACTIVE_PRESET ODM_QUALITY_PRESETS with
  | None =>
      do _ <- log WARNING ("Preset '" +:+ ACTIVE_PRESET
                           +:+ "' não encontrado. Usando 'padrao'.");
      match preset_de "padrao" ODM_QUALITY_PRESETS with
      | Some p => ret p
      | None => raise "'padrao'"
      end
  | Some p => ret p
  end.

(** line 110 of config.py, run when the module is imported:
    [ortomosaico_preset = get_active_preset()] *)
Definition carregar_preset (ACTIVE_PRESET : string) : M unit :=
  do p <- get_active_preset ACTIVE_PRESET;
  fun s => (Ok tt, MkState (trace s) p (requisicoes s)).

(** a preset of settings.py, as shipped or after the six writes of a
    submission with the default resolution *)
Definition de_fabrica (p : gmap string PyVal) : Prop :=
  exists nome p0,
    preset_de nome ODM_QUALITY_PRESETS = Some p0 /\
    (p = p0 \/ exists id, p = aumenta id (MkFloat 5 1) p0).

Lemma preset_de_casos nome p0 :
  preset_de nome ODM_QUALITY_PRESETS = Some p0 ->
  p0 = preset_padrao \/ p0 = preset_alta \/ p0 = preset_robusta \/
  p0 = preset_rapida.
Proof.
  unfold ODM_QUALITY_PRESETS. simpl.
  repeat (destruct (String.eqb nome _); [intros [= <-]; auto|]). done.
Qed.

Lemma aumenta_de_novo id1 id2 f p0 :
  aumenta id2 f (aumenta id1 f p0) = aumenta id2 f p0.
Proof.
  apply map_eq. intros k. unfold aumenta.
  repeat (rewrite lookup_insert; case_decide; subst; try done).
Qed.

(** X9. The active preset.  [get_active_preset] never fails: it returns the
    preset that settings.py defines under the name ACTIVE_PRESET and logs
    nothing, or, for a name settings.py does not define, it logs one warning
    and returns the preset "padrao". *)
Theorem X9_active_preset_fallback (ACTIVE_PRESET : string) (s : State) :
  let y := get_active_preset ACTIVE_PRESET s in
  let evs := eventos (novos s y.2) in
  (exists p, y.1 = Ok p /\ de_fabrica p) /\
  (forall p, preset_de ACTIVE_PRESET ODM_QUALITY_PRESETS = Some p ->
     y.1 = Ok p /\ evs = []) /\
  (preset_de ACTIVE_PRESET ODM_QUALITY_PRESETS = None ->
     y.1 = Ok preset_padrao /\
     evs = [Log WARNING ("Preset '" +:+ ACTIVE_PRESET
                         +:+ "' não encontrado. Usando 'padrao'.")]) /\
  (ACTIVE_PRESET ∉ ["padrao"; "alta"; "robusta"; "rapida"] ->
   preset_de ACTIVE_PRESET ODM_QUALITY_PRESETS = None).
Proof.
  intros y evs. subst evs y. unfold get_active_preset.
  split; [|split; [|split]].
  - destruct (preset_de ACTIVE_PRESET ODM_QUALITY_PRESETS) as [p|] eqn:E.
    + exists p. split; [done|]. exists ACTIVE_PRESET, p. auto.
    + exists preset_padrao. split; [done|]. exists "padrao", preset_padrao. auto.
  - intros p ->. split; [done|]. unfold novos, ret. simpl.
    by rewrite drop_all.
  - intros ->. split; [done|]. by calc_novos.
  - intros H. repeat (rewrite not_elem_of_cons in H).
    destruct H as (H1 & H2 & H3 & H4 & _). simpl.
    apply String.eqb_neq in H1, H2, H3, H4. by rewrite H1, H2, H3, H4.
Qed.

(** X10. The options of every task.  In a process whose preset is one of
    settings.py, as shipped or as an earlier submission left it, a run of
    [processar_projeto] leaves such a preset again, and every task it asks
    the node for carries that shipped preset with the name of the project,
    orthophoto resolution 5.0, no GCP and projection EPSG:4326; DSM, DTM and
    point-cloud classification are off and the 3D model and the report are
    skipped.  The preset never holds SUPPORTED_IMAGE_EXTENSIONS, so the
    download always filters with the default extensions. *)
Theorem X10_task_options (env : Env) (fuel : nat) (id reg : string)
  (dados : option (gmap string PyVal)) (s : State) :
  de_fabrica (ortomosaico_preset s) ->
  let x := processar_projeto env fuel id reg dados s in
  let evs := eventos (novos s x.2) in
  de_fabrica (ortomosaico_preset x.2) /\
  (forall imgs o, CreateTask imgs o ∈ evs ->
     (exists nome p0, preset_de nome ODM_QUALITY_PRESETS = Some p0 /\
                      o = aumenta id (MkFloat 5 1) p0) /\
     o !! "name" = Some (PStr ("Projeto_" +:+ id)) /\
     o !! "orthophoto-resolution" = Some (PFloat (MkFloat 5 1)) /\
     o !! "projection" = Some (PStr "EPSG:4326") /\
     (forall k, k ∈ ["dsm"; "dtm"; "gcp"; "pc-classify"] ->
        o !! k = Some (PBool false)) /\
     (forall k, k ∈ ["skip-3dmodel"; "skip-report"] ->
        o !! k = Some (PBool true))) /\
  default (PList default_extensions)
          (ortomosaico_preset x.2 !! "SUPPORTED_IMAGE_EXTENSIONS")
    = PList default_extensions.
Proof.
  intros (nome & p0 & Hp0 & Hs) x evs.
  pose proof (preset_apos_corrida env fuel id reg dados s) as Hcasos.
  cbv zeta in Hcasos. fold x in Hcasos. fold evs in Hcasos.
  assert (float_de env (default (PInt 5)
            (ortomosaico_preset s !! "orthophoto-resolution"))
          = Returns (MkFloat 5 1)) as Hf.
  { destruct Hs as [->|[id0 ->]].
    - by destruct (preset_de_casos _ _ Hp0) as [->|[->|[->| ->]]].
    - unfold aumenta. repeat (rewrite lookup_insert_ne by done).
      by rewrite lookup_insert_eq. }
  assert (forall f, aumenta id f (ortomosaico_preset s) = aumenta id f p0) as Ha.
  { intros f. destruct Hs as [->|[id0 ->]]; [done|].
    destruct (decide (f = MkFloat 5 1)) as [->|Hne]; [apply aumenta_de_novo|].
    apply map_eq. intros k. unfold aumenta.
    repeat (rewrite lookup_insert; case_decide; subst; try done). }
  assert (forall imgs o, CreateTask imgs o ∈ evs ->
            o = aumenta id (MkFloat 5 1) p0 /\ ortomosaico_preset x.2 = o) as Ho.
  { intros imgs o Hin.
    destruct Hcasos as [E|[(_ & (msg & Hm) & _)|(f & imgs' & Hf' & E & _)]].
    - pose proof (processar_projeto_submete env id fuel reg dados s) as HR.
      fold x in HR.
      destruct (R_run_eventos env id _ _ _ _ HR Hin) as (d & s1 & Hp & Hc & Hfin).
      destruct (processar_bundle env d id s1 _ _ Hc) as (f & Hf' & -> & Hy).
      rewrite Hp in Hf'. rewrite Hf in Hf'. injection Hf' as <-.
      rewrite Hp, Ha. split; [done|]. by rewrite Hfin, Hy, Hp, Ha.
    - congruence.
    - rewrite Hf in Hf'. injection Hf' as <-.
      pose proof (processar_projeto_submete env id fuel reg dados s) as HR.
      fold x in HR.
      destruct (R_run_eventos env id _ _ _ _ HR Hin) as (d & s1 & Hp & Hc & Hfin).
      destruct (processar_bundle env d id s1 _ _ Hc) as (f & Hf' & -> & Hy).
      rewrite Hp in Hf'. rewrite Hf in Hf'. injection Hf' as <-.
      rewrite Hp, Ha. split; [done|]. by rewrite Hfin, Hy, Hp, Ha. }
  assert (de_fabrica (ortomosaico_preset x.2)) as Hfab.
  { destruct Hcasos as [->|[(_ & (msg & Hm) & _)|(f & imgs' & Hf' & -> & _)]].
    - by exists nome, p0.
    - congruence.
    - rewrite Hf in Hf'. injection Hf' as <-. rewrite Ha.
      exists nome, p0. split; [done|]. right. by exists id. }
  split; [exact Hfab|]. split.
  - intros imgs o Hin. destruct (Ho imgs o Hin) as [-> _].
    split; [by exists nome, p0|].
    unfold aumenta.
    split; [by repeat (rewrite lookup_insert; case_decide; try done)|].
    split; [by repeat (rewrite lookup_insert; case_decide; try done)|].
    split; [by repeat (rewrite lookup_insert; case_decide; try done)|].
    split.
    + intros k Hk. repeat (rewrite elem_of_cons in Hk). rewrite elem_of_nil in Hk.
      destruct (preset_de_casos _ _ Hp0) as [->|[->|[->| ->]]];
        destruct Hk as [->|[->|[->|[->|[]]]]];
        repeat (rewrite lookup_insert; case_decide; try done).
    + intros k Hk. repeat (rewrite elem_of_cons in Hk). rewrite elem_of_nil in Hk.
      destruct (preset_de_casos _ _ Hp0) as [->|[->|[->| ->]]];
        destruct Hk as [->|[->|[]]];
        repeat (rewrite lookup_insert; case_decide; try done).
  - destruct Hfab as (nome' & p' & Hp' & [->|[id' ->]]).
    + by destruct (preset_de_casos _ _ Hp') as [->|[->|[->| ->]]].
    + unfold aumenta. repeat (rewrite lookup_insert_ne by done).
      by destruct (preset_de_casos _ _ Hp') as [->|[->|[->| ->]]].
Qed.

Lemma X10_witness :
  let env := mundo duas_imagens concluida nenhuma in
  let x := processar_projeto env 1 "P1" "r1" None estado_inicial in
  de_fabrica (ortomosaico_preset x.2) /\
  default (PList default_extensions)
          (ortomosaico_preset x.2 !! "SUPPORTED_IMAGE_EXTENSIONS")
    = PList default_extensions.
Proof.
  intros env x.
  assert (de_fabrica (ortomosaico_preset estado_inicial)) as H0.
  { exists "padrao", preset_padrao. split; [reflexivity | left; reflexivity]. }
  destruct (X10_task_options env 1 "P1" "r1" None estado_inicial H0)
    as (H1 & _ & H3).
  split; [exact H1 | exact H3].
Defined.

(** ** The ledger across a run *)

(** [m] leaves the table [requisicoes] as it found it *)
Definition intacto {A} (m : M A) : Prop :=
  forall s, requisicoes (m s).2 = requisicoes s.

Create HintDb intacto.

Section Intacto.

Context {A B : Type}.

Lemma intacto_bind (m : M A) (k : A -> M B) :
  intacto m -> (forall a, intacto (k a)) -> intacto (bind m k).
Proof.
  intros Hm Hk s. unfold bind. specialize (Hm s).
  destruct (m s) as [[a|e|] s1]; simpl in *; [|done|done].
  by rewrite Hk.
Qed.

Lemma intacto_try (m : M A) (h : string -> M A) :
  intacto m -> (forall e, intacto (h e)) -> intacto (try_except m h).
Proof.
  intros Hm Hh s. unfold try_except. specialize (Hm s).
  destruct (m s) as [[a|e|] s1]; simpl in *; [done| |done].
  by rewrite Hh.
Qed.

Lemma intacto_ret (a : A) : intacto (ret a).
Proof. done. Qed.

Lemma intacto_raise e : intacto (raise e : M A).
Proof. done. Qed.

Lemma intacto_diverge : intacto (diverge : M A).
Proof. done. Qed.

Lemma intacto_ext e (o : list Item -> Outcome A) : intacto (ext e o).
Proof. intros s. unfold ext. by destruct (o _). Qed.

Lemma intacto_ask e (o : list Item -> A) : intacto (ask e o).
Proof. done. Qed.

End Intacto.

Lemma intacto_emit e : intacto (emit e).
Proof. done. Qed.

Lemma intacto_log n m : intacto (log n m).
Proof. done. Qed.

Lemma intacto_get_preset : intacto get_preset.
Proof. done. Qed.

Lemma intacto_set_preset k v : intacto (set_preset k v).
Proof. done. Qed.

#[global] Hint Resolve intacto_ret intacto_raise intacto_diverge intacto_ext
  intacto_ask intacto_emit intacto_log intacto_get_preset intacto_set_preset
  : intacto.

Ltac intacto_step :=
  lazymatch goal with
  | |- intacto (bind _ _) => apply intacto_bind; [| intros ?]
  | |- intacto (try_except _ _) => apply intacto_try; [| intros ?]
  | |- intacto (if ?b then _ else _) => destruct b
  | |- intacto (match ?x with _ => _ end) => destruct x
  end.

Ltac intacto_solve :=
  repeat first [ solve [eauto with intacto] | intacto_step ].

Section IntactoHandlers.

Context (env : Env).

Lemma intacto_get_project_temp_dir id : intacto (get_project_temp_dir env id).
Proof. unfold get_project_temp_dir. intacto_solve. Qed.

Lemma intacto_get_supabase_client : intacto (get_supabase_client env).
Proof. unfold get_supabase_client. intacto_solve. Qed.

Lemma intacto_task_info t : intacto (task_info env t).
Proof. unfold task_info. intacto_solve. Qed.

Hint Resolve intacto_get_project_temp_dir intacto_get_supabase_client
  intacto_task_info : intacto.

Lemma intacto_valid_files sup l : intacto (valid_files sup l).
Proof.
  induction l as [|f l IH]; simpl; [intacto_solve|]. unfold py_in. intacto_solve.
Qed.

Lemma intacto_baixar_cada id dir l n : intacto (baixar_cada env id dir l n).
Proof.
  revert n. induction l as [|f l IH]; intros n; simpl; [intacto_solve|].
  apply intacto_bind; [intacto_solve | intros; apply IH].
Qed.

Hint Resolve intacto_valid_files intacto_baixar_cada : intacto.

Lemma intacto_baixar_imagens id : intacto (baixar_imagens_projeto env id).
Proof. unfold baixar_imagens_projeto. intacto_solve. Qed.

Lemma intacto_enviar_ortomosaico id p :
  intacto (enviar_ortomosaico_para_bucket env id p).
Proof. unfold enviar_ortomosaico_para_bucket. intacto_solve. Qed.

Lemma intacto_enviar_metadados id p :
  intacto (enviar_metadados_para_bucket env id p).
Proof. unfold enviar_metadados_para_bucket. intacto_solve. Qed.

Lemma intacto_listar_imagens d l : intacto (listar_imagens env d l).
Proof. induction l as [|f l IH]; simpl; intacto_solve. Qed.

Hint Resolve intacto_listar_imagens : intacto.

Lemma intacto_processar_webodm d id : intacto (processar_imagens_webodm env d id).
Proof. unfold processar_imagens_webodm, py_float. intacto_solve. Qed.

Lemma intacto_wait fuel t i mr rt retry :
  intacto (wait_for_completion env fuel t i mr rt retry).
Proof.
  revert retry. induction fuel as [|fuel IH]; intros retry; simpl; [intacto_solve|].
  apply intacto_bind; [intacto_solve|]. intros [st|e|e]; [| |intacto_solve].
  - destruct (terminal st); [destruct st; intacto_solve|].
    apply intacto_bind; [intacto_solve | intros; apply IH].
  - destruct (retry <? mr); [|intacto_solve].
    apply intacto_bind; [intacto_solve | intros; apply IH].
Qed.

Hint Resolve intacto_wait : intacto.

Lemma intacto_aguardar fuel t : intacto (aguardar_processamento env fuel t).
Proof. unfold aguardar_processamento. intacto_solve. Qed.

Lemma intacto_baixar_resultados t id : intacto (baixar_resultados env t id).
Proof. unfold baixar_resultados. intacto_solve. Qed.

Lemma intacto_gerar_metadados id d p t opc n dados :
  intacto (gerar_metadados env id d p t opc n dados).
Proof. unfold gerar_metadados. intacto_solve. Qed.

Lemma intacto_enviar_webhook id st u m : intacto (enviar_webhook env id st u m).
Proof. unfold enviar_webhook. intacto_solve. Qed.

Lemma intacto_limpar id : intacto (limpar_arquivos_temporarios env id).
Proof. unfold limpar_arquivos_temporarios. intacto_solve. Qed.

End IntactoHandlers.

(** what a finished call does to the table: an update that returned [True]
    lays its payload over the record with the given key; nothing else
    changes the table *)
Definition aplica (reqs : gmap string (gmap string PyVal)) (c : Chamada)
  : gmap string (gmap string PyVal) :=
  match c with
  | C_atualizar id a b u (Returns true) =>
      alter (fun rec => update_data a b u ∪ rec) id reqs
  | _ => reqs
  end.

(** from [s] to [s'] the table changed by the finished calls, in order *)
Definition R_livro (s s' : State) : Prop :=
  exists t, trace s' = trace s ++ t /\
            requisicoes s' = foldl aplica (requisicoes s) (chamadas t).

Lemma R_livro_refl s : R_livro s s.
Proof. exists []. by rewrite app_nil_r. Qed.

Lemma R_livro_trans s1 s2 s3 : R_livro s1 s2 -> R_livro s2 s3 -> R_livro s1 s3.
Proof.
  intros (t1 & E1 & H1) (t2 & E2 & H2). exists (t1 ++ t2).
  split; [by rewrite E2, E1, app_assoc|].
  by rewrite chamadas_app, foldl_app, <- H1.
Qed.

Definition contabil {A} (m : M A) : Prop := forall s, R_livro s (m s).2.

Create HintDb contabil.

Section Contabil.

Context {A B : Type}.

Lemma contabil_bind (m : M A) (k : A -> M B) :
  contabil m -> (forall a, contabil (k a)) -> contabil (bind m k).
Proof.
  intros Hm Hk s. unfold bind. specialize (Hm s).
  destruct (m s) as [[a|e|] s1]; simpl in *; [|done|done].
  eapply R_livro_trans; [exact Hm | apply Hk].
Qed.

Lemma contabil_try (m : M A) (h : string -> M A) :
  contabil m -> (forall e, contabil (h e)) -> contabil (try_except m h).
Proof.
  intros Hm Hh s. unfold try_except. specialize (Hm s).
  destruct (m s) as [[a|e|] s1]; simpl in *; [done| |done].
  eapply R_livro_trans; [exact Hm | apply Hh].
Qed.

Lemma contabil_ret (a : A) : contabil (ret a).
Proof. intros s. apply R_livro_refl. Qed.

(** a call of a handler that does not touch the table *)
Lemma contabil_chamar (c : Outcome A -> Chamada) (m : M A) :
  (forall r, regular (pegada (c r)) m) ->
  (forall r reqs, aplica reqs (c r) = reqs) ->
  intacto m -> contabil (chamar c m).
Proof.
  intros Hreg Hc Hm s. unfold chamar.
  destruct (Hreg (Throws EmptyString) s) as (evs & E & _). specialize (Hm s).
  destruct (m s) as [[a|e|] s1]; simpl in *.
  - exists ((IO <$> evs) ++ [Call (c (Returns a))]). simpl.
    split; [by rewrite E, app_assoc|].
    by rewrite chamadas_app, chamadas_IO, Hm; simpl; rewrite Hc.
  - exists ((IO <$> evs) ++ [Call (c (Throws e))]). simpl.
    split; [by rewrite E, app_assoc|].
    by rewrite chamadas_app, chamadas_IO, Hm; simpl; rewrite Hc.
  - exists (IO <$> evs). split; [done|]. by rewrite chamadas_IO.
Qed.

End Contabil.

Lemma contabil_log n m : contabil (log n m).
Proof. intros s. exists [IO (Log n m)]. done. Qed.

#[global] Hint Resolve contabil_ret contabil_log : contabil.

Section Livro.

Context (env : Env) (id : string).

Lemma contabil_h_atualizar reg a b u : contabil (h_atualizar env reg a b u).
Proof.
  intros s. unfold h_atualizar, chamar.
  destruct (atualizar_regular env reg a b u (Throws EmptyString) s) as (evs & E & _).
  pose proof (atualizar_requisicoes env s reg a b u) as Hr.
  pose proof (atualizar_nao_levanta env reg a b u s) as Hn.
  destruct (atualizar_registro_requisicao env reg a b u s) as [[ok|e|] s1];
    simpl in *.
  - exists ((IO <$> evs) ++ [Call (C_atualizar reg a b u (Returns ok))]). simpl.
    split; [by rewrite E, app_assoc|].
    rewrite chamadas_app, chamadas_IO, Hr. simpl. by destruct ok.
  - by destruct (Hn e).
  - exists (IO <$> evs). split; [done|]. by rewrite chamadas_IO.
Qed.

Lemma contabil_h_baixar_imagens : contabil (h_baixar_imagens env id).
Proof.
  apply contabil_chamar; [intros; apply baixar_imagens_regular | done
                         | apply intacto_baixar_imagens].
Qed.

Lemma contabil_h_webhook st u m : contabil (h_webhook env id st u m).
Proof.
  apply contabil_chamar; [intros; apply enviar_webhook_regular | done
                         | apply intacto_enviar_webhook].
Qed.

Lemma contabil_h_limpar : contabil (h_limpar env id).
Proof.
  apply contabil_chamar; [intros; apply limpar_regular | done
                         | apply intacto_limpar].
Qed.

Lemma contabil_h_processar d : contabil (h_processar_webodm env d id).
Proof.
  apply contabil_chamar; [intros; apply processar_webodm_regular | done
                         | apply intacto_processar_webodm].
Qed.

Lemma contabil_h_aguardar fuel t : contabil (h_aguardar env fuel t).
Proof.
  apply contabil_chamar; [intros; by apply aguardar_regular | done
                         | apply intacto_aguardar].
Qed.

Lemma contabil_h_baixar_resultados t : contabil (h_baixar_resultados env t id).
Proof.
  apply contabil_chamar; [intros; apply baixar_resultados_regular | done
                         | apply intacto_baixar_resultados].
Qed.

Lemma contabil_h_gerar_metadados d p t n dados :
  contabil (h_gerar_metadados env id d p t n dados).
Proof.
  apply contabil_chamar.
  - intros. apply regular_bind; [apply regular_get_preset|]. intros.
    apply gerar_metadados_regular.
  - done.
  - apply intacto_bind; [done|]. intros. apply intacto_gerar_metadados.
Qed.

Lemma contabil_h_enviar_ortomosaico p : contabil (h_enviar_ortomosaico env id p).
Proof.
  apply contabil_chamar; [intros; apply enviar_ortomosaico_regular | done
                         | apply intacto_enviar_ortomosaico].
Qed.

Lemma contabil_h_enviar_metadados p : contabil (h_enviar_metadados env id p).
Proof.
  apply contabil_chamar; [intros; apply enviar_metadados_regular | done
                         | apply intacto_enviar_metadados].
Qed.

Hint Resolve contabil_h_atualizar contabil_h_baixar_imagens contabil_h_webhook
  contabil_h_limpar contabil_h_processar contabil_h_aguardar
  contabil_h_baixar_resultados contabil_h_gerar_metadados
  contabil_h_enviar_ortomosaico contabil_h_enviar_metadados : contabil.

Local Ltac contabil_step :=
  lazymatch goal with
  | |- contabil (bind _ _) => apply contabil_bind; [| intros ?]
  | |- contabil (try_except _ _) => apply contabil_try; [| intros ?]
  | |- contabil (if ?b then _ else _) => destruct b
  | |- contabil (match ?x with _ => _ end) => destruct x
  end.

Lemma processar_projeto_contabil fuel reg dados :
  contabil (processar_projeto env fuel id reg dados).
Proof.
  unfold processar_projeto.
  repeat first [ solve [eauto with contabil] | contabil_step ].
Qed.

End Livro.

(** the updates of a list of calls all target the record [reg] *)
Definition so_registro (reg : string) (c : Chamada) : bool :=
  match c with
  | C_atualizar id _ _ _ _ => String.eqb id reg
  | _ => true
  end.

Lemma caminho_so_registro id reg r cs :
  Caminho id reg r cs -> forallb (so_registro reg) cs = true.
Proof.
  intros HC. destruct HC; subst;
    unfold ch_baixou, ch_publicou, ch_inicio, ch_erro, ch_meta;
    repeat (rewrite forallb_app; simpl); simpl; rewrite ?String.eqb_refl;
    try done;
    match goal with
    | |- context [truthy ?c] => by destruct (truthy c)
    end.
Qed.

Lemma aplica_fora reg cs reqs k :
  forallb (so_registro reg) cs = true -> k <> reg ->
  foldl aplica reqs cs !! k = reqs !! k.
Proof.
  revert reqs. induction cs as [|c cs IH]; intros reqs F Hk; [done|].
  simpl in F. apply andb_prop in F as [Fc F]. simpl. rewrite IH by done.
  destruct c; try done. simpl in Fc. apply String.eqb_eq in Fc. subst.
  destruct r as [[|]|]; try done. simpl. by rewrite lookup_alter_ne.
Qed.

Lemma aplica_dom cs reqs k :
  is_Some (foldl aplica reqs cs !! k) <-> is_Some (reqs !! k).
Proof.
  revert reqs. induction cs as [|c cs IH]; intros reqs; [done|].
  simpl. rewrite IH. destruct c; try done.
  destruct r as [[|]|]; try done. simpl.
  destruct (decide (k = id_registro)) as [->|Hne].
  - rewrite lookup_alter_eq. apply fmap_is_Some.
  - by rewrite lookup_alter_ne.
Qed.

(** X11. The ledger after a run.  The table [requisicoes] a run leaves is
    the table it found, changed by the calls of
    [atualizar_registro_requisicao] that returned True, in the order they
    were made, and by nothing else.  All of them target the record of the
    run: every other record is as before, and no record appears or
    disappears. *)
Theorem X11_ledger_after_run (env : Env) (fuel : nat) (id reg : string)
  (dados : option (gmap string PyVal)) (s : State) :
  let x := processar_projeto env fuel id reg dados s in
  requisicoes x.2 = foldl aplica (requisicoes s) (chamadas (novos s x.2)) /\
  (forall c, c ∈ chamadas (novos s x.2) -> so_registro reg c = true) /\
  (forall k, k <> reg -> requisicoes x.2 !! k = requisicoes s !! k) /\
  (forall k, is_Some (requisicoes x.2 !! k) <-> is_Some (requisicoes s !! k)).
Proof.
  intros x.
  destruct (processar_projeto_contabil env id fuel reg dados s) as (t & Et & Hr).
  fold x in Et, Hr. rewrite (novos_app _ _ _ Et).
  pose proof (run_caminho env fuel id reg dados s) as HC.
  fold x in HC. rewrite (novos_app _ _ _ Et) in HC.
  apply caminho_so_registro in HC.
  split; [done|]. split; [|split].
  - intros c Hc. rewrite forallb_forall in HC. by apply HC, list_elem_of_In.
  - intros k Hk. rewrite Hr. by apply (aplica_fora reg).
  - intros k. rewrite Hr. apply aplica_dom.
Qed.

(** the last value that the successful updates of [cs] supplied for the
    column [k] *)
Fixpoint ultimo_valor (k : string) (cs : list Chamada) : option string :=
  match cs with
  | [] => None
  | c :: r =>
      match ultimo_valor k r with
      | Some v => Some v
      | None =>
          match c with
          | C_atualizar _ a b u (Returns true) => campo k a b u
          | _ => None
          end
      end
  end.

Lemma aplica_registro reg cs reqs rec0 k :
  forallb (so_registro reg) cs = true -> reqs !! reg = Some rec0 ->
  exists rec, foldl aplica reqs cs !! reg = Some rec /\
    rec !! k = match ultimo_valor k cs with
               | Some v => Some (PStr v)
               | None => rec0 !! k
               end.
Proof.
  revert reqs rec0. induction cs as [|c cs IH]; intros reqs rec0 F H0.
  { exists rec0. done. }
  simpl in F. apply andb_prop in F as [Fc F]. simpl.
  assert (exists rec1, aplica reqs c !! reg = Some rec1 /\
            rec1 !! k = match (match c with
                               | C_atualizar _ a b u (Returns true) => campo k a b u
                               | _ => None
                               end) with
                        | Some v => Some (PStr v)
                        | None => rec0 !! k
                        end) as (rec1 & H1 & Hk).
  { destruct c; try (by exists rec0). simpl in Fc. apply String.eqb_eq in Fc.
    subst. destruct r as [[|]|]; try (by exists rec0). simpl.
    exists (update_data id_wl status_orto url ∪ rec0).
    rewrite lookup_alter_eq, H0. split; [done|].
    rewrite lookup_union, update_data_lookup.
    destruct (campo k id_wl status_orto url); simpl; by destruct (rec0 !! k). }
  destruct (IH _ _ F H1) as (rec & Hrec & Hv). exists rec. split; [done|].
  rewrite Hv. destruct (ultimo_valor k cs); [done|]. exact Hk.
Qed.

Lemma ultimo_valor_outro k cs :
  k ∉ ["id_wl"; "status_orto"; "url_ortomosaico"] -> ultimo_valor k cs = None.
Proof.
  intros Hk. repeat (rewrite not_elem_of_cons in Hk).
  destruct Hk as (? & ? & ? & _).
  induction cs as [|c cs IH]; [done|]. simpl. rewrite IH.
  destruct c; try done. destruct r as [[|]|]; try done.
  unfold campo. by repeat case_decide.
Qed.

Lemma ultimo_valor_app k cs1 cs2 :
  ultimo_valor k (cs1 ++ cs2) =
    match ultimo_valor k cs2 with
    | Some v => Some v
    | None => ultimo_valor k cs1
    end.
Proof.
  induction cs1 as [|c cs1 IH]; simpl; [by destruct (ultimo_valor k cs2)|].
  rewrite IH. by destruct (ultimo_valor k cs2).
Qed.

(** X12. The record of a run, by the way the run ends.  A run changes at
    most the columns id_wl, status_orto and url_ortomosaico of its record.
    When it returns True the record holds status "Sucesso" and a mosaic URL
    that is not empty, the very URL given to the success webhook.  When it
    does not return True the mosaic URL is the one the record held before,
    and the status is either unchanged or a text that begins with "Erro: ";
    while the run is still waiting for the node the status is unchanged. *)
Theorem X12_record_after_run (env : Env) (fuel : nat) (id reg : string)
  (dados : option (gmap string PyVal)) (s : State) (rec0 : gmap string PyVal) :
  requisicoes s !! reg = Some rec0 ->
  let x := processar_projeto env fuel id reg dados s in
  exists rec,
    requisicoes x.2 !! reg = Some rec /\
    (forall k, k ∉ ["id_wl"; "status_orto"; "url_ortomosaico"] ->
       rec !! k = rec0 !! k) /\
    (x.1 = Ok true ->
     rec !! "status_orto" = Some (PStr "Sucesso") /\
     exists url b,
       truthy (Some url) = true /\
       rec !! "url_ortomosaico" = Some (PStr url) /\
       C_webhook id "sucesso" (Some url) None (Returns b)
         ∈ chamadas (novos s x.2)) /\
    (x.1 <> Ok true ->
     rec !! "url_ortomosaico" = rec0 !! "url_ortomosaico" /\
     (rec !! "status_orto" = rec0 !! "status_orto" \/
      exists msg, rec !! "status_orto" = Some (PStr ("Erro: " +:+ msg)))) /\
    (x.1 = Diverge -> rec !! "status_orto" = rec0 !! "status_orto").
Proof.
  intros H0 x.
  destruct (processar_projeto_contabil env id fuel reg dados s) as (t & Et & Hr).
  fold x in Et, Hr.
  pose proof (run_caminho env fuel id reg dados s) as HC.
  fold x in HC. rewrite (novos_app _ _ _ Et) in *.
  pose proof (caminho_so_registro _ _ _ _ HC) as F.
  assert (forall k, exists rec, requisicoes x.2 !! reg = Some rec /\
            rec !! k = match ultimo_valor k (chamadas t) with
                       | Some v => Some (PStr v)
                       | None => rec0 !! k
                       end) as Hk.
  { intros k. rewrite Hr. by apply aplica_registro. }
  destruct (Hk "status_orto") as (rec & Hrec & Hst).
  exists rec. split; [done|].
  assert (forall k, rec !! k = match ultimo_valor k (chamadas t) with
                               | Some v => Some (PStr v)
                               | None => rec0 !! k
                               end) as Hv.
  { intros k. destruct (Hk k) as (rec' & Hrec' & Hv).
    rewrite Hrec in Hrec'. by injection Hrec' as <-. }
  clear Hk Hst. split.
  { intros k Hk. by rewrite Hv, ultimo_valor_outro. }
  rewrite (Hv "status_orto"), (Hv "url_ortomosaico").
  revert HC. generalize (chamadas t) (x.1). clear. intros cs r HC.
  destruct HC; subst;
    unfold ch_baixou, ch_publicou, ch_inicio, ch_erro, ch_meta;
    simpl; repeat (rewrite ultimo_valor_app; simpl);
    repeat match goal with
           | |- context [if ?b then _ else _] => destruct b eqn:?; simpl
           end;
    unfold campo; simpl;
    (split; [intros ?|split; intros ?]); try done; eauto.
  all: split; [done|].
  all: destruct url as [url|]; [|done].
  all: exists url, b2; split; [done|]; split; [done|].
  all: apply list_elem_of_In; simpl; auto 20.
Qed.

Lemma X12_witness :
  let env := mundo duas_imagens concluida nenhuma in
  let x := processar_projeto env 1 "P1" "r1" None estado_inicial in
  exists rec,
    requisicoes x.2 !! "r1" = Some rec /\
    (x.1 = Ok true -> rec !! "status_orto" = Some (PStr "Sucesso")).
Proof.
  intros env x.
  assert (requisicoes estado_inicial !! "r1" =
            Some (<["id_projeto" := PStr "P1"]>
                    (<["status_orto" := PStr "Processando"]> ∅))) as H0
    by reflexivity.
  destruct (X12_record_after_run env 1 "P1" "r1" None estado_inicial _ H0)
    as (rec & H1 & _ & H3 & _).
  exists rec. split; [exact H1|]. intros H. by apply H3.
Defined.

(** ** The wait for the node *)

Definition e_info (e : IOEvent) : bool :=
  match e with
  | TaskInfo _ => true
  | _ => false
  end.

(** the number of status checks of a trace *)
Definition n_info (t : list Item) : nat :=
  length (List.filter e_info (eventos t)).

Lemma n_info_app t1 t2 : n_info (t1 ++ t2) = (n_info t1 + n_info t2)%nat.
Proof. unfold n_info. by rewrite eventos_app, List.filter_app, length_app. Qed.

Section Polling.

Context (env : Env) (t : Task) (estado : nat -> TaskStatus).

(** the loop of the library on a task that answers every check: [k] turns
    with a status that is not terminal, then COMPLETED *)
Lemma wait_k k : forall fuel mr rt retry j s,
  (forall l, o_task_info env (trace s ++ l) = InfoOk (estado (j + n_info l))) ->
  (forall i, (1 <= i <= k)%nat -> terminal (estado (j + i)) = false) ->
  estado (j + S k) = COMPLETED ->
  (k < fuel)%nat ->
  let y := wait_for_completion env fuel t 30 mr rt retry s in
  y.1 = Ok tt /\
  trace y.2 = trace s ++ (IO <$> concat (replicate k (volta t)) ++ [TaskInfo (uuid t)]) /\
  ortomosaico_preset y.2 = ortomosaico_preset s /\
  requisicoes y.2 = requisicoes s.
Proof.
  induction k as [|k IH]; intros fuel mr rt retry j s Ho Hrun Hc Hfuel;
    (destruct fuel as [|fuel]; [lia|]).
  - cbn [wait_for_completion]. unfold bind, ask. cbn [fst snd].
    replace (trace (registrar (IO (TaskInfo (uuid t))) s))
      with (trace s ++ [IO (TaskInfo (uuid t))]) by done.
    rewrite Ho. replace (j + n_info [IO (TaskInfo (uuid t))])%nat with (j + 1)%nat
      by done.
    rewrite Hc. done.
  - cbn [wait_for_completion]. unfold bind, ask, emit. cbn [fst snd].
    replace (trace (registrar (IO (TaskInfo (uuid t))) s))
      with (trace s ++ [IO (TaskInfo (uuid t))]) by done.
    rewrite Ho. replace (j + n_info [IO (TaskInfo (uuid t))])%nat with (j + 1)%nat
      by done.
    rewrite (Hrun 1%nat) by lia.
    set (s1 := registrar (IO (Sleep 30)) (registrar (IO (TaskInfo (uuid t))) s)).
    destruct (IH fuel mr rt 0 (S j) s1) as (E1 & E2 & E3 & E4).
    + intros l. subst s1. simpl. rewrite <- !app_assoc. rewrite Ho.
      f_equal. f_equal. unfold n_info. simpl. lia.
    + intros i Hi. replace (S j + i)%nat with (j + S i)%nat by lia.
      apply Hrun. lia.
    + by replace (S j + S k)%nat with (j + S (S k))%nat by lia.
    + lia.
    + cbv zeta in E1, E2, E3, E4.
      destruct (wait_for_completion env fuel t 30 mr rt 0 s1) as [r s2].
      simpl in *. split; [done|]. split; [|done].
      rewrite E2. subst s1. simpl. by rewrite <- !app_assoc.
Qed.

End Polling.

(** X13. The wait on a task that completes.  When the node answers every
    status check, with a status that is not terminal at the first [k] checks
    and COMPLETED at the next one, [aguardar_processamento] pauses [k] times
    for 30 seconds, then checks the status once more, and reports the status
    of that last check, [k + 2] checks in all: success is decided by the
    check made after the wait, not by the one that ended it. *)
Theorem X13_wait_polls (env : Env) (t : Task) (estado : nat -> TaskStatus)
  (k fuel : nat) (s : State) :
  (forall l, o_task_info env (trace s ++ l) = InfoOk (estado (n_info l))) ->
  (forall i, (1 <= i <= k)%nat -> terminal (estado i) = false) ->
  estado (S k) = COMPLETED ->
  (k < fuel)%nat ->
  let y := aguardar_processamento env fuel t s in
  let final := status_name (estado (S (S k))) in
  y.1 = Ok (final, String.eqb final "COMPLETED") /\
  eventos (novos s y.2) =
    concat (replicate k [TaskInfo (uuid t); Sleep 30])
    ++ [TaskInfo (uuid t); TaskInfo (uuid t)].
Proof.
  intros Ho Hrun Hc Hfuel y final. subst y final.
  destruct (wait_k env t estado k fuel (64800 / 30) 5 0 0%nat s)
    as (E1 & E2 & _); try done.
  unfold aguardar_processamento, try_except, bind, task_info, bind, ask.
  destruct (wait_for_completion env fuel t 30 (64800 / 30) 5 0 s) as [r s1].
  cbn [fst snd] in *. subst r. cbn [fst snd].
  replace (trace (registrar (IO (TaskInfo (uuid t))) s1))
    with (trace s ++ ((IO <$> concat (replicate k (volta t)) ++ [TaskInfo (uuid t)])
                      ++ [IO (TaskInfo (uuid t))]))
    by (simpl; rewrite E2; by rewrite <- !app_assoc).
  rewrite Ho.
  replace (n_info ((IO <$> concat (replicate k (volta t)) ++ [TaskInfo (uuid t)])
                   ++ [IO (TaskInfo (uuid t))])) with (S (S k)).
  2:{ rewrite n_info_app. unfold n_info. rewrite eventos_IO, List.filter_app.
      rewrite length_app. simpl.
      assert (length (List.filter e_info (concat (replicate k (volta t)))) = k) as ->.
      { clear. induction k as [|k IH]; [done|]. simpl. by rewrite IH. }
      lia. }
  unfold ret. cbn [fst snd]. split; [done|].
  assert (trace (registrar (IO (TaskInfo (uuid t))) s1) =
            trace s ++ (IO <$> (concat (replicate k (volta t))
                                ++ [TaskInfo (uuid t); TaskInfo (uuid t)]))) as E.
  { simpl. rewrite E2, <- app_assoc. f_equal. rewrite !fmap_app.
    by rewrite <- app_assoc. }
  by rewrite (novos_app _ _ _ E), eventos_IO.
Qed.

(** the status at each check of a task that runs for two checks *)
Definition duas_voltas (i : nat) : TaskStatus :=
  if (i <=? 2)%nat then RUNNING else COMPLETED.

Lemma X13_witness :
  let env := mundo duas_imagens (fun tr => InfoOk (duas_voltas (n_info tr)))
                   nenhuma in
  let y := aguardar_processamento env 3 (MkTask "task-1") estado_inicial in
  y.1 = Ok ("COMPLETED", true) /\
  eventos (novos estado_inicial y.2) =
    [TaskInfo "task-1"; Sleep 30; TaskInfo "task-1"; Sleep 30;
     TaskInfo "task-1"; TaskInfo "task-1"].
Proof.
  apply (X13_wait_polls
           (mundo duas_imagens (fun tr => InfoOk (duas_voltas (n_info tr))) nenhuma)
           (MkTask "task-1") duas_voltas 2 3 estado_inicial).
  - intros l. reflexivity.
  - intros i Hi. destruct i as [|[|[|i]]]; [lia | reflexivity | reflexivity | lia].
  - reflexivity.
  - lia.
Defined.

(** the checks and pauses of the library loop while the node cannot be
    reached, from the retry count [retry], [n] retries being left *)
Fixpoint tentativas (u : string) (rt retry : Z) (n : nat) : list IOEvent :=
  match n with
  | O => [TaskInfo u]
  | S n => TaskInfo u :: Sleep ((retry + 1) * rt) :: tentativas u rt (retry + 1) n
  end.

(** the seconds slept in a list of events *)
Fixpoint pausas (evs : list IOEvent) : Z :=
  match evs with
  | [] => 0
  | Sleep n :: r => n + pausas r
  | _ :: r => pausas r
  end.

Lemma wait_sem_conexao env t msg n : forall fuel mr rt retry s,
  (forall tr, o_task_info env tr = InfoConnError msg) ->
  retry + Z.of_nat n = mr -> (n < fuel)%nat ->
  let y := wait_for_completion env fuel t 30 mr rt retry s in
  y.1 = Raise msg /\
  trace y.2 = trace s ++ (IO <$> tentativas (uuid t) rt retry n).
Proof.
  induction n as [|n IH]; intros fuel mr rt retry s Ho Hmr Hfuel;
    (destruct fuel as [|fuel]; [lia|]);
    cbn [wait_for_completion]; unfold bind, ask, emit, raise; cbn [fst snd];
    rewrite Ho.
  - replace (retry <? mr) with false by (symmetry; apply Z.ltb_ge; lia). done.
  - replace (retry <? mr) with true by (symmetry; apply Z.ltb_lt; lia).
    match goal with
    | |- context [wait_for_completion env fuel t 30 mr rt (retry + 1) ?s1] =>
        destruct (IH fuel mr rt (retry + 1) s1) as [E1 E2]; [done|lia|lia|];
        cbv zeta in E1, E2;
        destruct (wait_for_completion env fuel t 30 mr rt (retry + 1) s1)
          as [r s2]
    end.
    simpl in *. split; [done|]. rewrite E2. by rewrite <- !app_assoc.
Qed.

(** X14. The wait on a node that cannot be reached.  When every status
    check fails to connect, [aguardar_processamento] gives up only after
    2161 checks, having paused 5, 10, 15, ... up to 10800 seconds between
    them, 11 669 400 seconds in all (some 135 days), and then reports
    ("FAILED", False) after logging the error: the 64800 // 30 passed as
    [max_retries] bounds these retries.  (The loop is pyodm's
    [Task.wait_for_completion].) *)
Theorem X14_wait_unreachable (env : Env) (t : Task) (msg : string)
  (fuel : nat) (s : State) :
  (forall tr, o_task_info env tr = InfoConnError msg) ->
  (2161 <= fuel)%nat ->
  let y := aguardar_processamento env fuel t s in
  let evs := eventos (novos s y.2) in
  y.1 = Ok ("FAILED", false) /\
  evs = tentativas (uuid t) 5 0 2160
        ++ [Log ERROR ("Erro ao aguardar processamento: " +:+ msg)] /\
  length (List.filter e_info evs) = 2161%nat /\
  pausas evs = 11669400.
Proof.
  intros Ho Hfuel y evs.
  assert (y.1 = Ok ("FAILED", false) /\
          evs = tentativas (uuid t) 5 0 2160
                ++ [Log ERROR ("Erro ao aguardar processamento: " +:+ msg)])
    as [Hy Hevs].
  { subst evs y.
    destruct (wait_sem_conexao env t msg 2160 fuel (64800 / 30) 5 0 s Ho)
      as [E1 E2]; [done|lia|].
    unfold aguardar_processamento, try_except, bind. cbv zeta in E1, E2.
    destruct (wait_for_completion env fuel t 30 (64800 / 30) 5 0 s) as [r s1].
    cbn [fst snd] in *. subst r. unfold log, emit, ret. cbn [fst snd].
    split; [done|].
    assert (trace (registrar (IO (Log ERROR ("Erro ao aguardar processamento: "
                                            +:+ msg))) s1) =
            trace s ++ (IO <$> (tentativas (uuid t) 5 0 2160 ++
                     [Log ERROR ("Erro ao aguardar processamento: " +:+ msg)])))
      as E.
    { cbn [trace registrar]. rewrite E2, <- app_assoc. by rewrite fmap_app. }
    by rewrite (novos_app _ _ _ E), eventos_IO. }
  split; [done|]. split; [done|]. rewrite Hevs. clear.
  generalize (uuid t). intros u. split; vm_compute; reflexivity.
Qed.

Lemma X14_witness :
  let env := mundo duas_imagens (fun _ => InfoConnError "connection refused")
                   nenhuma in
  let y := aguardar_processamento env 2161 (MkTask "task-1") estado_inicial in
  y.1 = Ok ("FAILED", false) /\
  pausas (eventos (novos estado_inicial y.2)) = 11669400.
Proof.
  intros env y.
  destruct (X14_wait_unreachable env (MkTask "task-1") "connection refused"
              2161 estado_inicial (fun _ => eq_refl) (le_n _))
    as (H1 & _ & _ & H4).
  split; [exact H1 | exact H4].
Defined.

(** ** How a run ends *)





(** ** Results and publication *)

Section Publication.

Local Arguments path_join : simpl never.

(** X16. Retrieval of the results.  [baixar_resultados] returns either
    [(None, False)] or, with True, the fixed path
    "<project dir>/resultados/odm_orthophoto.tif"; it returns the path
    exactly when it created both directories, downloaded the assets of the
    task into "resultados", found "odm_orthophoto/odm_orthophoto.tif" there
    and copied it to the fixed path, these five steps being all it did.
    Nothing is copied unless the existence test answered yes. *)
Theorem X16_results_retrieval (env : Env) (t : Task) (id : string) (s : State) :
  let y := baixar_resultados env t id s in
  let evs := eventos (novos s y.2) in
  let proj := path_join (TEMP_DIR env) id in
  let dir := path_join proj "resultados" in
  let original := path_join (path_join dir "odm_orthophoto") "odm_orthophoto.tif" in
  let final := path_join dir "odm_orthophoto.tif" in
  (y.1 = Ok (None, false) \/ y.1 = Ok (Some final, true)) /\
  (y.1 = Ok (Some final, true) <->
   evs = [Makedirs proj; Makedirs dir; DownloadAssets (uuid t) dir;
          PathExists original; Copy2 original final]) /\
  (forall src dst, Copy2 src dst ∈ evs ->
     src = original /\ dst = final /\
     o_exists env (trace s ++ [IO (Makedirs proj); IO (Makedirs dir);
                               IO (DownloadAssets (uuid t) dir);
                               IO (PathExists original)]) = true).
Proof.
  intros y evs proj dir original final. subst evs y proj dir original final.
  unfold baixar_resultados, get_project_temp_dir, try_except, bind,
    ask, ext, log, emit, raise, ret.
  simpl. split; [|split].
  - casos_oraculo env; auto.
  - casos_oraculo env; calc_novos; split; intros H; done.
  - intros src dst.
    destruct (o_makedirs env _); simpl; [|calc_novos; intros H; casos_in].
    destruct (o_makedirs env _); simpl; [|calc_novos; intros H; casos_in].
    destruct (o_download_assets env _); simpl; [|calc_novos; intros H; casos_in].
    rewrite <- !app_assoc. simpl.
    destruct (o_exists env _) eqn:Ee; simpl; [|calc_novos; intros H; casos_in].
    casos_oraculo env; calc_novos; intros H; casos_in; done.
Qed.

(** X17. Publication of the metadata.  [enviar_metadados_para_bucket]
    always returns a boolean.  It writes to the bucket at most once, at
    "<id>/metadados.txt" of bucket "Ortomosaicos" as text/plain, and only
    after the existence test of the local file answered yes; it returns True
    exactly when the client was created, the file was found, opened and
    uploaded, these four steps being all it did. *)
Theorem X17_metadata_publication (env : Env) (id p : string) (s : State) :
  let y := enviar_metadados_para_bucket env id p s in
  let evs := eventos (novos s y.2) in
  let envio := StorageUpload "Ortomosaicos" (id +:+ "/metadados.txt")
                             (Some "text/plain") in
  (exists b, y.1 = Ok b) /\
  (y.1 = Ok true <-> evs = [CreateClient; PathExists p; OpenRead p; envio]) /\
  (forall b q ct, StorageUpload b q ct ∈ evs ->
     StorageUpload b q ct = envio /\
     o_exists env (trace s ++ [IO CreateClient; IO (PathExists p)]) = true).
Proof.
  intros y evs envio. subst evs y envio.
  unfold enviar_metadados_para_bucket, try_except, bind, get_supabase_client,
    try_except, ask, ext, log, emit, raise, ret.
  simpl. split; [|split].
  - casos_oraculo env; eauto.
  - casos_oraculo env; calc_novos; split; intros H; done.
  - intros b q ct.
    destruct (o_create_client env _); simpl; [|calc_novos; intros H; casos_in].
    rewrite <- !app_assoc. simpl.
    destruct (o_exists env _) eqn:Ee; simpl; [|calc_novos; intros H; casos_in].
    casos_oraculo env; calc_novos; intros H; casos_in; done.
Qed.

(** X18. Publication of the mosaic.  [enviar_ortomosaico_para_bucket]
    returns either [(None, False)] or a URL with True.  The URL is the
    answer of the bucket to the request for the public URL of
    "<id>/odm_ortophoto.tif", which is the last step of the call and comes
    after the file was opened and uploaded to that path as image/tiff.  The
    bucket is contacted only after the existence test of the local file
    answered yes. *)
Theorem X18_mosaic_publication (env : Env) (id p : string) (s : State) :
  let y := enviar_ortomosaico_para_bucket env id p s in
  let evs := eventos (novos s y.2) in
  let destino := id +:+ "/odm_ortophoto.tif" in
  (y.1 = Ok (None, false) \/ exists url, y.1 = Ok (Some url, true)) /\
  (forall url, y.1 = Ok (Some url, true) ->
     o_get_public_url env (trace y.2) = Returns url /\
     exists antes,
       evs = antes ++ [OpenRead p;
                       StorageUpload "Ortomosaicos" destino (Some "image/tiff");
                       GetPublicUrl "Ortomosaicos" destino]) /\
  (forall e, e ∈ evs ->
     match e with
     | GetPublicUrl _ _ | StorageUpload _ _ _ | OpenRead _ | OpenWrite _
     | Remove _ =>
         o_exists env (trace s ++ [IO CreateClient; IO (PathExists p)]) = true
     | _ => True
     end).
Proof.
  intros y evs destino. subst evs y destino.
  unfold enviar_ortomosaico_para_bucket, try_except, bind, get_supabase_client,
    try_except, ask, ext, log, emit, raise, ret.
  simpl. split; [|split].
  - casos_oraculo env; eauto.
  - intros url. casos_oraculo env; try done; intros [= <-];
      (split; [eassumption|]); calc_novos.
    + by exists [CreateClient; PathExists p;
                 GetPublicUrl "Ortomosaicos" (id +:+ "/")].
    + eexists [CreateClient; PathExists p;
               GetPublicUrl "Ortomosaicos" (id +:+ "/"); OpenWrite _;
               StorageUpload "Ortomosaicos" (id +:+ "/.folder") None; Remove _].
      reflexivity.
    + eexists [CreateClient; PathExists p;
               GetPublicUrl "Ortomosaicos" (id +:+ "/"); OpenWrite _;
               StorageUpload "Ortomosaicos" (id +:+ "/.folder") None; Remove _;
               Log WARNING _].
      reflexivity.
    + eexists [CreateClient; PathExists p;
               GetPublicUrl "Ortomosaicos" (id +:+ "/"); OpenWrite _;
               StorageUpload "Ortomosaicos" (id +:+ "/.folder") None;
               Log WARNING _].
      reflexivity.
    + eexists [CreateClient; PathExists p;
               GetPublicUrl "Ortomosaicos" (id +:+ "/"); OpenWrite _;
               Log WARNING _].
      reflexivity.
  - intros e.
    destruct (o_create_client env _); simpl;
      [|calc_novos; intros H; casos_in; done].
    rewrite <- !app_assoc. simpl.
    destruct (o_exists env _) eqn:Ee; simpl;
      [|calc_novos; intros H; casos_in; done].
    intros _. by destruct e.
Qed.

End Publication.

(** ** The parameter lines of the metadata file *)

From Stdlib Require Import Sorted.

Lemma ascii_compare_lt_trans a b c :
  Ascii.compare a b = Lt -> Ascii.compare b c = Lt -> Ascii.compare a c = Lt.
Proof.
  unfold Ascii.compare. rewrite !N.compare_lt_iff. lia.
Qed.

Lemma leb_trans a : forall b c,
  String.leb a b = true -> String.leb b c = true -> String.leb a c = true.
Proof.
  unfold String.leb.
  induction a as [|x a IH]; intros [|y b] [|z c]; simpl; try done.
  destruct (Ascii.compare x y) eqn:E1; try done;
    destruct (Ascii.compare y z) eqn:E2; try done.
  - apply Ascii.compare_eq_iff in E1, E2. subst.
    replace (Ascii.compare z z) with Eq; [apply IH|].
    symmetry. unfold Ascii.compare. apply N.compare_refl.
  - apply Ascii.compare_eq_iff in E1. subst. by rewrite E2.
  - apply Ascii.compare_eq_iff in E2. subst. by rewrite E1.
  - by rewrite (ascii_compare_lt_trans _ _ _ E1 E2).
Qed.

(** the order of [sorted] on the items of a dict: by key *)
Definition por_chave (a b : string * PyVal) : Prop := String.leb a.1 b.1 = true.

Lemma inserir_ordenada kv l :
  StronglySorted por_chave l -> StronglySorted por_chave (inserir kv l).
Proof.
  induction 1 as [|x l HS IH HF]; simpl.
  { repeat constructor. }
  destruct (String.leb kv.1 x.1) eqn:E.
  - constructor; [by constructor|]. constructor; [done|].
    rewrite Forall_forall in *. intros y Hy.
    eapply leb_trans; [exact E | by apply HF].
  - constructor; [done|]. rewrite Forall_forall in *. intros y Hy.
    apply inserir_elem in Hy as [->|Hy].
    + destruct (String.leb_total kv.1 x.1) as [H|H]; [congruence | done].
    + by apply HF.
Qed.

Lemma filter_ordenada (f : string * PyVal -> bool) l :
  StronglySorted por_chave l -> StronglySorted por_chave (List.filter f l).
Proof.
  induction 1 as [|x l HS IH HF]; simpl; [constructor|].
  destruct (f x); [|done]. constructor; [done|].
  rewrite Forall_forall in *. intros y Hy.
  apply list_elem_of_In, filter_In in Hy as [Hy _]. by apply HF, list_elem_of_In.
Qed.

Lemma inserir_perm kv l : inserir kv l ≡ₚ kv :: l.
Proof.
  induction l as [|x l IH]; simpl; [done|].
  destruct (String.leb kv.1 x.1); [done|]. rewrite IH. apply Permutation_swap.
Qed.

Lemma sorted_items_perm (m : gmap string PyVal) : sorted_items m ≡ₚ map_to_list m.
Proof.
  unfold sorted_items. induction (map_to_list m) as [|x l IH]; simpl; [done|].
  by rewrite inserir_perm, IH.
Qed.

Lemma filter_chaves (f : string * PyVal -> bool) l :
  NoDup l.*1 -> NoDup (List.filter f l).*1.
Proof.
  induction l as [|x l IH]; simpl; [done|].
  rewrite NoDup_cons. intros [Hx Hl]. destruct (f x); simpl; [|auto].
  apply NoDup_cons. split; [|auto]. intros Hin. apply Hx.
  apply list_elem_of_fmap in Hin as (y & -> & Hy). apply list_elem_of_fmap.
  exists y. split; [done|]. apply list_elem_of_In in Hy.
  apply filter_In in Hy as [Hy _]. by apply list_elem_of_In.
Qed.

(** X19. The parameter lines of the metadata file.  The lines that
    [gerar_metadados] writes under PARAMETROS DE PROCESSAMENTO are in
    increasing order of the parameter name and no name occurs twice; a
    parameter of the preset is listed, with its value, exactly when the value
    is a string, a number or a boolean and the name does not begin with an
    underscore. *)
Theorem X19_metadata_parameters (opcoes : gmap string PyVal) :
  StronglySorted por_chave (parametros opcoes) /\
  NoDup (parametros opcoes).*1 /\
  (forall k v, (k, v) ∈ parametros opcoes <->
     opcoes !! k = Some v /\ escalar v = true /\ startswith k "_" = false).
Proof.
  split; [|split].
  - unfold parametros. apply filter_ordenada. unfold sorted_items.
    induction (map_to_list opcoes) as [|x l IH]; simpl; [constructor|].
    by apply inserir_ordenada.
  - unfold parametros. apply filter_chaves.
    rewrite sorted_items_perm. apply NoDup_fst_map_to_list.
  - apply parametros_elem.
Qed.

(** * main.py: the route /processar

    The route and [handlers.criar_registro_requisicao] run before the
    pipeline, in the thread of the HTTP request.  Their steps are recorded
    in a trace of their own. *)

(** A Python value or [None] is an [option PyVal]; a row of the table is a
    dict from column names to such values. *)

(** [bool(v)] *)
Definition verdadeiro (v : option PyVal) : bool :=
  match v with
  | None => false
  | Some (PStr s) => negb (String.eqb s EmptyString)
  | Some (PInt n) => negb (n =? 0)
  | Some (PFloat x) => negb (f_num x =? 0)
  | Some (PBool b) => b
  | Some (PList l) => match l with [] => false | _ => true end
  end.

(** what [insert(data).execute()] may return, as far as the function tells
    the cases apart: a dict, with the list under its key "data" if it has
    the key; another object, with the list in its attribute [data] if it has
    the attribute; a string.  [texto] is [str(response)]. *)
Inductive Resposta :=
| R_dict (data : option (list (gmap string (option PyVal)))) (texto : string)
| R_objeto (data : option (list (gmap string (option PyVal)))) (texto : string)
| R_str (s : string).

(** [str(response)] *)
Definition texto_de (response : Resposta) : string :=
  match response with
  | R_dict _ texto | R_objeto _ texto => texto
  | R_str s => s
  end.

Inductive Passo :=
| P_log (n : Nivel) (msg : string)
| P_create_client
| P_insert (data : gmap string (option PyVal))
| P_thread (id_projeto : PyVal) (registro_id : option PyVal) (dados : gmap string PyVal).

(** the JSON body of the HTTP response *)
Inductive Corpo :=
| B_erro (erro : string)
| B_iniciado (id_registro : option PyVal) (id_projeto : PyVal).

(** a request: the header X-API-Key, and what [request.json] gives, which is
    an exception, [None], or the object of the body *)
Record Pedido := MkPedido {
  x_api_key : option string;
  corpo_json : Outcome (option (gmap string PyVal))
}.

Record EnvRota := MkEnvRota {
  API_KEY : option string;                        (* config.API_KEY *)
  w_create_client : list Passo -> Outcome unit;
  w_insert : list Passo -> Outcome Resposta;
  w_json_loads : string -> Outcome (option (list (gmap string (option PyVal))));
  w_thread_start : list Passo -> Outcome unit
}.

(** the monad of the route: the steps so far, and exceptions *)
Definition W (A : Type) : Type := list Passo -> Outcome A * list Passo.

Definition w_ret {A} (a : A) : W A := fun t => (Returns a, t).

Definition w_bind {A B} (m : W A) (k : A -> W B) : W B := fun t =>
  match m t with
  | (Returns a, t') => k a t'
  | (Throws e, t') => (Throws e, t')
  end.

Notation "'faz' x <- m ; k" := (w_bind m (fun x => k))
  (at level 10, x binder, m at level 100, k at level 200,
   format "'[v' 'faz'  x  <-  m ; '/' k ']'").

Definition w_try {A} (m : W A) (h : string -> W A) : W A := fun t =>
  match m t with
  | (Throws e, t') => h e t'
  | r => r
  end.

Definition w_raise {A} (e : string) : W A := fun t => (Throws e, t).

Definition w_ext {A} (p : Passo) (o : list Passo -> Outcome A) : W A := fun t =>
  (o (t ++ [p]), t ++ [p]).

Definition w_log (n : Nivel) (msg : string) : W unit := fun t =>
  (Returns tt, t ++ [P_log n msg]).

(** the value of an expression that may raise *)
Definition w_de {A} (o : Outcome A) : W A := fun t => (o, t).

(** the rest of [s] after the prefix [pre], if [s] starts with it *)
Fixpoint tira_prefixo (pre s : string) : option string :=
  match pre, s with
  | EmptyString, _ => Some s
  | String a p, String b r => if Ascii.eqb a b then tira_prefixo p r else None
  | String _ _, EmptyString => None
  end.

(** the longest prefix of [s] without a quote, and what follows it *)
Fixpoint ate_aspa (s : string) : string * string :=
  match s with
  | EmptyString => (EmptyString, EmptyString)
  | String c r =>
      if Ascii.eqb c "'"%char then (EmptyString, s)
      else let '(g, resto) := ate_aspa r in (String c g, resto)
  end.

(** a match of the pattern ['id': '([^']+)'] that starts at the first
    character of [s]: its group *)
Definition casa_id (s : string) : option string :=
  match tira_prefixo "'id': '" s with
  | Some r =>
      let '(g, resto) := ate_aspa r in
      if negb (String.eqb g EmptyString) && startswith resto "'" then Some g
      else None
  | None => None
  end.

(** [re.search(r"'id': '([^']+)'", s)]: the group of the leftmost match *)
Fixpoint busca_id (s : string) : option string :=
  match casa_id s with
  | Some g => Some g
  | None =>
      match s with
      | EmptyString => None
      | String _ r => busca_id r
      end
  end.

Section Rota.

Context (env : EnvRota).

Definition get_supabase_client_w : W unit :=
  w_try (w_ext P_create_client (w_create_client env))
    (fun e =>
       faz _ <- w_log ERROR ("Erro ao criar cliente Supabase: " +:+ e);
       w_raise e).

(** the [data] dict of [criar_registro_requisicao] *)
Definition dados_registro (id_projeto : PyVal)
  (cliente fazenda talhao data_voo id_talhao : option PyVal) : gmap string (option PyVal) :=
  <["id_talhao" := id_talhao]>
    (<["status_orto" := Some (PStr "Processando")]>
       (<["data_voo" := data_voo]>
          (<["talhao" := talhao]>
             (<["fazenda" := fazenda]>
                (<["cliente" := cliente]>
                   (<["id_projeto" := Some id_projeto]> ∅)))))).

(** [linha["id"]] *)
Definition item_id (linha : gmap string (option PyVal)) : W (option PyVal) :=
  match linha !! "id" with
  | Some v => w_ret v
  | None => w_raise "'id'"
  end.

(** lines 100-102: no way of extracting the id applied *)
Definition nao_extraiu (response : Resposta) : W (option PyVal) :=
  faz _ <- w_log ERROR ("Não foi possível extrair o ID do registro: "
                        +:+ texto_de response);
  w_ret None.

(** lines 68-106: the four ways of extracting the id of the new record *)
Definition extrair_id (response : Resposta) : W (option PyVal) :=
  w_try
    (match response with
     | R_dict (Some (linha :: _)) _ => item_id linha
     | R_objeto (Some (linha :: _)) _ => item_id linha
     | R_str s =>
         faz resp_json <- w_de (w_json_loads env s);
         match resp_json with
         | Some (linha :: _) => item_id linha
         | _ => nao_extraiu response
         end
     | R_dict _ texto | R_objeto _ texto =>
         if startswith texto "data=[" && contains texto "id" then
           match busca_id texto with
           | Some record_id => w_ret (Some (PStr record_id))
           | None => nao_extraiu response
           end
         else nao_extraiu response
     end)
    (fun e =>
       faz _ <- w_log ERROR ("Erro ao extrair ID do registro: " +:+ e);
       w_ret None).

Definition criar_registro_requisicao (id_projeto : PyVal)
  (cliente fazenda talhao data_voo id_talhao : option PyVal) : W (option PyVal) :=
  w_try
    (faz _ <- get_supabase_client_w;
     let data := dados_registro id_projeto cliente fazenda talhao data_voo
                                id_talhao in
     faz response <- w_ext (P_insert data) (w_insert env);
     extrair_id response)
    (fun e =>
       faz _ <- w_log ERROR ("Erro ao criar registro na tabela requisicoes: " +:+ e);
       w_ret None).

(** the view function of the route, lines 44-93 of main.py *)
Definition processar_ortomosaico (pedido : Pedido) : W (Corpo * Z) :=
  w_try
    (faz dados <- w_de (corpo_json pedido);
     match dados with
     | None => w_ret (B_erro "Nenhum dado recebido", 400)
     | Some dados =>
       if bool_decide (dados = ∅) then w_ret (B_erro "Nenhum dado recebido", 400)
       else
       match dados !! "id_projeto" with
       | None =>
           w_ret (B_erro "Campo obrigatório 'id_projeto' não encontrado", 400)
       | Some id_projeto =>
           let cliente := dados !! "cliente" in
           let fazenda := dados !! "fazenda" in
           let talhao := dados !! "talhao" in
           let data_voo := dados !! "data_levantamento" in
           faz registro_id <-
             criar_registro_requisicao id_projeto cliente fazenda talhao
                                       data_voo None;
           if negb (verdadeiro registro_id) then
             w_ret (B_erro "Falha ao criar registro na tabela de requisições", 500)
           else
             faz _ <- w_ext (P_thread id_projeto registro_id dados)
                        (w_thread_start env);
             w_ret (B_iniciado registro_id id_projeto, 202)
       end
     end)
    (fun e =>
       faz _ <- w_log ERROR ("Erro ao processar requisição: " +:+ e);
       w_ret (B_erro ("Erro interno: " +:+ e), 500)).

(** the decorator [require_apikey], lines 22-30 *)
Definition require_apikey (view_function : Pedido -> W (Corpo * Z))
  (pedido : Pedido) : W (Corpo * Z) :=
  let api_key := x_api_key pedido in
  if truthy api_key && bool_decide (api_key = API_KEY env)
  then view_function pedido
  else w_ret (B_erro "Acesso não autorizado", 401).

(** POST /processar *)
Definition rota_processar : Pedido -> W (Corpo * Z) :=
  require_apikey processar_ortomosaico.

End Rota.

(** ** Properties of the route *)



Definition e_plog (p : Passo) : bool :=
  match p with
  | P_log _ _ => true
  | _ => false
  end.

Ltac casos_rota :=
  repeat (match goal with
          | |- context [match ?d !! ?k with _ => _ end] => destruct (d !! k) eqn:?
          | |- context [match ?o ?e ?tr with _ => _ end] =>
              destruct (o e tr) eqn:?
          | |- context [match busca_id ?x with _ => _ end] =>
              destruct (busca_id x) eqn:?
          | |- context [match ?x with _ => _ end] => is_var x; destruct x
          | |- context [if ?b then _ else _] => destruct b eqn:?
          end; simpl).

(** how [criar_registro_requisicao] ends: always with a value; its steps
    are the creation of the client, then at most the insert of the row, then
    log lines only; a true value is returned only when the insert was made
    and nothing was logged *)
Lemma criar_registro_forma env id c f tl dv it t :
  let data := dados_registro id c f tl dv it in
  exists v ins logs,
    criar_registro_requisicao env id c f tl dv it t =
      (Returns v, t ++ P_create_client :: ins ++ logs) /\
    forallb e_plog logs = true /\
    (ins = [] \/ ins = [P_insert data]) /\
    (verdadeiro v = true -> ins = [P_insert data] /\ logs = []).
Proof.
  intros data. subst data.
  unfold criar_registro_requisicao, extrair_id, nao_extraiu, item_id,
    get_supabase_client_w, w_try, w_bind, w_ext, w_log, w_de, w_raise, w_ret.
  simpl. casos_rota; rewrite <- ?app_assoc; simpl;
    first
      [ by eexists _, [P_insert _], []; repeat split; auto
      | by eexists _, [P_insert _], [_]; repeat split; auto
      | by eexists _, [], [_; _]; repeat split; auto ].
Qed.

(** the row the route inserts for a body *)
Definition linha_do_pedido (id_projeto : PyVal) (dados : gmap string PyVal)
  : gmap string (option PyVal) :=
  dados_registro id_projeto (dados !! "cliente") (dados !! "fazenda")
                 (dados !! "talhao") (dados !! "data_levantamento") None.

(** the key of the request is the configured one *)
Definition autorizado (env : EnvRota) (pedido : Pedido) : bool :=
  truthy (x_api_key pedido) && bool_decide (x_api_key pedido = API_KEY env).







(** a configuration with a key, a store that accepts the row and answers
    [resp], and threads that start *)
Definition rota_exemplo (resp : Resposta) : EnvRota :=
  {| API_KEY := Some "segredo";
     w_create_client := fun _ => Returns tt;
     w_insert := fun _ => Returns resp;
     w_json_loads := fun _ => Throws "Expecting value";
     w_thread_start := fun _ => Returns tt |}.

Definition corpo_p1 : gmap string PyVal :=
  <["id_projeto" := PStr "P1"]> (<["data_levantamento" := PStr "2025-03-01"]> ∅).

Definition pedido_p1 : Pedido := MkPedido (Some "segredo") (Returns (Some corpo_p1)).



(** X23. The row inserted without a thread.  When the store accepts the
    row but answers with an object that holds no row (an empty [data]) and
    whose text shows no id, [criar_registro_requisicao] returns None after the
    insert, and the route answers 500 without starting a thread: the row
    stays in the table with status "Processando". *)
Theorem X23_row_without_thread (env : EnvRota) (pedido : Pedido)
  (t : list Passo) (dados : gmap string PyVal) (id : PyVal) (texto : string) :
  autorizado env pedido = true ->
  corpo_json pedido = Returns (Some dados) ->
  dados !! "id_projeto" = Some id ->
  w_create_client env (t ++ [P_create_client]) = Returns tt ->
  w_insert env (t ++ [P_create_client; P_insert (linha_do_pedido id dados)])
    = Returns (R_objeto (Some []) texto) ->
  busca_id texto = None ->
  let y := rota_processar env pedido t in
  y.1 = Returns (B_erro "Falha ao criar registro na tabela de requisições", 500) /\
  y.2 = t ++ [P_create_client; P_insert (linha_do_pedido id dados);
              P_log ERROR ("Não foi possível extrair o ID do registro: "
                           +:+ texto)] /\
  linha_do_pedido id dados !! "status_orto" = Some (Some (PStr "Processando")).
Proof.
  intros Ha Hj Hi Hc Hins Hb y. subst y.
  unfold rota_processar, require_apikey. fold (autorizado env pedido).
  rewrite Ha.
  unfold processar_ortomosaico, criar_registro_requisicao, extrair_id,
    nao_extraiu, get_supabase_client_w, w_try, w_bind, w_de, w_ext, w_log, w_ret.
  rewrite Hj. simpl.
  assert (dados <> ∅) as Hne.
  { intros ->. by rewrite lookup_empty in Hi. }
  rewrite bool_decide_false by done. rewrite Hi, Hc. simpl.
  fold (linha_do_pedido id dados). rewrite <- !app_assoc. simpl.
  rewrite Hins. simpl. rewrite Hb.
  destruct (startswith texto "data=[" && contains texto "id"); simpl;
    by rewrite <- !app_assoc.
Qed.

Lemma X23_witness :
  let env := rota_exemplo (R_objeto (Some []) "data=[] count=None") in
  let y := rota_processar env pedido_p1 [] in
  y.1 = Returns (B_erro "Falha ao criar registro na tabela de requisições", 500) /\
  y.2 = [] ++ [P_create_client; P_insert (linha_do_pedido (PStr "P1") corpo_p1);
               P_log ERROR ("Não foi possível extrair o ID do registro: "
                            +:+ "data=[] count=None")] /\
  linha_do_pedido (PStr "P1") corpo_p1 !! "status_orto"
    = Some (Some (PStr "Processando")).
Proof.
  apply (X23_row_without_thread
           (rota_exemplo (R_objeto (Some []) "data=[] count=None")) pedido_p1 []
           corpo_p1 (PStr "P1") "data=[] count=None");
    vm_compute; reflexivity.
Defined.

(** ** The id of the new record *)

(** X24. The id of the new record.  [criar_registro_requisicao] never
    raises.  It returns None, after logging an error, when the client cannot
    be created -- and then nothing is inserted -- and when the insert
    raises.  When the store answers with a dict or an object whose [data]
    has a first row, the value returned is the "id" of that row, and None if
    the row has no "id"; the text of the answer plays no part. *)
Theorem X24_new_record_id (env : EnvRota) (id : PyVal)
  (c f tl dv it : option PyVal) (t : list Passo) :
  let y := criar_registro_requisicao env id c f tl dv it t in
  let data := dados_registro id c f tl dv it in
  (exists v, y.1 = Returns v) /\
  (forall e, w_create_client env (t ++ [P_create_client]) = Throws e ->
     y.1 = Returns None /\
     y.2 = t ++ [P_create_client;
                 P_log ERROR ("Erro ao criar cliente Supabase: " +:+ e);
                 P_log ERROR ("Erro ao criar registro na tabela requisicoes: "
                              +:+ e)]) /\
  (forall e, w_create_client env (t ++ [P_create_client]) = Returns tt ->
     w_insert env (t ++ [P_create_client; P_insert data]) = Throws e ->
     y.1 = Returns None /\
     y.2 = t ++ [P_create_client; P_insert data;
                 P_log ERROR ("Erro ao criar registro na tabela requisicoes: "
                              +:+ e)]) /\
  (forall response linha resto texto,
     w_create_client env (t ++ [P_create_client]) = Returns tt ->
     w_insert env (t ++ [P_create_client; P_insert data]) = Returns response ->
     response = R_dict (Some (linha :: resto)) texto \/
     response = R_objeto (Some (linha :: resto)) texto ->
     y.1 = Returns (default None (linha !! "id")) /\
     (is_Some (linha !! "id") -> y.2 = t ++ [P_create_client; P_insert data])).
Proof.
  intros y data. subst y data. split; [|split; [|split]].
  - destruct (criar_registro_forma env id c f tl dv it t) as (v & ? & ? & E & _).
    rewrite E. eauto.
  - intros e Hc.
    unfold criar_registro_requisicao, get_supabase_client_w, w_try, w_bind,
      w_ext, w_log, w_raise, w_ret.
    rewrite Hc. simpl. by rewrite <- !app_assoc.
  - intros e Hc Hi.
    unfold criar_registro_requisicao, get_supabase_client_w, w_try, w_bind,
      w_ext, w_log, w_raise, w_ret.
    rewrite Hc. simpl. rewrite <- !app_assoc. simpl. rewrite Hi. simpl.
    by rewrite <- !app_assoc.
  - intros response linha resto texto Hc Hi Hr.
    unfold criar_registro_requisicao, extrair_id, item_id,
      get_supabase_client_w, w_try, w_bind, w_ext, w_log, w_raise, w_ret.
    rewrite Hc. simpl. rewrite <- !app_assoc. simpl. rewrite Hi. simpl.
    destruct Hr as [-> | ->]; destruct (linha !! "id") as [v|]; simpl;
      (split; [done|]); first [done | by intros [? ?]].
Qed.

(** ** The pattern of the fourth way *)

Lemma prefix_app x y : String.prefix x (x +:+ y) = true.
Proof.
  induction x as [|a x IH]; simpl; [by destruct y|].
  change (String a x +:+ y) with (String a (x +:+ y)). simpl.
  by destruct (ascii_dec a a).
Qed.

Lemma app_str_assoc a b c : (a +:+ b) +:+ c = a +:+ (b +:+ c).
Proof.
  induction a as [|x a IH]; [done|].
  change (String x ((a +:+ b) +:+ c) = String x (a +:+ (b +:+ c))).
  by rewrite IH.
Qed.

Lemma contains_prefix s x : String.prefix x s = true -> contains s x = true.
Proof. intros H. destruct s; cbn [contains]; by rewrite H. Qed.

Lemma contains_cons c s x : contains s x = true -> contains (String c s) x = true.
Proof. intros H. cbn [contains]. rewrite H. apply orb_true_r. Qed.

Lemma tira_prefixo_app pre s r : tira_prefixo pre s = Some r -> s = pre +:+ r.
Proof.
  revert s. induction pre as [|a pre IH]; intros s; simpl; [by intros [= ->]|].
  destruct s as [|b s]; [done|]. destruct (Ascii.eqb a b) eqn:E; [|done].
  apply Ascii.eqb_eq in E. subst. intros H. apply IH in H. by subst.
Qed.

Lemma contains_char_cons a c g :
  a <> c ->
  contains (String c g) (String a EmptyString) = contains g (String a EmptyString).
Proof.
  intros H. cbn [contains String.prefix]. by destruct (ascii_dec a c).
Qed.

Lemma contains_char_head a g : contains (String a g) (String a EmptyString) = true.
Proof.
  cbn [contains String.prefix]. destruct (ascii_dec a a); [|done]. by destruct g.
Qed.

Lemma ate_aspa_app s g resto :
  ate_aspa s = (g, resto) ->
  s = g +:+ resto /\ contains g "'" = false /\
  (resto = EmptyString \/ exists r, resto = String "'"%char r).
Proof.
  revert g resto. induction s as [|c s IH]; intros g resto; simpl.
  { intros [= <- <-]. auto. }
  destruct (Ascii.eqb c "'"%char) eqn:E.
  - apply Ascii.eqb_eq in E. subst. intros [= <- <-]. split; [done|].
    split; [done|]. right. eauto.
  - destruct (ate_aspa s) as [g' resto'] eqn:Es. intros [= <- <-].
    destruct (IH _ _ eq_refl) as (-> & Hg & Hr). split; [done|]. split; [|done].
    apply Ascii.eqb_neq in E.
    change "'" with (String "'"%char EmptyString).
    rewrite contains_char_cons by congruence. exact Hg.
Qed.

Lemma prefix_inv x : forall s, String.prefix x s = true -> exists r, s = x +:+ r.
Proof.
  induction x as [|a x IH]; intros s; [by exists s|].
  destruct s as [|b s]; [done|]. cbn [String.prefix].
  destruct (ascii_dec a b) as [->|]; [|done]. intros H.
  destruct (IH _ H) as [r ->]. by exists r.
Qed.

Lemma tira_prefixo_pre pre r : tira_prefixo pre (pre +:+ r) = Some r.
Proof.
  induction pre as [|a pre IH]; [by destruct r|].
  change (String a pre +:+ r) with (String a (pre +:+ r)). cbn [tira_prefixo].
  by rewrite Ascii.eqb_refl.
Qed.

Lemma ate_aspa_sem g r :
  contains g "'" = false ->
  ate_aspa (g +:+ String "'"%char r) = (g, String "'"%char r).
Proof.
  induction g as [|a g IH]; [done|].
  change "'" with (String "'"%char EmptyString).
  change (String a g +:+ String "'"%char r) with (String a (g +:+ String "'"%char r)).
  cbn [ate_aspa]. destruct (Ascii.eqb a "'"%char) eqn:E.
  - apply Ascii.eqb_eq in E. subst. by rewrite contains_char_head.
  - apply Ascii.eqb_neq in E. rewrite contains_char_cons by congruence.
    intros H. by rewrite (IH H).
Qed.

Lemma casa_id_prefix s g :
  g <> EmptyString -> contains g "'" = false ->
  String.prefix ("'id': '" +:+ g +:+ "'") s = true -> casa_id s = Some g.
Proof.
  intros Hg Hq Hp. apply prefix_inv in Hp as [r ->].
  rewrite !app_str_assoc. unfold casa_id. rewrite tira_prefixo_pre.
  change ("'" +:+ r) with (String "'"%char r). rewrite (ate_aspa_sem g r Hq).
  apply String.eqb_neq in Hg. rewrite Hg. unfold startswith. simpl.
  by destruct r.
Qed.

(** X25. The pattern of the fourth way.  The search that stands for
    [re.search(r"'id': '([^']+)'", texto)] returns only a text that is not
    empty, holds no quote, and occurs in [texto] between ['id': '] and a
    closing quote; and it returns one whenever [texto] has such an
    occurrence. *)
Theorem X25_id_pattern (texto : string) :
  (forall g, busca_id texto = Some g ->
     g <> EmptyString /\ contains g "'" = false /\
     contains texto ("'id': '" +:+ g +:+ "'") = true) /\
  (forall g, g <> EmptyString -> contains g "'" = false ->
     contains texto ("'id': '" +:+ g +:+ "'") = true ->
     exists g', busca_id texto = Some g').
Proof.
  split.
  - intros g. induction texto as [|c s IH].
    + simpl. unfold casa_id. simpl. done.
    + cbn [busca_id]. destruct (casa_id (String c s)) as [g'|] eqn:Ec.
      * intros [= ->]. unfold casa_id in Ec.
        destruct (tira_prefixo "'id': '" (String c s)) as [r|] eqn:Et; [|done].
        apply tira_prefixo_app in Et.
        destruct (ate_aspa r) as [g' resto] eqn:Ea.
        destruct (negb (String.eqb g' EmptyString) && startswith resto "'") eqn:Eb;
          [|done].
        injection Ec as ->. apply andb_prop in Eb as [Eg Er].
        apply negb_true_iff, String.eqb_neq in Eg.
        destruct (ate_aspa_app _ _ _ Ea) as (-> & Hq & Hr).
        split; [done|]. split; [done|].
        destruct Hr as [->|[r' ->]]; [discriminate Er|].
        apply contains_prefix. rewrite Et.
        replace ("'id': '" +:+ g +:+ String "'" r')
          with (("'id': '" +:+ g +:+ "'") +:+ r'); [apply prefix_app|].
        by rewrite !app_str_assoc.
      * intros H. destruct (IH H) as (? & ? & Hc). split; [done|]. split; [done|].
        by apply contains_cons.
  - intros g Hg Hq. induction texto as [|c s IH].
    + cbn [contains]. rewrite orb_false_r. intros Hp.
      apply prefix_inv in Hp as [r Hr]. done.
    + cbn [contains busca_id]. intros Hc. apply orb_prop in Hc as [Hp|Hc].
      * rewrite (casa_id_prefix _ g Hg Hq Hp). eauto.
      * destruct (casa_id (String c s)); [eauto|]. by apply IH.
Qed.

Lemma X25_witness :
  exists g, busca_id "data=[{'id': 'r1', 'status_orto': 'Processando'}] count=None"
            = Some g.
Proof.
  apply (proj2 (X25_id_pattern
                  "data=[{'id': 'r1', 'status_orto': 'Processando'}] count=None")
               "r1");
    [discriminate | reflexivity | reflexivity].
Defined.

(** ** The request fields in the metadata file *)

(** one of these lines: written when the body holds a true value under
    [chave] *)
Definition linha_adicional (dados_adicionais : gmap string PyVal)
  (rotulo chave : string) : list (string * PyVal) :=
  match dados_adicionais !! chave with
  | Some v => if verdadeiro (Some v) then [(rotulo, v)] else []
  | None => []
  end.

(** lines 496-501 and 519-527 of handlers.py: the lines that
    [gerar_metadados] writes under INFORMACOES ADICIONAIS, as (label, value),
    from the body of the request the route handed to [processar_projeto] *)
Definition linhas_adicionais (dados_requisicao : option (gmap string PyVal))
  : list (string * PyVal) :=
  let dados_adicionais := default ∅ dados_requisicao in
  linha_adicional dados_adicionais "cliente" "cliente" ++
  linha_adicional dados_adicionais "fazenda" "fazenda" ++
  linha_adicional dados_adicionais "talhao" "talhao" ++
  linha_adicional dados_adicionais "data_levantamento" "data_voo".

Lemma linha_adicional_elem d rotulo chave r v :
  (r, v) ∈ linha_adicional d rotulo chave <->
  r = rotulo /\ d !! chave = Some v /\ verdadeiro (Some v) = true.
Proof.
  unfold linha_adicional. destruct (d !! chave) as [w|].
  - destruct (verdadeiro (Some w)) eqn:E.
    + rewrite list_elem_of_singleton. split.
      * by intros [= -> ->].
      * by intros (-> & [= ->] & _).
    + rewrite elem_of_nil. split; [done|]. intros (_ & [= ->] & ?). congruence.
  - rewrite elem_of_nil. split; [done|]. by intros (_ & ? & _).
Qed.

(** X26. The flight date.  The route stores the field data_levantamento of
    the body in the column data_voo of the row, and hands the body as it is
    to [processar_projeto]; [gerar_metadados] looks for the flight date under
    the key data_voo of that body.  So the file shows a line
    "data_levantamento" exactly when the body has a true field data_voo, with
    that value: a body with data_levantamento only gets its date into the
    table and not into the file. *)
Theorem X26_flight_date (id : PyVal) (dados : gmap string PyVal) :
  linha_do_pedido id dados !! "data_voo" = Some (dados !! "data_levantamento") /\
  (forall v, ("data_levantamento", v) ∈ linhas_adicionais (Some dados) <->
     dados !! "data_voo" = Some v /\ verdadeiro (Some v) = true) /\
  (dados !! "data_voo" = None ->
   forall v, ("data_levantamento", v) ∉ linhas_adicionais (Some dados)).
Proof.
  assert (forall v, ("data_levantamento", v) ∈ linhas_adicionais (Some dados) <->
            dados !! "data_voo" = Some v /\ verdadeiro (Some v) = true) as H.
  { intros v. unfold linhas_adicionais. cbn [default].
    rewrite !elem_of_app, !linha_adicional_elem. split.
    - intros [(? & _)|[(? & _)|[(? & _)|(_ & ? & ?)]]]; done.
    - intros [? ?]. do 3 right. done. }
  split; [|split; [exact H|]].
  - unfold linha_do_pedido, dados_registro.
    rewrite lookup_insert_ne by done. rewrite lookup_insert_ne by done.
    by rewrite lookup_insert_eq.
  - intros Hn v Hv. apply H in Hv as [Hv _]. congruence.
Qed.

(** ** Where the metadata file goes *)

Lemma rfind_from_app c a b i acc :
  rfind_from c (a +:+ b) i acc =
    rfind_from c b (i + str_len a) (rfind_from c a i acc).
Proof.
  revert i acc. induction a as [|x a IH]; intros i acc.
  - simpl. unfold str_len. simpl. by rewrite Z.add_0_r.
  - change (String x a +:+ b) with (String x (a +:+ b)). cbn [rfind_from].
    rewrite IH. unfold str_len. cbn [String.length]. f_equal. lia.
Qed.

Lemma substring_0_app a b :
  String.substring 0 (String.length a) (a +:+ b) = a.
Proof.
  induction a as [|x a IH]; [by destruct b|].
  change (String x a +:+ b) with (String x (a +:+ b)). simpl. by rewrite IH.
Qed.

Lemma list_ascii_app a b :
  list_ascii_of_string (a +:+ b) = list_ascii_of_string a ++ list_ascii_of_string b.
Proof.
  induction a as [|x a IH]; [done|].
  change (String x a +:+ b) with (String x (a +:+ b)). simpl. by rewrite IH.
Qed.

Lemma rfind_from_ausente c s :
  rfind c s = -1 -> forall i acc, rfind_from c s i acc = acc.
Proof.
  unfold rfind. intros H i acc.
  assert (forall s i acc j acc', rfind_from c s j acc' = acc' ->
            acc' < j -> rfind_from c s i acc = acc) as Hgen.
  { clear. induction s as [|a s IH]; intros i acc j acc'; [done|]. simpl.
    destruct (Ascii.eqb a c).
    - intros E Hlt. destruct (rfind_from_bounds c s (j + 1) j); lia.
    - intros E Hlt. by apply (IH _ _ (j + 1) acc'); [|lia]. }
  by apply (Hgen s i acc 0 (-1)).
Qed.

(** [os.path.dirname(os.path.join(d, nome))] is [d] again, for a directory
    [d] that ends with a character other than the slash and a file name
    without slash *)
Lemma dirname_join x c nome :
  c <> "/"%char -> rfind "/"%char nome = -1 -> nome <> EmptyString ->
  let d := x +:+ String c EmptyString in
  path_join d nome = d +:+ "/" +:+ nome /\ dirname (d +:+ "/" +:+ nome) = d.
Proof.
  intros Hc Hn Hne d.
  assert (String.length d = S (String.length x)) as Hlen.
  { subst d. rewrite length_app_str. simpl. lia. }
  split.
  - unfold path_join.
    assert (startswith nome "/" = false) as ->.
    { destruct nome as [|a nome]; [reflexivity|]. unfold startswith.
      cbn [String.prefix].
      destruct (ascii_dec "/"%char a) as [<-|]; [|done].
      unfold rfind in Hn. simpl in Hn.
      destruct (rfind_from_bounds "/"%char nome (0 + 1) 0) as [E|E]; lia. }
    assert (String.eqb d EmptyString = false) as ->.
    { apply String.eqb_neq. intros E. rewrite E in Hlen. done. }
    assert (endswith d "/" = false) as ->; [|done].
    unfold endswith, slice, str_len. rewrite Hlen. simpl String.length.
    replace (Z.to_nat (Z.of_nat (S (String.length x)) - Z.of_nat 1))
      with (String.length x) by lia.
    replace (Z.to_nat (Z.of_nat (S (String.length x)) -
                       (Z.of_nat (S (String.length x)) - Z.of_nat 1)))
      with (String.length (String c EmptyString)) by (simpl; lia).
    subst d. rewrite substring_app_r.
    replace (String.eqb (String c EmptyString) "/") with false;
      [apply andb_false_r|].
    symmetry. apply String.eqb_neq. congruence.
  - unfold dirname.
    assert (rfind "/"%char (d +:+ "/" +:+ nome) = str_len d) as ->.
    { unfold rfind. rewrite rfind_from_app.
      change ("/" +:+ nome) with (String "/"%char nome). cbn [rfind_from].
      rewrite Ascii.eqb_refl, (rfind_from_ausente _ _ Hn). lia. }
    cbv zeta. unfold slice.
    replace (Z.to_nat 0) with 0%nat by done.
    replace (Z.to_nat (str_len d + 1 - 0)) with (String.length (d +:+ "/"))
      by (rewrite length_app_str; unfold str_len; simpl; lia).
    rewrite <- app_str_assoc, substring_0_app.
    rewrite list_ascii_app. simpl. rewrite rev_app_distr. simpl.
    subst d. rewrite list_ascii_app. simpl. rewrite rev_app_distr. simpl.
    apply Ascii.eqb_neq in Hc. rewrite Hc. simpl.
    rewrite rev_involutive.
    destruct (list_ascii_of_string x ++ [c]) as [|a l] eqn:El.
    { by destruct (list_ascii_of_string x). }
    rewrite <- El. change [c] with (list_ascii_of_string (String c EmptyString)).
    by rewrite <- list_ascii_app, string_of_list_ascii_of_string.
Qed.

Lemma dir_resultados_forma proj :
  exists x, path_join proj "resultados" = x +:+ String "s"%char EmptyString.
Proof.
  unfold path_join. change (startswith "resultados" "/") with false. cbv iota.
  destruct (String.eqb proj EmptyString || endswith proj "/").
  - exists (proj +:+ "resultado"). by rewrite app_str_assoc.
  - exists (proj +:+ "/" +:+ "resultado"). by rewrite !app_str_assoc.
Qed.

Section Metadata.

Local Arguments path_join : simpl never.
Local Arguments dirname : simpl never.

(** X27. Where the metadata file goes.  For the mosaic path that
    [baixar_resultados] returns, "<project dir>/resultados/odm_orthophoto.tif",
    [gerar_metadados] writes the file next to the mosaic, at
    "<project dir>/resultados/metadados.txt", with the parameter lines of the
    options it was given, and only after the status of the task was read; it
    returns that path exactly when these two steps were all it did, and None
    otherwise. *)
Theorem X27_metadata_next_to_mosaic (env : Env) (id dir_imagens : string)
  (t : Task) (opcoes : gmap string PyVal) (n : Z)
  (dados : option (gmap string PyVal)) (s : State) :
  let dir := path_join (path_join (TEMP_DIR env) id) "resultados" in
  let mosaico := path_join dir "odm_orthophoto.tif" in
  let destino := path_join dir "metadados.txt" in
  let y := gerar_metadados env id dir_imagens mosaico t opcoes n dados s in
  let evs := eventos (novos s y.2) in
  dirname mosaico = dir /\
  (y.1 = Ok None \/ y.1 = Ok (Some destino)) /\
  (y.1 = Ok (Some destino) <->
   evs = [TaskInfo (uuid t); WriteMetadata destino (parametros opcoes)]) /\
  (forall p ps, WriteMetadata p ps ∈ evs ->
     p = destino /\ ps = parametros opcoes /\
     exists st, o_task_info env (trace s ++ [IO (TaskInfo (uuid t))]) = InfoOk st).
Proof.
  intros dir mosaico destino y evs.
  assert (dirname mosaico = dir) as Hd.
  { subst mosaico. destruct (dir_resultados_forma (path_join (TEMP_DIR env) id))
      as [x Hx]. fold dir in Hx. rewrite Hx.
    destruct (dirname_join x "s"%char "odm_orthophoto.tif") as [E1 E2];
      [done | done | done |].
    cbv zeta in E1, E2. by rewrite E1, E2. }
  split; [exact Hd|]. subst evs y.
  unfold gerar_metadados, task_info, try_except, bind, ask, ext, log, emit,
    raise, ret.
  rewrite Hd. fold destino. generalize destino. clear. intros destino.
  simpl. split; [|split].
  - casos_oraculo env; auto.
  - casos_oraculo env; calc_novos; split; intros H; done.
  - intros p ps. destruct (o_task_info env _) eqn:Ei; simpl;
      [|calc_novos; intros H; casos_in|calc_novos; intros H; casos_in].
    casos_oraculo env; calc_novos; intros H; casos_in; eauto.
Qed.

End Metadata.
